(** * Speedxpayment: the FileSplit component ([src/FileSplit.tsx]) and its shell

    A shallow embedding of the spreadsheet pipeline: read the first sheet,
    keep the DELIVERED rows, group them by FleeName, drop two columns, write
    one workbook per group into a zip archive and report statistics; and of
    the component around it: the handlers that select a file, the markup it
    returns, and the shell that mounts it.

    Conventions of the embedding.
    - JavaScript strings are [string], holding the text in UTF-8: a
      character is the byte sequence of one code point, and a literal of this
      file is the text it shows. [String.prototype.trim] strips the
      WhiteSpace and LineTerminator code points of ECMAScript from both ends;
      [String.prototype.toUpperCase] replaces each character by its upper
      case in the Unicode Character Database, which may be several
      characters. The sanitising regular expression and the suffixes given to
      [endsWith] hold characters below 128 only; each is one byte, which
      occurs in no other character, and these two operations are computed on
      bytes. Lengths are counted in bytes. A lone surrogate has no UTF-8 form
      and is not modelled; on bytes that are not UTF-8 the operations are
      defined all the same, a first byte taking as many of the bytes after
      it as it announces.
    - A cell read from a row is a [value]: [VUndefined] for a property that
      is absent, [VString] otherwise ([sheet_to_json] is called with
      [raw: false], so every cell is formatted text).
    - A JavaScript object used as a record or dictionary is the list of its
      own properties in creation order; the enumeration order of
      [Object.keys] / [Object.entries] / spread is computed from it
      (array-index keys first, ascending, then the other keys in creation
      order). Reading [groupedData[fleeName]] falls back on the members of
      [Object.prototype], as it does for every object literal.
    - Row objects are made by the spreadsheet library; their
      [hasOwnProperty] is taken to be the method of [Object.prototype] (no
      column is named hasOwnProperty).
    - SheetJS and JSZip are parameters of the pipeline: each call either
      returns or throws. The arithmetic on doubles is the exact arithmetic
      followed by the rounding to the nearest double, [binary64].
    - The React state setters and the download are recorded as an event
      trace; the component state is recovered by replaying the trace.
    - The handlers of the component act on the record of its seven state
      cells. A handler that opens the [prompt] dialog is a function of the
      answer, [None] when the dialog is cancelled. In a sequence of actions a
      run of [processExcel] is one step: it reads [file] and [hubName] at the
      click, and no other handler fires between its events. The timers are
      not run.
    - The markup returned by the component is recorded by its parts that
      depend on the state; the markup of the shell ([src/App.tsx]) by the
      page it shows. *)

From Stdlib Require Import ZArith NArith QArith Qround Qpower SpecFloat.
From Stdlib Require Import Lia Lqa Ascii String DecimalString.
From stdpp Require Import base tactics option list sets strings sorting.

Set Warnings "-clear-no-such-hyp".

Local Open Scope string_scope.
Local Open Scope list_scope.

(** ** JavaScript strings *)

Module JSString.

(** *** Characters *)

(** The bytes of a code point in UTF-8. *)
Definition fromCodePoint (cp : N) : string :=
  let byte (n : N) := ascii_of_N n in
  (if cp <? 0x80 then String (byte cp) ""
   else if cp <? 0x800 then
     String (byte (0xC0 + cp / 0x40)) (String (byte (0x80 + cp mod 0x40)) "")
   else if cp <? 0x10000 then
     String (byte (0xE0 + cp / 0x1000))
       (String (byte (0x80 + cp / 0x40 mod 0x40))
          (String (byte (0x80 + cp mod 0x40)) ""))
   else
     String (byte (0xF0 + cp / 0x40000))
       (String (byte (0x80 + cp / 0x1000 mod 0x40))
          (String (byte (0x80 + cp / 0x40 mod 0x40))
             (String (byte (0x80 + cp mod 0x40)) ""))))%N.

(** The number of bytes that follow the first byte of a character. *)
Definition following (c : ascii) : nat :=
  let n := N_of_ascii c in
  if (n <? 0xC0)%N then 0
  else if (n <? 0xE0)%N then 1
  else if (n <? 0xF0)%N then 2
  else if (n <? 0xF8)%N then 3
  else 0.

(** The characters of [s] from its first byte on, when that byte is the
    first of [pending] bytes still owed to the character before it: the rest
    of that character and the characters after it. *)
Fixpoint charsFrom (pending : nat) (s : string) : string * list string :=
  match s with
  | EmptyString => (EmptyString, [])
  | String c s' =>
      match pending with
      | 0 =>
          let rest := charsFrom (following c) s' in
          (EmptyString, String c rest.1 :: rest.2)
      | S pending' =>
          let rest := charsFrom pending' s' in (String c rest.1, rest.2)
      end
  end.

(** The characters of a string, each as its bytes. *)
Definition chars (s : string) : list string := (charsFrom 0 s).2.

(** The string made of the given characters. *)
Fixpoint fromChars (l : list string) : string :=
  match l with
  | [] => EmptyString
  | char :: l' => char +:+ fromChars l'
  end.

(** A first byte with all the bytes that follow it. *)
Definition isChar (char : string) : bool :=
  match char with
  | EmptyString => false
  | String c rest => (String.length rest =? following c)%nat
  end.

(** A first byte with some of the bytes that follow it: the last character
    of a text that is cut short. *)
Definition isCutChar (char : string) : bool :=
  match char with
  | EmptyString => false
  | String c rest => (String.length rest <=? following c)%nat
  end.

(** The lists of characters that [chars] returns. *)
Inductive wellFormed : list string -> Prop :=
| wellFormed_nil : wellFormed []
| wellFormed_last char : isCutChar char = true -> wellFormed [char]
| wellFormed_cons char l :
    isChar char = true -> wellFormed l -> wellFormed (char :: l).

(** WhiteSpace and LineTerminator: TAB, LF, VT, FF, CR, SPACE, NO-BREAK
    SPACE, the other code points of category Zs, LINE SEPARATOR, PARAGRAPH
    SEPARATOR and ZERO WIDTH NO-BREAK SPACE. *)
Definition whiteSpaces : list string :=
  Eval vm_compute in
  fromCodePoint <$>
    [0x9; 0xA; 0xB; 0xC; 0xD; 0x20; 0xA0; 0x1680; 0x2000; 0x2001; 0x2002;
     0x2003; 0x2004; 0x2005; 0x2006; 0x2007; 0x2008; 0x2009; 0x200A; 0x2028;
     0x2029; 0x202F; 0x205F; 0x3000; 0xFEFF]%N.

Definition isWhiteSpace (char : string) : bool :=
  existsb (String.eqb char) whiteSpaces.

(** *** Upper case
    The mappings of the Unicode Character Database (version 14.0): the
    simple mappings of UnicodeData.txt, as ranges
    [(first, last, step, image of first)] in which a code point and its image
    are at the same distance from the first ones, and the unconditional
    mappings of SpecialCasing.txt, which replace one code point by several.
    A code point that is in neither list is its own upper case. Later
    versions of the database add a few pairs of letters. *)

Definition simpleUpperCase : list (N * N * N * N) :=
  [
   (0x61, 0x7A, 1, 0x41); (0xB5, 0xB5, 1, 0x39C); (0xE0, 0xF6, 1, 0xC0);
   (0xF8, 0xFE, 1, 0xD8); (0xFF, 0xFF, 1, 0x178); (0x101, 0x12F, 2, 0x100);
   (0x131, 0x131, 1, 0x49); (0x133, 0x137, 2, 0x132);
   (0x13A, 0x148, 2, 0x139); (0x14B, 0x177, 2, 0x14A);
   (0x17A, 0x17E, 2, 0x179); (0x17F, 0x17F, 1, 0x53);
   (0x180, 0x180, 1, 0x243); (0x183, 0x185, 2, 0x182);
   (0x188, 0x188, 1, 0x187); (0x18C, 0x18C, 1, 0x18B);
   (0x192, 0x192, 1, 0x191); (0x195, 0x195, 1, 0x1F6);
   (0x199, 0x199, 1, 0x198); (0x19A, 0x19A, 1, 0x23D);
   (0x19E, 0x19E, 1, 0x220); (0x1A1, 0x1A5, 2, 0x1A0);
   (0x1A8, 0x1A8, 1, 0x1A7); (0x1AD, 0x1AD, 1, 0x1AC);
   (0x1B0, 0x1B0, 1, 0x1AF); (0x1B4, 0x1B6, 2, 0x1B3);
   (0x1B9, 0x1B9, 1, 0x1B8); (0x1BD, 0x1BD, 1, 0x1BC);
   (0x1BF, 0x1BF, 1, 0x1F7); (0x1C5, 0x1C5, 1, 0x1C4);
   (0x1C6, 0x1C6, 1, 0x1C4); (0x1C8, 0x1C8, 1, 0x1C7);
   (0x1C9, 0x1C9, 1, 0x1C7); (0x1CB, 0x1CB, 1, 0x1CA);
   (0x1CC, 0x1CC, 1, 0x1CA); (0x1CE, 0x1DC, 2, 0x1CD);
   (0x1DD, 0x1DD, 1, 0x18E); (0x1DF, 0x1EF, 2, 0x1DE);
   (0x1F2, 0x1F2, 1, 0x1F1); (0x1F3, 0x1F3, 1, 0x1F1);
   (0x1F5, 0x1F5, 1, 0x1F4); (0x1F9, 0x21F, 2, 0x1F8);
   (0x223, 0x233, 2, 0x222); (0x23C, 0x23C, 1, 0x23B);
   (0x23F, 0x240, 1, 0x2C7E); (0x242, 0x242, 1, 0x241);
   (0x247, 0x24F, 2, 0x246); (0x250, 0x250, 1, 0x2C6F);
   (0x251, 0x251, 1, 0x2C6D); (0x252, 0x252, 1, 0x2C70);
   (0x253, 0x253, 1, 0x181); (0x254, 0x254, 1, 0x186);
   (0x256, 0x257, 1, 0x189); (0x259, 0x259, 1, 0x18F);
   (0x25B, 0x25B, 1, 0x190); (0x25C, 0x25C, 1, 0xA7AB);
   (0x260, 0x260, 1, 0x193); (0x261, 0x261, 1, 0xA7AC);
   (0x263, 0x263, 1, 0x194); (0x265, 0x265, 1, 0xA78D);
   (0x266, 0x266, 1, 0xA7AA); (0x268, 0x268, 1, 0x197);
   (0x269, 0x269, 1, 0x196); (0x26A, 0x26A, 1, 0xA7AE);
   (0x26B, 0x26B, 1, 0x2C62); (0x26C, 0x26C, 1, 0xA7AD);
   (0x26F, 0x26F, 1, 0x19C); (0x271, 0x271, 1, 0x2C6E);
   (0x272, 0x272, 1, 0x19D); (0x275, 0x275, 1, 0x19F);
   (0x27D, 0x27D, 1, 0x2C64); (0x280, 0x280, 1, 0x1A6);
   (0x282, 0x282, 1, 0xA7C5); (0x283, 0x283, 1, 0x1A9);
   (0x287, 0x287, 1, 0xA7B1); (0x288, 0x288, 1, 0x1AE);
   (0x289, 0x289, 1, 0x244); (0x28A, 0x28B, 1, 0x1B1);
   (0x28C, 0x28C, 1, 0x245); (0x292, 0x292, 1, 0x1B7);
   (0x29D, 0x29D, 1, 0xA7B2); (0x29E, 0x29E, 1, 0xA7B0);
   (0x345, 0x345, 1, 0x399); (0x371, 0x373, 2, 0x370);
   (0x377, 0x377, 1, 0x376); (0x37B, 0x37D, 1, 0x3FD);
   (0x3AC, 0x3AC, 1, 0x386); (0x3AD, 0x3AF, 1, 0x388);
   (0x3B1, 0x3C1, 1, 0x391); (0x3C2, 0x3C2, 1, 0x3A3);
   (0x3C3, 0x3CB, 1, 0x3A3); (0x3CC, 0x3CC, 1, 0x38C);
   (0x3CD, 0x3CE, 1, 0x38E); (0x3D0, 0x3D0, 1, 0x392);
   (0x3D1, 0x3D1, 1, 0x398); (0x3D5, 0x3D5, 1, 0x3A6);
   (0x3D6, 0x3D6, 1, 0x3A0); (0x3D7, 0x3D7, 1, 0x3CF);
   (0x3D9, 0x3EF, 2, 0x3D8); (0x3F0, 0x3F0, 1, 0x39A);
   (0x3F1, 0x3F1, 1, 0x3A1); (0x3F2, 0x3F2, 1, 0x3F9);
   (0x3F3, 0x3F3, 1, 0x37F); (0x3F5, 0x3F5, 1, 0x395);
   (0x3F8, 0x3F8, 1, 0x3F7); (0x3FB, 0x3FB, 1, 0x3FA);
   (0x430, 0x44F, 1, 0x410); (0x450, 0x45F, 1, 0x400);
   (0x461, 0x481, 2, 0x460); (0x48B, 0x4BF, 2, 0x48A);
   (0x4C2, 0x4CE, 2, 0x4C1); (0x4CF, 0x4CF, 1, 0x4C0);
   (0x4D1, 0x52F, 2, 0x4D0); (0x561, 0x586, 1, 0x531);
   (0x10D0, 0x10FA, 1, 0x1C90); (0x10FD, 0x10FF, 1, 0x1CBD);
   (0x13F8, 0x13FD, 1, 0x13F0); (0x1C80, 0x1C80, 1, 0x412);
   (0x1C81, 0x1C81, 1, 0x414); (0x1C82, 0x1C82, 1, 0x41E);
   (0x1C83, 0x1C84, 1, 0x421); (0x1C85, 0x1C85, 1, 0x422);
   (0x1C86, 0x1C86, 1, 0x42A); (0x1C87, 0x1C87, 1, 0x462);
   (0x1C88, 0x1C88, 1, 0xA64A); (0x1D79, 0x1D79, 1, 0xA77D);
   (0x1D7D, 0x1D7D, 1, 0x2C63); (0x1D8E, 0x1D8E, 1, 0xA7C6);
   (0x1E01, 0x1E95, 2, 0x1E00); (0x1E9B, 0x1E9B, 1, 0x1E60);
   (0x1EA1, 0x1EFF, 2, 0x1EA0); (0x1F00, 0x1F07, 1, 0x1F08);
   (0x1F10, 0x1F15, 1, 0x1F18); (0x1F20, 0x1F27, 1, 0x1F28);
   (0x1F30, 0x1F37, 1, 0x1F38); (0x1F40, 0x1F45, 1, 0x1F48);
   (0x1F51, 0x1F57, 2, 0x1F59); (0x1F60, 0x1F67, 1, 0x1F68);
   (0x1F70, 0x1F71, 1, 0x1FBA); (0x1F72, 0x1F75, 1, 0x1FC8);
   (0x1F76, 0x1F77, 1, 0x1FDA); (0x1F78, 0x1F79, 1, 0x1FF8);
   (0x1F7A, 0x1F7B, 1, 0x1FEA); (0x1F7C, 0x1F7D, 1, 0x1FFA);
   (0x1FB0, 0x1FB1, 1, 0x1FB8); (0x1FBE, 0x1FBE, 1, 0x399);
   (0x1FD0, 0x1FD1, 1, 0x1FD8); (0x1FE0, 0x1FE1, 1, 0x1FE8);
   (0x1FE5, 0x1FE5, 1, 0x1FEC); (0x214E, 0x214E, 1, 0x2132);
   (0x2170, 0x217F, 1, 0x2160); (0x2184, 0x2184, 1, 0x2183);
   (0x24D0, 0x24E9, 1, 0x24B6); (0x2C30, 0x2C5F, 1, 0x2C00);
   (0x2C61, 0x2C61, 1, 0x2C60); (0x2C65, 0x2C65, 1, 0x23A);
   (0x2C66, 0x2C66, 1, 0x23E); (0x2C68, 0x2C6C, 2, 0x2C67);
   (0x2C73, 0x2C73, 1, 0x2C72); (0x2C76, 0x2C76, 1, 0x2C75);
   (0x2C81, 0x2CE3, 2, 0x2C80); (0x2CEC, 0x2CEE, 2, 0x2CEB);
   (0x2CF3, 0x2CF3, 1, 0x2CF2); (0x2D00, 0x2D25, 1, 0x10A0);
   (0x2D27, 0x2D27, 1, 0x10C7); (0x2D2D, 0x2D2D, 1, 0x10CD);
   (0xA641, 0xA66D, 2, 0xA640); (0xA681, 0xA69B, 2, 0xA680);
   (0xA723, 0xA72F, 2, 0xA722); (0xA733, 0xA76F, 2, 0xA732);
   (0xA77A, 0xA77C, 2, 0xA779); (0xA77F, 0xA787, 2, 0xA77E);
   (0xA78C, 0xA78C, 1, 0xA78B); (0xA791, 0xA793, 2, 0xA790);
   (0xA794, 0xA794, 1, 0xA7C4); (0xA797, 0xA7A9, 2, 0xA796);
   (0xA7B5, 0xA7C3, 2, 0xA7B4); (0xA7C8, 0xA7CA, 2, 0xA7C7);
   (0xA7D1, 0xA7D1, 1, 0xA7D0); (0xA7D7, 0xA7D9, 2, 0xA7D6);
   (0xA7F6, 0xA7F6, 1, 0xA7F5); (0xAB53, 0xAB53, 1, 0xA7B3);
   (0xAB70, 0xABBF, 1, 0x13A0); (0xFF41, 0xFF5A, 1, 0xFF21);
   (0x10428, 0x1044F, 1, 0x10400); (0x104D8, 0x104FB, 1, 0x104B0);
   (0x10597, 0x105BB, 2, 0x10570); (0x10598, 0x105A0, 2, 0x10571);
   (0x105A4, 0x105B0, 2, 0x1057D); (0x105B4, 0x105B8, 2, 0x1058D);
   (0x105BC, 0x105BC, 1, 0x10595); (0x10CC0, 0x10CF2, 1, 0x10C80);
   (0x118C0, 0x118DF, 1, 0x118A0); (0x16E60, 0x16E7F, 1, 0x16E40);
   (0x1E922, 0x1E943, 1, 0x1E900)
  ]%N.

Definition specialUpperCase : list (N * list N) :=
  [
   (0xDF, [0x53; 0x53]); (0x149, [0x2BC; 0x4E]); (0x1F0, [0x4A; 0x30C]);
   (0x390, [0x399; 0x308; 0x301]); (0x3B0, [0x3A5; 0x308; 0x301]);
   (0x587, [0x535; 0x552]); (0x1E96, [0x48; 0x331]); (0x1E97, [0x54; 0x308]);
   (0x1E98, [0x57; 0x30A]); (0x1E99, [0x59; 0x30A]); (0x1E9A, [0x41; 0x2BE]);
   (0x1F50, [0x3A5; 0x313]); (0x1F52, [0x3A5; 0x313; 0x300]);
   (0x1F54, [0x3A5; 0x313; 0x301]); (0x1F56, [0x3A5; 0x313; 0x342]);
   (0x1F80, [0x1F08; 0x399]); (0x1F81, [0x1F09; 0x399]);
   (0x1F82, [0x1F0A; 0x399]); (0x1F83, [0x1F0B; 0x399]);
   (0x1F84, [0x1F0C; 0x399]); (0x1F85, [0x1F0D; 0x399]);
   (0x1F86, [0x1F0E; 0x399]); (0x1F87, [0x1F0F; 0x399]);
   (0x1F88, [0x1F08; 0x399]); (0x1F89, [0x1F09; 0x399]);
   (0x1F8A, [0x1F0A; 0x399]); (0x1F8B, [0x1F0B; 0x399]);
   (0x1F8C, [0x1F0C; 0x399]); (0x1F8D, [0x1F0D; 0x399]);
   (0x1F8E, [0x1F0E; 0x399]); (0x1F8F, [0x1F0F; 0x399]);
   (0x1F90, [0x1F28; 0x399]); (0x1F91, [0x1F29; 0x399]);
   (0x1F92, [0x1F2A; 0x399]); (0x1F93, [0x1F2B; 0x399]);
   (0x1F94, [0x1F2C; 0x399]); (0x1F95, [0x1F2D; 0x399]);
   (0x1F96, [0x1F2E; 0x399]); (0x1F97, [0x1F2F; 0x399]);
   (0x1F98, [0x1F28; 0x399]); (0x1F99, [0x1F29; 0x399]);
   (0x1F9A, [0x1F2A; 0x399]); (0x1F9B, [0x1F2B; 0x399]);
   (0x1F9C, [0x1F2C; 0x399]); (0x1F9D, [0x1F2D; 0x399]);
   (0x1F9E, [0x1F2E; 0x399]); (0x1F9F, [0x1F2F; 0x399]);
   (0x1FA0, [0x1F68; 0x399]); (0x1FA1, [0x1F69; 0x399]);
   (0x1FA2, [0x1F6A; 0x399]); (0x1FA3, [0x1F6B; 0x399]);
   (0x1FA4, [0x1F6C; 0x399]); (0x1FA5, [0x1F6D; 0x399]);
   (0x1FA6, [0x1F6E; 0x399]); (0x1FA7, [0x1F6F; 0x399]);
   (0x1FA8, [0x1F68; 0x399]); (0x1FA9, [0x1F69; 0x399]);
   (0x1FAA, [0x1F6A; 0x399]); (0x1FAB, [0x1F6B; 0x399]);
   (0x1FAC, [0x1F6C; 0x399]); (0x1FAD, [0x1F6D; 0x399]);
   (0x1FAE, [0x1F6E; 0x399]); (0x1FAF, [0x1F6F; 0x399]);
   (0x1FB2, [0x1FBA; 0x399]); (0x1FB3, [0x391; 0x399]);
   (0x1FB4, [0x386; 0x399]); (0x1FB6, [0x391; 0x342]);
   (0x1FB7, [0x391; 0x342; 0x399]); (0x1FBC, [0x391; 0x399]);
   (0x1FC2, [0x1FCA; 0x399]); (0x1FC3, [0x397; 0x399]);
   (0x1FC4, [0x389; 0x399]); (0x1FC6, [0x397; 0x342]);
   (0x1FC7, [0x397; 0x342; 0x399]); (0x1FCC, [0x397; 0x399]);
   (0x1FD2, [0x399; 0x308; 0x300]); (0x1FD3, [0x399; 0x308; 0x301]);
   (0x1FD6, [0x399; 0x342]); (0x1FD7, [0x399; 0x308; 0x342]);
   (0x1FE2, [0x3A5; 0x308; 0x300]); (0x1FE3, [0x3A5; 0x308; 0x301]);
   (0x1FE4, [0x3A1; 0x313]); (0x1FE6, [0x3A5; 0x342]);
   (0x1FE7, [0x3A5; 0x308; 0x342]); (0x1FF2, [0x1FFA; 0x399]);
   (0x1FF3, [0x3A9; 0x399]); (0x1FF4, [0x38F; 0x399]);
   (0x1FF6, [0x3A9; 0x342]); (0x1FF7, [0x3A9; 0x342; 0x399]);
   (0x1FFC, [0x3A9; 0x399]); (0xFB00, [0x46; 0x46]); (0xFB01, [0x46; 0x49]);
   (0xFB02, [0x46; 0x4C]); (0xFB03, [0x46; 0x46; 0x49]);
   (0xFB04, [0x46; 0x46; 0x4C]); (0xFB05, [0x53; 0x54]);
   (0xFB06, [0x53; 0x54]); (0xFB13, [0x544; 0x546]);
   (0xFB14, [0x544; 0x535]); (0xFB15, [0x544; 0x53B]);
   (0xFB16, [0x54E; 0x546]); (0xFB17, [0x544; 0x53D])
  ]%N.

(** [count] code points from [first] on, [step] apart. *)
Fixpoint codePointsFrom (first step : N) (count : nat) : list N :=
  match count with
  | 0 => []
  | S count' => first :: codePointsFrom (first + step) step count'
  end.

(** The characters that have an upper case of their own, each with it. *)
Definition upperCaseTable : list (string * string) :=
  Eval vm_compute in
    flat_map
      (fun '(first, last, step, image) =>
         (fun cp => (fromCodePoint cp, fromCodePoint (image + (cp - first))%N))
           <$> codePointsFrom first step (S (N.to_nat ((last - first) / step))))
      simpleUpperCase
    ++ ((fun '(cp, image) =>
           (fromCodePoint cp, fromChars (fromCodePoint <$> image)))
          <$> specialUpperCase).

(** The upper case of one character. *)
Definition upperChar (char : string) : string :=
  match List.find (fun entry => String.eqb entry.1 char) upperCaseTable with
  | Some entry => entry.2
  | None => char
  end.

(** [s.toUpperCase()] *)
Definition toUpperCase (s : string) : string :=
  fromChars (upperChar <$> chars s).

(** *** Trimming *)

(** The characters but for the white space before the first other one. *)
Fixpoint trimStartChars (l : list string) : list string :=
  match l with
  | [] => []
  | char :: l' => if isWhiteSpace char then trimStartChars l' else l
  end.

(** The characters but for the white space after the last other one. *)
Fixpoint trimEndChars (l : list string) : list string :=
  match l with
  | [] => []
  | char :: l' =>
      match trimEndChars l' with
      | [] => if isWhiteSpace char then [] else [char]
      | t => char :: t
      end
  end.

(** [s.trim()] *)
Definition trim (s : string) : string :=
  fromChars (trimEndChars (trimStartChars (chars s))).

(** Membership of a character in a character class given as a string. *)
Fixpoint charIn (c : ascii) (cls : string) : bool :=
  match cls with
  | EmptyString => false
  | String d cls' => Ascii.eqb c d || charIn c cls'
  end.

(** A byte of a white-space character. *)
Definition isWhiteSpaceByte (c : ascii) : bool :=
  existsb (fun char => charIn c char) whiteSpaces.

(** *** Replacing *)

(** The bytes of [s], each replaced by its image. *)
Fixpoint mapChars (f : ascii -> ascii) (s : string) : string :=
  match s with
  | EmptyString => EmptyString
  | String c s' => String (f c) (mapChars f s')
  end.

(** [s.replace(/[cls]/g, r)] for a class and a one-character replacement
    [r] below 128: such a character is one byte, which is part of no other
    character. *)
Definition replaceClass (cls : string) (r : ascii) : string -> string :=
  mapChars (fun c => if charIn c cls then r else c).

(** Some character of [s] belongs to the class, of characters below 128. *)
Fixpoint containsAny (cls : string) (s : string) : bool :=
  match s with
  | EmptyString => false
  | String c s' => charIn c cls || containsAny cls s'
  end.

(** Only white space. *)
Definition isBlank (s : string) : bool := forallb isWhiteSpace (chars s).

(** Equality of two strings up to the case of their letters: their upper
    case forms are equal. *)
Definition equalsIgnoreCase (a b : string) : bool :=
  String.eqb (toUpperCase a) (toUpperCase b).

(** [s.endsWith(searchString)]: the last characters of [s], as many as
    [searchString] has, are compared with it; a longer [searchString] never
    matches. *)
Definition endsWith (s searchString : string) : bool :=
  let searchLength := String.length searchString in
  let start := (String.length s - searchLength)%nat in
  (searchLength <=? String.length s)%nat
  && String.eqb (substring start searchLength s) searchString.

End JSString.

(** ** JavaScript values read from a row *)

Inductive value : Type :=
| VUndefined
| VString (s : string).

(** ToBoolean: [undefined] and the empty string are falsy. *)
Definition truthy (v : value) : bool :=
  match v with
  | VUndefined => false
  | VString s => negb (String.eqb s "")
  end.

(** [a || b] *)
Definition js_or (a b : value) : value := if truthy a then a else b.

(** [String(v)] *)
Definition String_ (v : value) : string :=
  match v with
  | VUndefined => "undefined"
  | VString s => s
  end.

(** ** Ordinary JavaScript objects *)

Module JSObject.

(** The own enumerable string-keyed data properties of an object, in the
    order in which they were created. *)
Abbreviation t V := (list (string * V)) (only parsing).

Definition digitOf (c : ascii) : option N :=
  let n := N_of_ascii c in
  if ((48 <=? n) && (n <=? 57))%N then Some (n - 48)%N else None.

Fixpoint digitsValue (s : string) (acc : N) : option N :=
  match s with
  | EmptyString => Some acc
  | String c s' =>
      match digitOf c with
      | Some d => digitsValue s' (10 * acc + d)%N
      | None => None
      end
  end.

(** A property key is an array index when it is the canonical decimal
    numeral of an integer in [0, 2^32 - 2]. *)
Definition arrayIndex (k : string) : option N :=
  match k with
  | EmptyString => None
  | String c rest =>
      if Ascii.eqb c "0" && negb (String.eqb rest "") then None
      else match digitsValue k 0 with
           | Some n => if (n <? 4294967295)%N then Some n else None
           | None => None
           end
  end.

Definition isArrayIndex (k : string) : bool :=
  match arrayIndex k with Some _ => true | None => false end.

(** The properties every object literal inherits from [Object.prototype]. *)
Definition prototypeKeys : list string :=
  [ "constructor"; "__defineGetter__"; "__defineSetter__"; "hasOwnProperty";
    "__lookupGetter__"; "__lookupSetter__"; "isPrototypeOf";
    "propertyIsEnumerable"; "toString"; "valueOf"; "__proto__";
    "toLocaleString" ].

Definition isPrototypeKey (k : string) : bool :=
  existsb (String.eqb k) prototypeKeys.

(** The result of the property read [o[k]]. *)
Inductive lookup (V : Type) : Type :=
| Own (v : V)        (* an own data property *)
| Inherited          (* a member of Object.prototype: truthy, not an array *)
| Absent.            (* undefined *)
Arguments Own {V} v.
Arguments Inherited {V}.
Arguments Absent {V}.

Section operations.
Context {V : Type}.

Definition empty : t V := [].

Fixpoint getOwn (o : t V) (k : string) : option V :=
  match o with
  | [] => None
  | (k', v) :: o' => if String.eqb k' k then Some v else getOwn o' k
  end.

(** [o[k]] as an expression *)
Definition get (o : t V) (k : string) : lookup V :=
  match getOwn o k with
  | Some v => Own v
  | None => if isPrototypeKey k then Inherited else Absent
  end.

(** [o.hasOwnProperty(k)], the method being that of [Object.prototype]. *)
Definition hasOwnProperty (o : t V) (k : string) : bool :=
  match getOwn o k with Some _ => true | None => false end.

(** [o[k] = v] on an object whose chain holds no setter for [k]: an
    existing property keeps its place, a new one is created last. *)
Fixpoint set (o : t V) (k : string) (v : V) : t V :=
  match o with
  | [] => [(k, v)]
  | (k', v') :: o' =>
      if String.eqb k' k then (k', v) :: o' else (k', v') :: set o' k v
  end.

(** [delete o[k]] *)
Definition delete (o : t V) (k : string) : t V :=
  filter (fun kv => negb (String.eqb kv.1 k)) o.

Definition indexOf (kv : string * V) : N :=
  match arrayIndex kv.1 with Some n => n | None => 0%N end.

Definition isIndexed (kv : string * V) : bool := isArrayIndex kv.1.

(** The order in which array-index properties are enumerated. *)
Definition indexLe (x y : string * V) : Prop := (indexOf x <= indexOf y)%N.

Fixpoint insertIndexed (x : string * V) (l : list (string * V)) :=
  match l with
  | [] => [x]
  | y :: l' =>
      if (indexOf x <=? indexOf y)%N then x :: l else y :: insertIndexed x l'
  end.

Definition sortIndexed (l : list (string * V)) : list (string * V) :=
  foldr insertIndexed [] l.

(** OrdinaryOwnPropertyKeys, with the values: [Object.entries(o)]. *)
Definition entries (o : t V) : list (string * V) :=
  sortIndexed (filter (fun kv => isIndexed kv) o)
    ++ filter (fun kv => negb (isIndexed kv)) o.

(** [Object.keys(o)] *)
Definition keys (o : t V) : list string := (entries o).*1.

(** [{ ...o }]: CopyDataProperties into a fresh object. *)
Definition spread (o : t V) : t V :=
  foldl (fun acc kv => set acc kv.1 kv.2) empty (entries o).

End operations.

End JSObject.

(** ** Rows and the status filter *)

(** A row of [XLSX.utils.sheet_to_json(worksheet, {raw: false, defval: ''})]:
    an object from column names to formatted cell text. *)
Abbreviation Row := (JSObject.t string) (only parsing).

(** [row.name] *)
Definition prop (row : Row) (name : string) : value :=
  match JSObject.getOwn row name with
  | Some s => VString s
  | None => VUndefined
  end.

(** The callback of [jsonData.filter]:
    [String(row.FinalStatus || '').toUpperCase().trim() === 'DELIVERED'] *)
Definition isDelivered (row : Row) : bool :=
  String.eqb
    (JSString.trim
       (JSString.toUpperCase (String_ (js_or (prop row "FinalStatus") (VString "")))))
    "DELIVERED".

(** [jsonData.filter(...)] *)
Definition deliveredData (jsonData : list Row) : list Row :=
  filter (fun row => isDelivered row) jsonData.

(** The status cell as the specification reads it: the text of the
    FinalStatus column, the empty string when the row has no such cell. *)
Definition statusCell (row : Row) : string :=
  match JSObject.getOwn row "FinalStatus" with
  | Some s => s
  | None => ""
  end.

(** ** Exceptions and the run-time trace *)

Inductive exn : Type :=
| TypeError (message : string)
| LibraryError (message : string).

Inductive result (A : Type) : Type :=
| Ok (a : A)
| Raise (e : exn).
Arguments Ok {A} a.
Arguments Raise {A} e.

(** ** Grouping by FleeName *)

(** The dictionary [groupedData : Record<string, any[]>]. *)
Abbreviation Groups := (JSObject.t (list Row)) (only parsing).

(** [String(row.FleeName || 'undefined').trim()] *)
Definition fleeNameOf (row : Row) : string :=
  JSString.trim (String_ (js_or (prop row "FleeName") (VString "undefined"))).

(** One iteration of [deliveredData.forEach]:
    [if (!groupedData[fleeName]) groupedData[fleeName] = [];
     groupedData[fleeName].push(row);]
    Arrays and inherited members are truthy; calling [push] on an inherited
    member (a function or [Object.prototype]) throws. *)
Definition groupStep (groupedData : Groups) (row : Row) : result Groups :=
  let fleeName := fleeNameOf row in
  let groupedData :=
    match JSObject.get groupedData fleeName with
    | JSObject.Absent => JSObject.set groupedData fleeName []
    | JSObject.Own _ | JSObject.Inherited => groupedData
    end in
  match JSObject.get groupedData fleeName with
  | JSObject.Own data => Ok (JSObject.set groupedData fleeName (data ++ [row]))
  | JSObject.Inherited =>
      Raise (TypeError "groupedData[fleeName].push is not a function")
  | JSObject.Absent =>
      Raise (TypeError "Cannot read properties of undefined (reading 'push')")
  end.

Fixpoint groupFrom (groupedData : Groups) (rows : list Row) : result Groups :=
  match rows with
  | [] => Ok groupedData
  | row :: rows' =>
      match groupStep groupedData row with
      | Ok groupedData' => groupFrom groupedData' rows'
      | Raise e => Raise e
      end
  end.

(** [const groupedData = {}; deliveredData.forEach(...)] *)
Definition groupByFleeName (deliveredData : list Row) : result Groups :=
  groupFrom JSObject.empty deliveredData.

(** ** Projection, workbooks and the archive *)

(** [const newRow = { ...row }; delete newRow['sync time'];
     delete newRow['planDeliveryDate']; return newRow;] *)
Definition removeColumns (row : Row) : Row :=
  let newRow := JSObject.spread row in
  let newRow := JSObject.delete newRow "sync time" in
  JSObject.delete newRow "planDeliveryDate".

(** The two excluded columns. *)
Definition isExcluded (kv : string * string) : bool :=
  String.eqb kv.1 "sync time" || String.eqb kv.1 "planDeliveryDate".

(** The workbook handed to [XLSX.write]: one sheet named as the source
    sheet, the rows given to [json_to_sheet], the ['!cols'] widths. *)
Record Workbook : Type := mkWorkbook {
  wbSheetName : string;
  wbRows : list Row;
  wbCols : list nat
}.

(** The files of the [JSZip] instance, keyed by entry name. *)
Abbreviation Zip := (JSObject.t Workbook) (only parsing).

(** The character class of the sanitising regular expression: the nine
    characters < > : double-quote / backslash | ? and the asterisk. *)
Definition illegalChars : string :=
  String "<" (String ">" (String ":" (String (ascii_of_N 34)
    (String "/" (String (ascii_of_N 92) (String "|" (String "?" (String "*"
      EmptyString)))))))).

(** [fleeName.replace(/[...]/g, '_').trim()] with that class. *)
Definition cleanName (fleeName : string) : string :=
  JSString.trim (JSString.replaceClass illegalChars "_" fleeName).

(** [`${cleanFleeName}.xlsx`] *)
Definition entryName (fleeName : string) : string :=
  cleanName fleeName ++ ".xlsx".

(** [Object.keys(filteredData[0]).map(() => ({ wch: 15 }))];
    [Object.keys(undefined)] throws. *)
Definition colWidths (filteredData : list Row) : result (list nat) :=
  match filteredData with
  | [] => Raise (TypeError "Cannot convert undefined or null to object")
  | first :: _ => Ok ((fun _ => 15) <$> JSObject.keys first)
  end.

(** ** Progress, status and statistics *)

Inductive StatusType : Type := idle | processing | success | error.

(** The texts given to [setStatus]. *)
Inductive message : Type :=
| ReadingFile
| ExcelFileIsEmpty
| ColumnFleeNameNotFound
| NoDeliveredRecords
| GroupingData
| GeneratingFiles (fileCount : nat)
| PackagingFiles
| SuccessGenerated (fileCount : nat)
| ProcessingFailed (e : exn).

(** The texts given to [setProgress]: [`${n}%`] and ['']. *)
Inductive ProgressText : Type :=
| Percent (n : Z)
| NoProgress.

Record FileStats : Type := mkFileStats {
  totalRows : nat;
  uniqueFiles : nat;
  fileNames : list string
}.

Inductive event : Type :=
| SetStatus (m : message)
| SetStatusType (t : StatusType)
| SetProgress (p : ProgressText)
| SetStats (s : FileStats)
| Download (fileName : string) (archive : Zip)
| ClearProgressAfter (milliseconds : nat).

(** ** Commands: a trace of events and a completion *)

Inductive completion (A : Type) : Type :=
| Normal (a : A)
| Return                (* [return;] out of [processExcel] *)
| Throw (e : exn).
Arguments Normal {A} a.
Arguments Return {A}.
Arguments Throw {A} e.

Definition M (A : Type) : Type := list event * completion A.

Definition ret {A} (a : A) : M A := ([], Normal a).

Definition bind {A B} (m : M A) (f : A -> M B) : M B :=
  match m with
  | (t, Normal a) => let '(t', c) := f a in (t ++ t', c)
  | (t, Return) => (t, Return)
  | (t, Throw e) => (t, Throw e)
  end.

Definition emit (e : event) : M unit := ([e], Normal tt).

Definition exit {A} : M A := ([], Return).

Definition lift {A} (r : result A) : M A :=
  match r with
  | Ok a => ([], Normal a)
  | Raise e => ([], Throw e)
  end.

(** [try { body } catch (error) { handler }] *)
Definition tryCatch {A} (body : M A) (handler : exn -> M A) : M A :=
  match body with
  | (t, Throw e) => let '(t', c) := handler e in (t ++ t', c)
  | done => done
  end.

#[global] Instance M_ret : MRet M := @ret.
#[global] Instance M_bind : MBind M := fun A B f m => bind m f.

(** ** Doubles *)

(** The integer nearest to [t], ties to the even one. *)
Definition roundHalfEven (t : Q) : Z :=
  let f := Qfloor t in
  match Qcompare (t - inject_Z f) (1 # 2) with
  | Lt => f
  | Eq => if Z.even f then f else (f + 1)%Z
  | Gt => (f + 1)%Z
  end.

(** The exponent [e] with [2^e <= x < 2^(e+1)], for positive [x]. *)
Definition binade (x : Q) : Z :=
  let e := (Z.log2 (Qnum x) - Z.log2 (Zpos (Qden x)))%Z in
  if Qle_bool (2 ^ e) x then e else (e - 1)%Z.

(** Rounding of a positive real to 53 significant bits. *)
Definition round53 (x : Q) : Q :=
  let ulp := (2 ^ (binade x - 52))%Q in
  (inject_Z (roundHalfEven (x / ulp)) * ulp)%Q.

(** The double nearest to a real number, ties to even: the result of an
    arithmetic operation on doubles is [binary64] of the exact result. The
    exponent is not bounded; the values met here, between 2^-32 and 100, are
    far from overflow and from the subnormal numbers. *)
Definition binary64 (x : Q) : Q :=
  match Qcompare x 0 with
  | Eq => 0%Q
  | Gt => round53 x
  | Lt => (- round53 (- x))%Q
  end.
#[global] Arguments binary64 : simpl never.

(** [Math.round(x)]: the integer nearest to [x], ties towards plus infinity. *)
Definition Math_round (x : Q) : Z := Qfloor (x + (1 # 2)).

(** [Object.keys(groupedData).slice(0, 10)] *)
Definition firstTen (names : list string) : list string := take 10 names.

(** ** The pipeline *)

Section Pipeline.

(** The libraries around the component: the uploaded file, the parsed
    workbook, and what SheetJS and JSZip may throw. *)
Context {payload workbook : Type}.

(** [XLSX.read(arrayBuffer, { type: 'array' })] *)
Variable XLSX_read : payload -> result workbook.
(** [workbook.SheetNames[0]] *)
Variable firstSheetName : workbook -> string.
(** [XLSX.utils.sheet_to_json(worksheet, {raw: false, defval: '', ...})] on
    the first sheet. *)
Variable sheet_to_json : workbook -> result (list Row).
(** [XLSX.utils.json_to_sheet], [XLSX.utils.book_append_sheet] and
    [XLSX.write] on the new workbook: they produce the file or throw. *)
Variable XLSX_write : Workbook -> result unit.
(** [zip.generateAsync(...)] either resolves or rejects. *)
Variable generateAsync : Zip -> result unit.
(** [Math.round(60 + (processedFiles / fileCount) * 30)], every arithmetic
    operation rounded to a double. The loop runs only when there is a group,
    so [fileCount] is positive. *)
Definition progressPercent (processedFiles fileCount : nat) : Z :=
  Math_round
    (binary64
       (60 + binary64
               (binary64 (inject_Z (Z.of_nat processedFiles)
                          / inject_Z (Z.of_nat fileCount)) * 30))).

(** The body of [for (const [fleeName, data] of Object.entries(groupedData))],
    threaded over the entries with [zip] and [processedFiles]. *)
Fixpoint exportGroups (sheetName : string) (fileCount : nat)
    (groups : list (string * list Row)) (zip : Zip) (processedFiles : nat)
    : M Zip :=
  match groups with
  | [] => mret zip
  | (fleeName, data) :: groups' =>
      let filteredData := removeColumns <$> data in
      cols ← lift (colWidths filteredData);
      let newWorkbook := mkWorkbook sheetName filteredData cols in
      lift (XLSX_write newWorkbook);;
      let zip := JSObject.set zip (entryName fleeName) newWorkbook in
      let processedFiles := S processedFiles in
      emit (SetProgress (Percent (progressPercent processedFiles fileCount)));;
      exportGroups sheetName fileCount groups' zip processedFiles
  end.

(** The [try] block of [processExcel]. *)
Definition processBody (file : payload) (hubName : string) : M unit :=
  wb ← lift (XLSX_read file);
  emit (SetProgress (Percent 25));;
  let sheetName := firstSheetName wb in
  jsonData ← lift (sheet_to_json wb);
  match jsonData with
  | [] =>
      emit (SetStatus ExcelFileIsEmpty);;
      emit (SetStatusType error);;
      emit (SetProgress NoProgress);;
      exit
  | firstRow :: _ =>
      emit (SetProgress (Percent 40));;
      if negb (JSObject.hasOwnProperty firstRow "FleeName") then
        emit (SetStatus ColumnFleeNameNotFound);;
        emit (SetStatusType error);;
        emit (SetProgress NoProgress);;
        exit
      else
        let deliveredData := deliveredData jsonData in
        if (length deliveredData =? 0)%nat then
          emit (SetStatus NoDeliveredRecords);;
          emit (SetStatusType error);;
          emit (SetProgress NoProgress);;
          exit
        else
          emit (SetStatus GroupingData);;
          emit (SetProgress (Percent 50));;
          groupedData ← lift (groupByFleeName deliveredData);
          let fileCount := length (JSObject.keys groupedData) in
          emit (SetStatus (GeneratingFiles fileCount));;
          emit (SetProgress (Percent 60));;
          zip ← exportGroups sheetName fileCount
                  (JSObject.entries groupedData) JSObject.empty 0;
          emit (SetStatus PackagingFiles);;
          emit (SetProgress (Percent 95));;
          lift (generateAsync zip);;
          emit (Download (hubName ++ ".zip") zip);;
          emit (SetStats {| totalRows := length deliveredData;
                            uniqueFiles := fileCount;
                            fileNames := firstTen (JSObject.keys groupedData) |});;
          emit (SetStatus (SuccessGenerated fileCount));;
          emit (SetStatusType success);;
          emit (SetProgress (Percent 100));;
          emit (ClearProgressAfter 3000)
  end.

(** The [catch] block. *)
Definition processCatch (e : exn) : M unit :=
  emit (SetStatus (ProcessingFailed e));;
  emit (SetStatusType error);;
  emit (SetProgress NoProgress).

(** [processExcel]: the events of one run, for the component state [file]
    and [hubName]. *)
Definition processExcel (file : option payload) (hubName : string) : list event :=
  match file with
  | None => []
  | Some file =>
      (emit (SetStatus ReadingFile);;
       emit (SetStatusType processing);;
       emit (SetProgress (Percent 10));;
       tryCatch (processBody file hubName) processCatch).1
  end.

End Pipeline.

#[global] Arguments progressPercent : simpl never.

(** ** Notions used to state the properties *)

(** The status predicate as the specification words it: the status cell,
    trimmed, equals DELIVERED up to letter case. *)
Definition statusIsDelivered (row : Row) : bool :=
  JSString.equalsIgnoreCase (JSString.trim (statusCell row)) "DELIVERED".

(** The characters that spell DELIVERED: for each of its letters the
    characters whose upper case is that letter - the letter itself, its lower
    case and, for I, the dotless i (U+0131). *)
Definition deliveredSpellings : list (list string) :=
  [["D"; "d"]; ["E"; "e"]; ["L"; "l"]; ["I"; "i"; JSString.fromCodePoint 0x131];
   ["V"; "v"]; ["E"; "e"]; ["R"; "r"]; ["E"; "e"]; ["D"; "d"]].

(** A text of nine characters, each a spelling of the letter at its
    place. *)
Definition spellsDelivered (s : string) : Prop :=
  Forall2 (fun char spellings => char ∈ spellings) (JSString.chars s)
    deliveredSpellings.

(** The distinct elements of a list, in the order of their first
    occurrence. *)
Fixpoint firstOccurrences (l : list string) : list string :=
  match l with
  | [] => []
  | x :: l' => x :: filter (fun y => y <> x) (firstOccurrences l')
  end.

(** The rows of a sequence that carry a given group key, in their order. *)
Definition rowsKeyed (k : string) (rows : list Row) : list Row :=
  filter (fun row => fleeNameOf row = k) rows.

(** The dictionary that holds, for each key in first-occurrence order, the
    rows carrying it. *)
Definition groupsInOrder (rows : list Row) : Groups :=
  (fun k => (k, rowsKeyed k rows)) <$> firstOccurrences (fleeNameOf <$> rows).

(** No row is keyed by a name that object literals inherit. *)
Definition keysAreOwnable (rows : list Row) : bool :=
  forallb (fun row => negb (JSObject.isPrototypeKey (fleeNameOf row))) rows.

(** The numeric value of an array-index key. *)
Definition indexValue (k : string) : N :=
  match JSObject.arrayIndex k with Some n => n | None => 0%N end.


(** ** The component state and what a run leaves in it *)

(** The state cells written by [processExcel]: [status] (the empty text is
    [None]), [statusType], [progress] and [stats] ([null] is [None]). *)
Record State : Type := mkState {
  status : option message;
  statusType : StatusType;
  progress : ProgressText;
  stats : option FileStats
}.

(** [useState('')], [useState('idle')], [useState('')], [useState(null)] *)
Definition initialState : State :=
  {| status := None; statusType := idle; progress := NoProgress; stats := None |}.

Definition update (st : State) (e : event) : State :=
  match e with
  | SetStatus m =>
      {| status := Some m; statusType := statusType st;
         progress := progress st; stats := stats st |}
  | SetStatusType t =>
      {| status := status st; statusType := t;
         progress := progress st; stats := stats st |}
  | SetProgress p =>
      {| status := status st; statusType := statusType st;
         progress := p; stats := stats st |}
  | SetStats s =>
      {| status := status st; statusType := statusType st;
         progress := progress st; stats := Some s |}
  | Download _ _ | ClearProgressAfter _ => st
  end.

(** The state after the events of a run. *)
Definition finalState (st : State) (t : list event) : State := foldl update st t.

(** The run ends in the error state with the given text. *)
Definition failsWith (t : list event) (m : message) : Prop :=
  forall st, statusType (finalState st t) = error
             /\ status (finalState st t) = Some m.

(** The run ends in the success state. *)
Definition succeeds (t : list event) : Prop :=
  forall st, statusType (finalState st t) = success.

(** The archives handed to the browser for download. *)
Definition downloads (t : list event) : list (string * Zip) :=
  omap (fun e => match e with Download n a => Some (n, a) | _ => None end) t.

(** The statistics published by the run. *)
Definition publishedStats (t : list event) : list FileStats :=
  omap (fun e => match e with SetStats s => Some s | _ => None end) t.

(** The percentages shown, in order of emission. *)
Definition percents (t : list event) : list Z :=
  omap (fun e => match e with SetProgress (Percent n) => Some n | _ => None end) t.

(** The number of times the run enters the error state. *)
Definition entersError (e : event) : bool :=
  match e with SetStatusType error => true | _ => false end.

Definition errorCount (t : list event) : nat :=
  length (filter (fun e => entersError e) t).

(** The events of the [catch] block. *)
Definition failureEvents (e : exn) : list event := (processCatch e).1.

(** The workbook written for a group. *)
Definition workbookOf (sheetName : string) (data : list Row) : Workbook :=
  let filteredData := removeColumns <$> data in
  mkWorkbook sheetName filteredData
    (match colWidths filteredData with Ok cols => cols | Raise _ => [] end).

(** The archive after a group has been added. *)
Definition addEntry (sheetName : string) (zip : Zip) (group : string * list Row) : Zip :=
  JSObject.set zip (entryName group.1) (workbookOf sheetName group.2).


(** The events that close a successful run. *)
Definition successEvents (hubName : string) (deliveredData : list Row)
    (groupedData : Groups) (zip : Zip) : list event :=
  [ Download (hubName ++ ".zip") zip;
    SetStats {| totalRows := length deliveredData;
                uniqueFiles := length (JSObject.keys groupedData);
                fileNames := firstTen (JSObject.keys groupedData) |};
    SetStatus (SuccessGenerated (length (JSObject.keys groupedData)));
    SetStatusType success;
    SetProgress (Percent 100);
    ClearProgressAfter 3000 ].


(** An event that neither ends a run nor publishes a result. *)
Definition quiet (e : event) : bool :=
  match e with
  | SetStatus _ | SetProgress _ | SetStatusType processing
  | SetStatusType idle | ClearProgressAfter _ => true
  | SetStatusType error | SetStatusType success | SetStats _ | Download _ _ => false
  end.

Section RunClassification.
Context {payload workbook : Type}.
Variable XLSX_read : payload -> result workbook.
Variable sheet_to_json : workbook -> result (list Row).

(** Why a run on a given file fails, and with which text. *)
Inductive failureCause (file : payload) : message -> Prop :=
| fail_read e :
    XLSX_read file = Raise e ->
    failureCause file (ProcessingFailed e)
| fail_sheet wb e :
    XLSX_read file = Ok wb -> sheet_to_json wb = Raise e ->
    failureCause file (ProcessingFailed e)
| fail_empty wb :
    XLSX_read file = Ok wb -> sheet_to_json wb = Ok [] ->
    failureCause file ExcelFileIsEmpty
| fail_column wb firstRow rest :
    XLSX_read file = Ok wb -> sheet_to_json wb = Ok (firstRow :: rest) ->
    JSObject.hasOwnProperty firstRow "FleeName" = false ->
    failureCause file ColumnFleeNameNotFound
| fail_filter wb firstRow rest :
    XLSX_read file = Ok wb -> sheet_to_json wb = Ok (firstRow :: rest) ->
    JSObject.hasOwnProperty firstRow "FleeName" = true ->
    deliveredData (firstRow :: rest) = [] ->
    failureCause file NoDeliveredRecords
| fail_later wb firstRow rest e :
    XLSX_read file = Ok wb -> sheet_to_json wb = Ok (firstRow :: rest) ->
    JSObject.hasOwnProperty firstRow "FleeName" = true ->
    deliveredData (firstRow :: rest) <> [] ->
    failureCause file (ProcessingFailed e).

End RunClassification.


(** What is assumed of the rounding of a real number to a double: it is
    monotone, and exact on the integers of magnitude at most 2^53. *)
Definition roundsToNearest (fl : Q -> Q) : Prop :=
  (forall x y : Q, x <= y -> fl x <= fl y)%Q
  /\ (forall z : Z, (Z.abs z <= 2 ^ 53)%Z -> (fl (inject_Z z) == inject_Z z)%Q).


(** ** Sample inputs *)

Definition sampleRow (fleeName finalStatus : string) : Row :=
  [ ("Tracking", "T-1"); ("FleeName", fleeName); ("FinalStatus", finalStatus);
    ("sync time", "09:30"); ("planDeliveryDate", "2024-05-01") ].

(** A platform in which the payload is the parsed sheet and no library
    throws. *)
Definition sampleRead (rows : list Row) : result (list Row) := Ok rows.
Definition sampleSheetName (_ : list Row) : string := "Sheet1".
Definition sampleWrite (_ : Workbook) : result unit := Ok tt.
Definition sampleGenerate (_ : Zip) : result unit := Ok tt.

Definition sampleRun (rows : list Row) : list event :=
  processExcel sampleRead sampleSheetName sampleRead sampleWrite sampleGenerate
    (Some rows) "HUB".

(** Two spellings of one courier, a second courier, and a row in transit. *)
Definition mixedSheet : list Row :=
  [ sampleRow "CourierX" "Delivered"; sampleRow "Other" "DELIVERED";
    sampleRow " CourierX " " delivered "; sampleRow "Late" "IN_TRANSIT" ].

(** A courier named by a number after one named by a word. *)
Definition numericSheet : list Row :=
  [ sampleRow "B" "DELIVERED"; sampleRow "1" "DELIVERED" ].

(** Two couriers whose names differ only in a character that is replaced. *)
Definition collidingSheet : list Row :=
  [ sampleRow "A/B" "DELIVERED"; sampleRow "A:B" "DELIVERED" ].

(** Eleven couriers. *)
Definition elevenSheet : list Row :=
  (fun name => sampleRow name "DELIVERED")
    <$> ["a"; "b"; "c"; "d"; "e"; "f"; "g"; "h"; "i"; "j"; "k"].

(** A sheet without the FleeName column, its only row in transit. *)
Definition noColumnSheet : list Row :=
  [ [("Tracking", "T-1"); ("FinalStatus", "IN_TRANSIT")] ].

(** Every row in transit. *)
Definition inTransitSheet : list Row :=
  [ sampleRow "CourierX" "IN_TRANSIT"; sampleRow "Other" "IN_TRANSIT" ].


(** ** The percentage with the reference operations on doubles *)

(** The double that holds a small integer. *)
Definition double_of_nat (n : nat) : spec_float :=
  binary_normalize 53 1024 (Z.of_nat n) 0 false.

(** The real number held by a finite double. *)
Definition Q_of_double (x : spec_float) : option Q :=
  match x with
  | S754_zero _ => Some 0%Q
  | S754_finite s m e =>
      let v := (inject_Z (Z.pos m) * 2 ^ e)%Q in
      Some (if s then (- v)%Q else v)
  | S754_infinity _ | S754_nan => None
  end.

(** [60 + (processedFiles / fileCount) * 30] with the binary64 division,
    multiplication and addition of the standard library's [SpecFloat]. *)
Definition progressDouble (processedFiles fileCount : nat) : spec_float :=
  SFadd 53 1024 (double_of_nat 60)
    (SFmul 53 1024
       (SFdiv 53 1024 (double_of_nat processedFiles) (double_of_nat fileCount))
       (double_of_nat 30)).

(** [progressPercent] is [Math.round] of that double, for every step of
    every run with at most [bound] groups. *)
Definition agreesWithSpecFloat (bound : nat) : bool :=
  forallb
    (fun fileCount =>
       forallb
         (fun processedFiles =>
            match Q_of_double (progressDouble processedFiles fileCount) with
            | Some q => Z.eqb (Math_round q) (progressPercent processedFiles fileCount)
            | None => false
            end)
         (seq 1 fileCount))
    (seq 1 bound).


(** ** Further sample inputs *)

(** A courier whose name is that of a method every object inherits. *)
Definition prototypeSheet : list Row :=
  [ sampleRow "CourierX" "DELIVERED"; sampleRow "constructor" "DELIVERED" ].

(** A platform whose writer rejects the workbook of the courier Other. *)
Definition rejectingWrite (w : Workbook) : result unit :=
  match wbRows w with
  | row :: _ =>
      if String.eqb (fleeNameOf row) "Other"
      then Raise (LibraryError "write failed") else Ok tt
  | [] => Ok tt
  end.

(** A platform whose archive cannot be generated. *)
Definition rejectingGenerate (_ : Zip) : result unit :=
  Raise (LibraryError "out of memory").

(** Cells with characters outside ASCII: a status between a NO-BREAK SPACE
    and an IDEOGRAPHIC SPACE; a status spelled with the dotless i, for a
    courier whose name stands between a ZERO WIDTH NO-BREAK SPACE and an EM
    SPACE; a status spelled with the dotted capital I (U+0130), which is its
    own upper case; and a status followed by a ZERO WIDTH SPACE (U+200B),
    which is not white space. *)
Definition paddedSheet : list Row :=
  [ sampleRow "CourierX"
      (JSString.fromCodePoint 0xA0 +:+ "Delivered" +:+ JSString.fromCodePoint 0x3000);
    sampleRow
      (JSString.fromCodePoint 0xFEFF +:+ "CourierX" +:+ JSString.fromCodePoint 0x2003)
      ("del" +:+ JSString.fromCodePoint 0x131 +:+ "vered");
    sampleRow "Other" ("DEL" +:+ JSString.fromCodePoint 0x130 +:+ "VERED");
    sampleRow "Other" ("delivered" +:+ JSString.fromCodePoint 0x200B) ].

(** ** Numbers and messages as text *)

(** [`${n}`] for a count. *)
Definition showNat (n : nat) : string := NilZero.string_of_uint (Nat.to_uint n).

(** [`${z}`] for an integer. *)
Definition showZ (z : Z) : string := NilZero.string_of_int (Z.to_int z).

(** [error instanceof Error ? error.message : 'Unknown error']: what the
    model throws is an Error object. *)
Definition errorMessage (e : exn) : string :=
  match e with
  | TypeError message => message
  | LibraryError message => message
  end.

(** The text of each status message. *)
Definition messageText (m : message) : string :=
  match m with
  | ReadingFile => "Reading file..."
  | ExcelFileIsEmpty => "Excel file is empty"
  | ColumnFleeNameNotFound =>
      "Column " ++ String (ascii_of_N 34) "FleeName" ++ String (ascii_of_N 34)
        " not found. Please ensure the Excel file contains this column"
  | NoDeliveredRecords => "No records with FinalStatus = DELIVERED found"
  | GroupingData => "Grouping data..."
  | GeneratingFiles fileCount => "Generating " ++ showNat fileCount ++ " files..."
  | PackagingFiles => "Packaging files..."
  | SuccessGenerated fileCount =>
      "Success! Generated " ++ showNat fileCount
        ++ " Excel files (DELIVERED only) and packaged as ZIP"
  | ProcessingFailed e => "Processing failed: " ++ errorMessage e
  end.

(** The text of the progress cell. *)
Definition progressText (p : ProgressText) : string :=
  match p with
  | Percent n => showZ n ++ "%"
  | NoProgress => ""
  end.

(** [(bytes / 1024).toFixed(2)]: the quotient is exact in a double, and
    [toFixed(2)] takes the integer n nearest to a hundred times it - the
    larger one of two - and writes n with a point before its last two
    digits. *)
Definition toFixed2_of_1024th (bytes : N) : string :=
  let n := ((200 * bytes + 1024) / 2048)%N in
  let cents := (n mod 100)%N in
  NilZero.string_of_uint (N.to_uint (n / 100)) ++ "."
    ++ NilZero.string_of_uint (N.to_uint (cents / 10))
    ++ NilZero.string_of_uint (N.to_uint (cents mod 10)).

(** ** The component [FileSplit]: state cells and handlers *)

Module FileSplit.

(** The seven [useState] cells. *)
Record Cells (File : Type) : Type := mkCells {
  file : option File;
  status : string;
  statusType : StatusType;
  isDragging : bool;
  stats : option FileStats;
  progress : string;
  hubName : string
}.
Arguments mkCells {File}.
Arguments file {File}.
Arguments status {File}.
Arguments statusType {File}.
Arguments isDragging {File}.
Arguments stats {File}.
Arguments progress {File}.
Arguments hubName {File}.

(** What a handler does: it finishes, or it opens the [prompt] dialog and
    goes on with the answer, [null] when the dialog is cancelled. *)
Inductive interaction (A : Type) : Type :=
| Finish (a : A)
| Prompt (text : string) (k : option string -> A).
Arguments Finish {A} a.
Arguments Prompt {A} text k.

(** The result of an interaction when the dialog, if any, is answered. *)
Definition answer {A} (i : interaction A) (hub : option string) : A :=
  match i with
  | Finish a => a
  | Prompt _ k => k hub
  end.

Section cells.
Context {File : Type}.

(** The state of a freshly mounted component. *)
Definition initial : Cells File :=
  {| file := None; status := ""; statusType := idle; isDragging := false;
     stats := None; progress := ""; hubName := "" |}.

Definition setFile (v : option File) (c : Cells File) : Cells File :=
  {| file := v; status := status c; statusType := statusType c;
     isDragging := isDragging c; stats := stats c; progress := progress c;
     hubName := hubName c |}.

Definition setStatus (v : string) (c : Cells File) : Cells File :=
  {| file := file c; status := v; statusType := statusType c;
     isDragging := isDragging c; stats := stats c; progress := progress c;
     hubName := hubName c |}.

Definition setStatusType (v : StatusType) (c : Cells File) : Cells File :=
  {| file := file c; status := status c; statusType := v;
     isDragging := isDragging c; stats := stats c; progress := progress c;
     hubName := hubName c |}.

Definition setIsDragging (v : bool) (c : Cells File) : Cells File :=
  {| file := file c; status := status c; statusType := statusType c;
     isDragging := v; stats := stats c; progress := progress c;
     hubName := hubName c |}.

Definition setStats (v : option FileStats) (c : Cells File) : Cells File :=
  {| file := file c; status := status c; statusType := statusType c;
     isDragging := isDragging c; stats := v; progress := progress c;
     hubName := hubName c |}.

Definition setProgress (v : string) (c : Cells File) : Cells File :=
  {| file := file c; status := status c; statusType := statusType c;
     isDragging := isDragging c; stats := stats c; progress := v;
     hubName := hubName c |}.

Definition setHubName (v : string) (c : Cells File) : Cells File :=
  {| file := file c; status := status c; statusType := statusType c;
     isDragging := isDragging c; stats := stats c; progress := progress c;
     hubName := v |}.

(** [file.name] *)
Variable name : File -> string.
(** [file.size], in bytes *)
Variable size : File -> N.

(** [handleDragOver] *)
Definition handleDragOver (c : Cells File) : Cells File := setIsDragging true c.

(** [handleDragLeave] *)
Definition handleDragLeave (c : Cells File) : Cells File := setIsDragging false c.

(** [handleDrop], for the files of [e.dataTransfer.files]. *)
Definition handleDrop (files : list File) (c : Cells File)
    : interaction (Cells File) :=
  let c := setIsDragging false c in
  match files with
  | [] => Finish c
  | droppedFile :: _ =>
      if JSString.endsWith (name droppedFile) ".xlsx"
         || JSString.endsWith (name droppedFile) ".xls"
      then
        Prompt "Please enter the Hub/Sub-hub:" (fun hub =>
          match hub with
          | Some hub =>
              if truthy (VString hub) && truthy (VString (JSString.trim hub))
              then
                let c := setHubName (JSString.trim hub) c in
                let c := setFile (Some droppedFile) c in
                let c := setStatus "" c in
                let c := setStatusType idle c in
                setStats None c
              else c
          | None => c
          end)
      else
        let c := setStatus "Please upload Excel file (.xlsx or .xls)" c in
        Finish (setStatusType error c)
  end.

(** [handleFileChange], for the files of [e.target.files] and the value of
    the input element; the result holds the value the handler leaves in the
    input element. *)
Definition handleFileChange (files : list File) (value : string) (c : Cells File)
    : interaction (Cells File * string) :=
  match files with
  | [] => Finish (c, value)
  | selectedFile :: _ =>
      Prompt "Please enter the Hub/Sub-hub:" (fun hub =>
        match hub with
        | Some hub =>
            if truthy (VString hub) && truthy (VString (JSString.trim hub))
            then
              let c := setHubName (JSString.trim hub) c in
              let c := setFile (Some selectedFile) c in
              let c := setStatus "" c in
              let c := setStatusType idle c in
              (setStats None c, value)
            else (c, "")
        | None => (c, "")
        end)
  end.

(** [resetFile] *)
Definition resetFile (c : Cells File) : Cells File :=
  let c := setFile None c in
  let c := setStatus "" c in
  let c := setStatusType idle c in
  let c := setStats None c in
  let c := setProgress "" c in
  setHubName "" c.

(** The effect of an event of [processExcel] on the cells. The download and
    the timer that clears the progress three seconds later write no cell
    during the run. *)
Definition applyEvent (c : Cells File) (e : event) : Cells File :=
  match e with
  | SetStatus m => setStatus (messageText m) c
  | SetStatusType t => setStatusType t c
  | SetProgress p => setProgress (progressText p) c
  | SetStats s => setStats (Some s) c
  | Download _ _ | ClearProgressAfter _ => c
  end.

(** *** What is rendered *)

(** The inside of the upload area. *)
Inductive UploadArea : Type :=
| DropHint                 (* Drag Excel file here / or click to select file *)
| Selected (fileName sizeKB : string) (hubInfo : option string).

(** The two buttons: both carry the same [disabled]. *)
Record Buttons : Type := mkButtons {
  disabled : bool;
  startLabel : string
}.

(** The preview of file names: the name shown on each bullet line, and the
    number of the line [... and N more files]. *)
Record FileList : Type := mkFileList {
  fileListItems : list string;
  fileListMore : option nat
}.

Record StatsPanel : Type := mkStatsPanel {
  statTotalRows : nat;
  statFilesGenerated : nat;
  fileList : option FileList
}.

(** The parts of the returned markup that depend on the cells. The fixed
    texts and the icons are not recorded; of the styles, only the choices
    made from the cells are: the highlight of the upload area while dragging
    and the style of the status box, chosen by the status type. *)
Record View : Type := mkView {
  uploadArea : UploadArea;
  dragHighlight : bool;
  clickOpensPicker : bool;
  actions : option Buttons;
  progressBar : option string;
  statusBox : option (string * StatusType);
  statsPanel : option StatsPanel
}.

(** [statusType === 'processing'] *)
Definition isProcessing (t : StatusType) : bool :=
  match t with processing => true | _ => false end.

(** The [return (...)] of the component. *)
Definition render (c : Cells File) : View :=
  {| uploadArea :=
       match file c with
       | None => DropHint
       | Some f =>
           Selected (name f) (toFixed2_of_1024th (size f))
             (if truthy (VString (hubName c)) then Some (hubName c) else None)
       end;
     dragHighlight := isDragging c;
     clickOpensPicker :=
       match file c with None => true | Some _ => false end;
     actions :=
       match file c with
       | None => None
       | Some _ =>
           Some {| disabled := isProcessing (statusType c);
                   startLabel := if isProcessing (statusType c)
                                 then "Processing..." else "Start Processing" |}
       end;
     progressBar :=
       if truthy (VString (progress c)) && isProcessing (statusType c)
       then Some (progress c) else None;
     statusBox :=
       if truthy (VString (status c)) then Some (status c, statusType c) else None;
     statsPanel :=
       match stats c with
       | None => None
       | Some stats =>
           Some {| statTotalRows := totalRows stats;
                   statFilesGenerated := uniqueFiles stats;
                   fileList :=
                     if (0 <? length (fileNames stats))%nat then
                       Some {| fileListItems :=
                                 (fun name : string => name +:+ ".xlsx") <$> fileNames stats;
                               fileListMore :=
                                 if (10 <? uniqueFiles stats)%nat
                                 then Some (uniqueFiles stats - 10)%nat else None |}
                     else None |}
       end |}.

End cells.

Section session.
Context {File workbook : Type}.
Variable name : File -> string.
Variable XLSX_read : File -> result workbook.
Variable firstSheetName : workbook -> string.
Variable sheet_to_json : workbook -> result (list Row).
Variable XLSX_write : Workbook -> result unit.
Variable generateAsync : Zip -> result unit.

(** The events of a click on Start Processing: [processExcel] reads the
    cells [file] and [hubName] of the render in which it was created. *)
Definition startProcessing (c : Cells File) : list event :=
  processExcel XLSX_read firstSheetName sheet_to_json XLSX_write generateAsync
    (file c) (hubName c).

(** What the user does. A drop and a selection carry the answer given to
    the dialog, should it open. *)
Inductive action : Type :=
| DragOver
| DragLeave
| DropFiles (files : list File) (hub : option string)
| PickFiles (files : list File) (value : string) (hub : option string)
| StartProcessing
| SelectAgain.

(** One action: the cells after it and the events of the run it starts. A
    run is one step; no other handler fires between its events. *)
Definition step (c : Cells File) (a : action) : Cells File * list event :=
  match a with
  | DragOver => (handleDragOver c, [])
  | DragLeave => (handleDragLeave c, [])
  | DropFiles files hub => (answer (handleDrop name files c) hub, [])
  | PickFiles files value hub =>
      ((answer (handleFileChange files value c) hub).1, [])
  | StartProcessing => (foldl applyEvent c (startProcessing c), startProcessing c)
  | SelectAgain => (resetFile c, [])
  end.

(** A sequence of actions, from given cells: the cells at the end and the
    events of all the runs. *)
Fixpoint session (c : Cells File) (actions : list action)
    : Cells File * list event :=
  match actions with
  | [] => (c, [])
  | a :: actions' =>
      let '(c', t) := step c a in
      let '(c'', t') := session c' actions' in
      (c'', t ++ t')
  end.

End session.

End FileSplit.

(** A name made of some text followed by .xlsx or by .xls. *)
Definition hasExcelExtension (fileName : string) : Prop :=
  exists p, fileName = p +:+ ".xlsx" \/ fileName = p +:+ ".xls".

(** A file of the browser, for the sample inputs: its name, its size and
    the rows of its first sheet. *)
Record SampleFile : Type := mkSampleFile {
  sampleName : string;
  sampleSize : N;
  sampleRows : list Row
}.

Definition sampleReadFile (f : SampleFile) : result (list Row) := Ok (sampleRows f).

Definition reportFile : SampleFile :=
  {| sampleName := "report.xlsx"; sampleSize := 1536; sampleRows := mixedSheet |}.

Definition notesFile : SampleFile :=
  {| sampleName := "notes.txt"; sampleSize := 12; sampleRows := [] |}.

Definition sampleSession (actions : list (FileSplit.action (File := SampleFile)))
    : FileSplit.Cells SampleFile * list event :=
  FileSplit.session sampleName sampleReadFile sampleSheetName sampleRead
    sampleWrite sampleGenerate FileSplit.initial actions.

(** The cells once the report has been selected for the hub HUB. *)
Definition selectedCells : FileSplit.Cells SampleFile :=
  (sampleSession
     [FileSplit.PickFiles [reportFile] "C:\fakepath\report.xlsx" (Some " HUB ")]).1.

(** The number of rows held by the workbooks of an archive. *)
Definition archiveRows (zip : Zip) : nat :=
  sum_list ((fun entry : string * Workbook => length (wbRows entry.2)) <$> zip).

(** The number of rows held by a list of groups. *)
Definition groupRows (groups : list (string * list Row)) : nat :=
  sum_list ((fun group : string * list Row => length group.2) <$> groups).

(** ** The application shell ([src/App.tsx]) *)

Module App.

(** ['home' | 'file-split' | 'other-tools'] *)
Inductive PageType : Type := home | file_split | other_tools.

(** The components a menu item can mount. *)
Inductive FC : Type := FileSplit.

(** A menu item; its icon, an emoji, is shown only and is left out. *)
Record MenuItem : Type := mkMenuItem {
  id : PageType;
  title : string;
  description : string;
  component : option FC
}.

Definition menuItems : list MenuItem :=
  [ {| id := file_split; title := "Excel File Splitter";
       description := "Split Route Parcel Report"; component := Some FileSplit |};
    {| id := other_tools; title := "Other Tools";
       description := "More useful tools coming soon"; component := None |} ].

(** [item.id === currentPage] *)
Definition samePage (a b : PageType) : bool :=
  match a, b with
  | home, home | file_split, file_split | other_tools, other_tools => true
  | _, _ => false
  end.

(** [handleNavigate]: the value given to [setCurrentPage]. *)
Definition handleNavigate (page : PageType) : PageType := page.

(** A card of the home page: its texts and the page its click sets. *)
Record Card : Type := mkCard {
  cardTitle : string;
  cardDescription : string;
  onClick : PageType
}.

(** What [renderContent] returns: the grid of cards, or a page with its
    title, the page its Back button sets and, under them, either a mounted
    component or the coming-soon notice. *)
Inductive Content : Type :=
| HomePage (cards : list Card)
| ToolPage (pageTitle : string) (back : PageType) (mounted : FC)
| ComingSoon (pageTitle : string) (back : PageType).

(** [renderContent], for the menu it reads. *)
Definition renderContent (menuItems : list MenuItem) (currentPage : PageType)
    : Content :=
  match currentPage with
  | home =>
      HomePage
        ((fun item =>
            {| cardTitle := title item; cardDescription := description item;
               onClick := handleNavigate (id item) |}) <$> menuItems)
  | _ =>
      let selectedItem :=
        List.find (fun item => samePage (id item) currentPage) menuItems in
      match selectedItem with
      | Some {| title := selectedTitle; component := Some Component |} =>
          ToolPage selectedTitle home Component
      | _ => ComingSoon "Other Tools" home
      end
  end.

End App.

(** * Properties *)

(** ** Strings *)

Section StringFacts.
Import JSString.
Local Arguments String.append !_ _ / : simpl nomatch.

Lemma append_cons c (s t : string) : String c s +:+ t = String c (s +:+ t).
Proof. done. Qed.

Lemma append_empty_r (s : string) : s +:+ "" = s.
Proof. induction s as [|c s IH]; [done|]. by rewrite append_cons, IH. Qed.

Lemma append_assoc (a b c : string) : (a +:+ b) +:+ c = a +:+ (b +:+ c).
Proof. induction a as [|x a IH]; [done|]. by rewrite !append_cons, IH. Qed.

Lemma length_append (a b : string) :
  String.length (a +:+ b) = String.length a + String.length b.
Proof. induction a as [|c a IH]; simpl; [done|]. by rewrite IH. Qed.

Lemma fromChars_app l l' : fromChars (l ++ l') = fromChars l +:+ fromChars l'.
Proof. induction l as [|t l IH]; simpl; [done|]. by rewrite IH, append_assoc. Qed.

(** *** Characters *)

Lemma charsFrom_spec pending s :
  (charsFrom pending s).1 +:+ fromChars (charsFrom pending s).2 = s.
Proof.
  revert pending. induction s as [|c s IH]; intros pending; [done|].
  destruct pending as [|pending]; simpl; by rewrite IH.
Qed.

Lemma charsFrom_first s : (charsFrom 0 s).1 = "".
Proof. by destruct s. Qed.

(** The bytes of the characters of a string are the bytes of the string. *)
Lemma fromChars_chars s : fromChars (chars s) = s.
Proof.
  pose proof (charsFrom_spec 0 s) as H. by rewrite charsFrom_first in H.
Qed.

Lemma charsFrom_owed rest s :
  charsFrom (String.length rest) (rest +:+ s) = (rest, chars s).
Proof.
  induction rest as [|c rest IH]; simpl.
  - unfold chars. pose proof (charsFrom_first s) as H.
    destruct (charsFrom 0 s) as [first l]. simpl in *. by subst.
  - by rewrite IH.
Qed.

Lemma charsFrom_short pending rest :
  String.length rest <= pending -> charsFrom pending rest = (rest, []).
Proof.
  revert pending. induction rest as [|c rest IH]; intros pending Hle; [done|].
  destruct pending as [|pending]; simpl in *; [lia|]. rewrite IH by lia. done.
Qed.

Lemma chars_cons char s : isChar char = true -> chars (char +:+ s) = char :: chars s.
Proof.
  destruct char as [|c rest]; [done|]. simpl. intros Hlen%Nat.eqb_eq.
  unfold chars at 1. simpl. by rewrite <-Hlen, charsFrom_owed.
Qed.

Lemma chars_single char : isCutChar char = true -> chars char = [char].
Proof.
  destruct char as [|c rest]; [done|]. simpl. intros Hlen%Nat.leb_le.
  unfold chars. simpl. by rewrite charsFrom_short.
Qed.

Lemma isChar_isCutChar char : isChar char = true -> isCutChar char = true.
Proof.
  destruct char as [|c rest]; [done|]. simpl.
  intros Hlen%Nat.eqb_eq. apply Nat.leb_le. lia.
Qed.

Lemma charsFrom_wellFormed pending s :
  String.length (charsFrom pending s).1 <= pending
  /\ ((charsFrom pending s).2 = [] \/ String.length (charsFrom pending s).1 = pending)
  /\ wellFormed (charsFrom pending s).2.
Proof.
  revert pending. induction s as [|c s IH]; intros pending.
  - simpl. split_and!; [lia|by left|constructor].
  - destruct pending as [|pending]; simpl.
    + destruct (IH (following c)) as (Hle & Hfull & Hwf).
      split_and!; [lia|by right|].
      destruct Hfull as [-> | Hfull].
      * apply wellFormed_last. simpl. by apply Nat.leb_le.
      * apply wellFormed_cons; [|done]. simpl. by apply Nat.eqb_eq.
    + destruct (IH pending) as (Hle & Hfull & Hwf).
      split_and!; [lia| |done]. destruct Hfull; [by left|right; lia].
Qed.

Lemma chars_wellFormed s : wellFormed (chars s).
Proof. apply (charsFrom_wellFormed 0 s). Qed.

(** A well-formed list is the list of the characters of its bytes. *)
Lemma chars_fromChars l : wellFormed l -> chars (fromChars l) = l.
Proof.
  induction 1 as [|char Hchar|char l Hchar _ IH]; simpl.
  - done.
  - rewrite append_empty_r. by apply chars_single.
  - by rewrite chars_cons, IH.
Qed.

Lemma wellFormed_nonempty l : wellFormed l -> Forall (fun char => char <> "") l.
Proof.
  induction 1 as [|char Hchar|char l Hchar _ IH]; repeat constructor; try done;
    by destruct char.
Qed.

Lemma fromChars_empty l : wellFormed l -> fromChars l = "" <-> l = [].
Proof.
  intros Hwf. split; [|by intros ->].
  destruct l as [|char l]; [done|]. apply wellFormed_nonempty in Hwf.
  inversion_clear Hwf as [|? ? Hchar _]. by destruct char.
Qed.

Lemma chars_empty s : chars s = [] <-> s = "".
Proof.
  split; [|by intros ->]. intros Hs.
  by rewrite <-(fromChars_chars s), Hs.
Qed.

Lemma chars_app a s :
  Forall (fun char => isChar char = true) (chars a) ->
  chars (a +:+ s) = chars a ++ chars s.
Proof.
  intros Ha. rewrite <-(fromChars_chars a) at 1.
  induction Ha as [|char l Hchar _ IH]; simpl; [done|].
  by rewrite append_assoc, chars_cons, IH.
Qed.

(** *** Trimming lists of characters *)

Lemma wellFormed_trimStartChars l : wellFormed l -> wellFormed (trimStartChars l).
Proof.
  induction 1 as [|char Hchar|char l Hchar Hl IH]; simpl.
  - constructor.
  - destruct (isWhiteSpace char); by constructor.
  - destruct (isWhiteSpace char); [done|by constructor].
Qed.

Lemma wellFormed_trimEndChars l : wellFormed l -> wellFormed (trimEndChars l).
Proof.
  induction 1 as [|char Hchar|char l Hchar Hl IH]; simpl.
  - constructor.
  - destruct (isWhiteSpace char); by constructor.
  - destruct (trimEndChars l) as [|d t].
    + destruct (isWhiteSpace char); constructor. by apply isChar_isCutChar.
    + by constructor.
Qed.

Lemma trimStartChars_head l :
  match trimStartChars l with
  | [] => True
  | char :: _ => isWhiteSpace char = false
  end.
Proof.
  induction l as [|c l IH]; simpl; [done|].
  by destruct (isWhiteSpace c) eqn:Hc.
Qed.

Lemma trimStartChars_id c l :
  isWhiteSpace c = false -> trimStartChars (c :: l) = c :: l.
Proof. simpl. by intros ->. Qed.

Lemma trimStartChars_idem l : trimStartChars (trimStartChars l) = trimStartChars l.
Proof.
  pose proof (trimStartChars_head l) as H.
  destruct (trimStartChars l) as [|c t]; [done|]. by apply trimStartChars_id.
Qed.

Lemma trimEndChars_idem l : trimEndChars (trimEndChars l) = trimEndChars l.
Proof.
  induction l as [|c l IH]; simpl; [done|].
  destruct (trimEndChars l) as [|d t] eqn:Ht.
  - destruct (isWhiteSpace c) eqn:Hc; simpl; [done|by rewrite Hc].
  - simpl in *. by rewrite IH.
Qed.

(** Trimming the end leaves the first character in place. *)
Lemma trimStartChars_trimEndChars l :
  trimStartChars (trimEndChars (trimStartChars l)) = trimEndChars (trimStartChars l).
Proof.
  pose proof (trimStartChars_head l) as H.
  destruct (trimStartChars l) as [|c t]; [done|]. simpl.
  destruct (trimEndChars t); [rewrite H|]; by apply trimStartChars_id.
Qed.

Lemma trimEndChars_app l l' :
  trimEndChars (l ++ l') =
    match trimEndChars l' with
    | [] => trimEndChars l
    | t => l ++ t
    end.
Proof.
  induction l as [|c l IH]; simpl.
  - by destruct (trimEndChars l').
  - rewrite IH. destruct (trimEndChars l') as [|d t]; [done|].
    by destruct l.
Qed.

Lemma trimEndChars_empty l : trimEndChars l = [] <-> forallb isWhiteSpace l = true.
Proof.
  induction l as [|c l IH]; simpl; [done|].
  destruct (trimEndChars l) eqn:Hl.
  - destruct (isWhiteSpace c); simpl; [tauto|]. split; discriminate.
  - split; [discriminate|]. intros [_ Hb]%andb_true_iff.
    apply IH in Hb. discriminate.
Qed.

Lemma forallb_trimStartChars l :
  forallb isWhiteSpace (trimStartChars l) = forallb isWhiteSpace l.
Proof.
  induction l as [|c l IH]; simpl; [done|].
  destruct (isWhiteSpace c) eqn:Hc; simpl; [done|]. by rewrite Hc.
Qed.

Lemma Forall_trimStartChars (P : string -> Prop) l :
  Forall P l -> Forall P (trimStartChars l).
Proof.
  induction 1 as [|c l Hc Hl IH]; simpl; [done|].
  destruct (isWhiteSpace c); [done|by constructor].
Qed.

Lemma Forall_trimEndChars (P : string -> Prop) l :
  Forall P l -> Forall P (trimEndChars l).
Proof.
  induction 1 as [|c l Hc Hl IH]; simpl; [done|].
  destruct (trimEndChars l) as [|d t].
  - destruct (isWhiteSpace c); by repeat constructor.
  - by constructor.
Qed.

Lemma trimStartChars_length l : length (trimStartChars l) <= length l.
Proof.
  induction l as [|c l IH]; simpl; [done|]. destruct (isWhiteSpace c); simpl; lia.
Qed.

(** A map of characters to lists of characters that keeps white space as it
    is, and sends the other characters to lists that neither start nor end
    with white space, commutes with trimming. *)
Lemma trimStartChars_flat_map (g : string -> list string) l :
  Forall (fun char =>
            if isWhiteSpace char then g char = [char]
            else g char <> [] /\ trimStartChars (g char) = g char
                 /\ trimEndChars (g char) = g char) l ->
  trimStartChars (flat_map g l) = flat_map g (trimStartChars l).
Proof.
  induction 1 as [|c l Hc _ IH]; simpl; [done|].
  destruct (isWhiteSpace c) eqn:Hws.
  - rewrite Hc. simpl. by rewrite Hws.
  - simpl. destruct Hc as (Hne & Hstart & _).
    destruct (g c) as [|d t]; [done|]. simpl in *.
    destruct (isWhiteSpace d); [|done].
    pose proof (trimStartChars_length t) as Hlen. rewrite Hstart in Hlen.
    simpl in Hlen. lia.
Qed.

Lemma trimEndChars_flat_map (g : string -> list string) l :
  Forall (fun char =>
            if isWhiteSpace char then g char = [char]
            else g char <> [] /\ trimStartChars (g char) = g char
                 /\ trimEndChars (g char) = g char) l ->
  trimEndChars (flat_map g l) = flat_map g (trimEndChars l).
Proof.
  induction 1 as [|c l Hc Hl IH]; simpl; [done|].
  rewrite trimEndChars_app, IH.
  pose proof (Forall_trimEndChars _ _ Hl) as Hkeep.
  destruct (trimEndChars l) as [|d t] eqn:Ht.
  - simpl. destruct (isWhiteSpace c) eqn:Hws.
    + rewrite Hc. simpl. by rewrite Hws.
    + destruct Hc as (_ & _ & ->). simpl. by rewrite app_nil_r.
  - inversion_clear Hkeep as [|? ? Hd _].
    assert (g d <> []) as Hne.
    { destruct (isWhiteSpace d); [by rewrite Hd|by destruct Hd]. }
    simpl. by destruct (g d).
Qed.

(** *** Trimming strings *)

Lemma wellFormed_trimChars s :
  wellFormed (trimEndChars (trimStartChars (chars s))).
Proof.
  apply wellFormed_trimEndChars, wellFormed_trimStartChars, chars_wellFormed.
Qed.

Lemma chars_trim s : chars (trim s) = trimEndChars (trimStartChars (chars s)).
Proof. apply chars_fromChars, wellFormed_trimChars. Qed.

Lemma trim_idem s : trim (trim s) = trim s.
Proof.
  unfold trim at 1. by rewrite chars_trim, trimStartChars_trimEndChars, trimEndChars_idem.
Qed.

Lemma trimStartChars_spec l :
  exists before,
    l = before ++ trimStartChars l /\ forallb isWhiteSpace before = true.
Proof.
  induction l as [|c l (before & IH & Hbefore)]; [by exists []|].
  simpl. destruct (isWhiteSpace c) eqn:Hc.
  - exists (c :: before). simpl. by rewrite Hc, Hbefore, <-IH.
  - by exists [].
Qed.

Lemma trimEndChars_spec l :
  exists after,
    l = trimEndChars l ++ after /\ forallb isWhiteSpace after = true.
Proof.
  induction l as [|c l (after & IH & Hafter)]; [by exists []|].
  simpl. destruct (trimEndChars l) as [|d t] eqn:Ht.
  - simpl in IH. subst l. destruct (isWhiteSpace c) eqn:Hc.
    + exists (c :: after). simpl. by rewrite Hc, Hafter.
    + by exists after.
  - exists after. by rewrite IH at 1.
Qed.

(** What [trim] returns: the characters of the text but for white space
    before and after them, and no white space is left at either end. *)
Lemma trim_spec s :
  exists before after,
    chars s = before ++ chars (trim s) ++ after
    /\ forallb isWhiteSpace before = true
    /\ forallb isWhiteSpace after = true
    /\ trimStartChars (chars (trim s)) = chars (trim s)
    /\ trimEndChars (chars (trim s)) = chars (trim s).
Proof.
  rewrite chars_trim.
  destruct (trimStartChars_spec (chars s)) as (before & Hs & Hbefore).
  destruct (trimEndChars_spec (trimStartChars (chars s))) as (after & Ht & Hafter).
  exists before, after. split_and!; [|done..| |].
  - by rewrite <-Ht.
  - apply trimStartChars_trimEndChars.
  - apply trimEndChars_idem.
Qed.

Lemma trim_empty s : trim s = "" <-> isBlank s = true.
Proof.
  unfold trim, isBlank.
  rewrite fromChars_empty by apply wellFormed_trimChars.
  by rewrite trimEndChars_empty, forallb_trimStartChars.
Qed.

Lemma trim_blank s : isBlank s = true -> trim s = "".
Proof. apply trim_empty. Qed.

Lemma trimStartChars_bytes l :
  String.length (fromChars (trimStartChars l)) <= String.length (fromChars l).
Proof.
  induction l as [|c l IH]; simpl; [done|].
  destruct (isWhiteSpace c); simpl; rewrite ?length_append; lia.
Qed.

Lemma trimEndChars_bytes l :
  String.length (fromChars (trimEndChars l)) <= String.length (fromChars l).
Proof.
  induction l as [|c l IH]; simpl; [done|].
  destruct (trimEndChars l) as [|d t];
    [destruct (isWhiteSpace c)|]; simpl in *; rewrite ?length_append in *;
    simpl; lia.
Qed.

Lemma trim_length s : String.length (trim s) <= String.length s.
Proof.
  unfold trim. etransitivity; [apply trimEndChars_bytes|].
  etransitivity; [apply trimStartChars_bytes|]. by rewrite fromChars_chars.
Qed.

(** *** Character classes *)

Lemma containsAny_app cls a b :
  containsAny cls (a +:+ b) = containsAny cls a || containsAny cls b.
Proof.
  induction a as [|c a IH]; simpl; [done|]. by rewrite IH, orb_assoc.
Qed.

Lemma containsAny_fromChars cls l :
  containsAny cls (fromChars l) = false
  <-> Forall (fun char => containsAny cls char = false) l.
Proof.
  induction l as [|c l IH]; simpl.
  - split; [constructor|done].
  - rewrite containsAny_app, orb_false_iff, IH, Forall_cons. done.
Qed.

Lemma containsAny_trim cls s :
  containsAny cls s = false -> containsAny cls (trim s) = false.
Proof.
  rewrite <-(fromChars_chars s) at 1. unfold trim.
  rewrite !containsAny_fromChars. intros H.
  by apply Forall_trimEndChars, Forall_trimStartChars.
Qed.

Lemma containsAny_mapChars cls f s :
  (forall c, charIn (f c) cls = false) -> containsAny cls (mapChars f s) = false.
Proof. intros Hf. induction s as [|c s IH]; simpl; [done|]. by rewrite Hf, IH. Qed.

(** *** Maps of bytes *)

Lemma mapChars_length f s : String.length (mapChars f s) = String.length s.
Proof. induction s as [|c s IH]; simpl; [done|]. by rewrite IH. Qed.

Lemma mapChars_app f a b : mapChars f (a +:+ b) = mapChars f a +:+ mapChars f b.
Proof. induction a as [|c a IH]; simpl; [done|]. by rewrite IH. Qed.

Lemma mapChars_fromChars f l :
  mapChars f (fromChars l) = fromChars (mapChars f <$> l).
Proof.
  induction l as [|c l IH]; [done|].
  rewrite fmap_cons. cbn [fromChars]. by rewrite mapChars_app, IH.
Qed.

(** A map of bytes that keeps the number of bytes that follow a byte maps
    character by character. *)
Lemma charsFrom_mapChars f pending s :
  (forall c, following (f c) = following c) ->
  charsFrom pending (mapChars f s)
  = (mapChars f (charsFrom pending s).1, mapChars f <$> (charsFrom pending s).2).
Proof.
  intros Hf. revert pending. induction s as [|c s IH]; intros pending; [done|].
  destruct pending as [|pending]; simpl; by rewrite ?Hf, IH.
Qed.

Lemma chars_mapChars f s :
  (forall c, following (f c) = following c) ->
  chars (mapChars f s) = mapChars f <$> chars s.
Proof. intros Hf. unfold chars. by rewrite charsFrom_mapChars. Qed.

Lemma existsb_ext_in {A} (f g : A -> bool) l :
  (forall x, x ∈ l -> f x = g x) -> existsb f l = existsb g l.
Proof.
  induction l as [|x l IH]; intros H; simpl; [done|].
  rewrite H by apply list_elem_of_here. rewrite IH; [done|].
  intros y Hy. by apply H, list_elem_of_further.
Qed.

Lemma whiteSpaces_bytes char c :
  char ∈ whiteSpaces -> charIn c char = true -> isWhiteSpaceByte c = true.
Proof.
  intros Hchar Hc. unfold isWhiteSpaceByte. apply existsb_exists.
  exists char. split; [by apply list_elem_of_In|done].
Qed.

(** A map of bytes that leaves the bytes of white-space characters alone,
    and makes no new one, keeps white space white space and the rest not. *)
Lemma mapChars_eq_fixed f s w :
  (forall c, isWhiteSpaceByte c || isWhiteSpaceByte (f c) = true -> f c = c) ->
  (forall c, charIn c w = true -> isWhiteSpaceByte c = true) ->
  mapChars f s = w <-> s = w.
Proof.
  intros Hf. revert w. induction s as [|a s IH]; intros [|b w] Hw; simpl; try done.
  assert (isWhiteSpaceByte b = true) as Hb.
  { apply Hw. simpl. by rewrite Ascii.eqb_refl. }
  assert (mapChars f s = w <-> s = w) as IH'.
  { apply IH. intros c Hc. apply Hw. simpl. by rewrite Hc, orb_true_r. }
  split; intros [= Ha Hs].
  - apply IH' in Hs as ->. f_equal. rewrite <-Ha. symmetry. apply Hf.
    by rewrite Ha, Hb, orb_true_r.
  - subst. f_equal; [|by apply IH']. apply Hf. by rewrite Hb.
Qed.

Lemma isWhiteSpace_mapChars f char :
  (forall c, isWhiteSpaceByte c || isWhiteSpaceByte (f c) = true -> f c = c) ->
  isWhiteSpace (mapChars f char) = isWhiteSpace char.
Proof.
  intros Hf. unfold isWhiteSpace. apply existsb_ext_in. intros w Hw.
  apply Bool.eq_iff_eq_true. rewrite !String.eqb_eq.
  apply mapChars_eq_fixed; [done|]. intros c. by apply whiteSpaces_bytes.
Qed.

Lemma trimStartChars_fmap (f : string -> string) l :
  (forall char, isWhiteSpace (f char) = isWhiteSpace char) ->
  trimStartChars (f <$> l) = f <$> trimStartChars l.
Proof.
  intros Hf. induction l as [|c l IH]; [done|].
  rewrite fmap_cons. cbn [trimStartChars]. rewrite Hf.
  by destruct (isWhiteSpace c).
Qed.

Lemma trimEndChars_fmap (f : string -> string) l :
  (forall char, isWhiteSpace (f char) = isWhiteSpace char) ->
  trimEndChars (f <$> l) = f <$> trimEndChars l.
Proof.
  intros Hf. induction l as [|c l IH]; [done|].
  rewrite fmap_cons. cbn [trimEndChars]. rewrite IH, Hf.
  destruct (trimEndChars l); [|done]. by destruct (isWhiteSpace c).
Qed.

Lemma trim_mapChars f s :
  (forall c, following (f c) = following c) ->
  (forall c, isWhiteSpaceByte c || isWhiteSpaceByte (f c) = true -> f c = c) ->
  trim (mapChars f s) = mapChars f (trim s).
Proof.
  intros Hlen Hf. unfold trim.
  rewrite chars_mapChars, mapChars_fromChars by done.
  rewrite trimStartChars_fmap, trimEndChars_fmap; [done|..];
    intros char; by apply isWhiteSpace_mapChars.
Qed.

Lemma isBlank_mapChars f s :
  (forall c, following (f c) = following c) ->
  (forall c, isWhiteSpaceByte c || isWhiteSpaceByte (f c) = true -> f c = c) ->
  isBlank (mapChars f s) = isBlank s.
Proof.
  intros Hlen Hf. unfold isBlank. rewrite chars_mapChars by done.
  induction (chars s) as [|c l IH]; [done|].
  rewrite fmap_cons. cbn [forallb]. by rewrite isWhiteSpace_mapChars, IH.
Qed.

(** *** Upper case *)

(** No white-space character has an upper case of its own; the upper case
    of any other character is made of whole characters, the first and the
    last of which are not white space. *)
Lemma upperCaseTable_images :
  Forall (fun entry : string * string =>
            isWhiteSpace entry.1 = false
            /\ chars entry.2 <> []
            /\ Forall (fun char => isChar char = true) (chars entry.2)
            /\ trimStartChars (chars entry.2) = chars entry.2
            /\ trimEndChars (chars entry.2) = chars entry.2)
    upperCaseTable.
Proof. apply (bool_decide_unpack _). by vm_compute. Qed.

Lemma upperChar_cases char :
  upperChar char = char
  \/ exists entry, entry ∈ upperCaseTable /\ entry.1 = char
       /\ upperChar char = entry.2.
Proof.
  unfold upperChar.
  destruct (List.find _ upperCaseTable) as [entry|] eqn:Hfind; [|by left].
  apply find_some in Hfind as [Hin Heq]. right. exists entry.
  split_and!; [by apply list_elem_of_In|by apply String.eqb_eq|done].
Qed.

Lemma upperChar_whiteSpace char : isWhiteSpace char = true -> upperChar char = char.
Proof.
  intros Hws. destruct (upperChar_cases char) as [|(entry & Hin & <- & _)]; [done|].
  pose proof upperCaseTable_images as Htable.
  rewrite Forall_forall in Htable. destruct (Htable _ Hin) as [Hno _]. congruence.
Qed.

Lemma chars_upperChar char :
  isCutChar char = true ->
  (isChar char = true ->
   Forall (fun char => isChar char = true) (chars (upperChar char)))
  /\ if isWhiteSpace char then chars (upperChar char) = [char]
     else chars (upperChar char) <> []
          /\ trimStartChars (chars (upperChar char)) = chars (upperChar char)
          /\ trimEndChars (chars (upperChar char)) = chars (upperChar char).
Proof.
  intros Hcut. pose proof (chars_single char Hcut) as Hsingle.
  destruct (isWhiteSpace char) eqn:Hws.
  - rewrite upperChar_whiteSpace, Hsingle by done.
    split; [|done]. intros Hchar. by repeat constructor.
  - destruct (upperChar_cases char) as [->|(entry & Hin & <- & ->)].
    + rewrite Hsingle. simpl. rewrite Hws.
      split_and!; try done. intros Hchar. by repeat constructor.
    + pose proof upperCaseTable_images as Htable.
      rewrite Forall_forall in Htable.
      by destruct (Htable _ Hin) as (_ & ? & ? & ? & ?).
Qed.

Lemma wellFormed_isCutChar l :
  wellFormed l -> Forall (fun char => isCutChar char = true) l.
Proof.
  induction 1 as [|char Hchar|char l Hchar _ IH]; repeat constructor; try done.
  by apply isChar_isCutChar.
Qed.

Lemma chars_upperCase l :
  wellFormed l ->
  chars (fromChars (upperChar <$> l))
  = flat_map (fun char => chars (upperChar char)) l.
Proof.
  induction 1 as [|char Hchar|char l Hchar _ IH];
    rewrite ?fmap_cons; cbn [fromChars flat_map].
  - done.
  - by rewrite append_empty_r, app_nil_r.
  - rewrite chars_app, IH; [done|].
    apply chars_upperChar; [by apply isChar_isCutChar|done].
Qed.

Lemma fromChars_flat_map (f : string -> string) l :
  fromChars (flat_map (fun char => chars (f char)) l) = fromChars (f <$> l).
Proof.
  induction l as [|c l IH]; [done|].
  rewrite fmap_cons. cbn [fromChars flat_map].
  by rewrite fromChars_app, fromChars_chars, IH.
Qed.

(** Upper-casing and trimming commute. *)
Lemma trim_toUpperCase s : trim (toUpperCase s) = toUpperCase (trim s).
Proof.
  unfold toUpperCase at 2. rewrite chars_trim.
  unfold trim, toUpperCase. rewrite chars_upperCase by apply chars_wellFormed.
  assert (Forall (fun char =>
            if isWhiteSpace char
            then chars (upperChar char) = [char]
            else chars (upperChar char) <> []
                 /\ trimStartChars (chars (upperChar char)) = chars (upperChar char)
                 /\ trimEndChars (chars (upperChar char)) = chars (upperChar char))
            (chars s)) as Hkeep.
  { eapply Forall_impl; [apply wellFormed_isCutChar, chars_wellFormed|].
    intros char Hcut. by apply chars_upperChar. }
  rewrite trimStartChars_flat_map by done.
  rewrite trimEndChars_flat_map by (by apply Forall_trimStartChars).
  apply fromChars_flat_map.
Qed.

End StringFacts.

(** ** The spellings of DELIVERED *)

Section SpellingFacts.
Import JSString.
Local Arguments String.append !_ _ / : simpl nomatch.

Local Abbreviation deliveredLetters :=
  ["D"; "E"; "L"; "I"; "V"; "E"; "R"; "E"; "D"].

Lemma upperChar_nonempty char : isCutChar char = true -> upperChar char <> "".
Proof.
  intros Hcut Hempty. destruct (chars_upperChar char Hcut) as [_ Hchars].
  rewrite Hempty in Hchars. destruct (isWhiteSpace char); [done|].
  by destruct Hchars.
Qed.

(** An upper case that starts with one of the letters of DELIVERED is that
    letter and nothing more. *)
Lemma upperCaseTable_letters :
  Forall (fun entry : string * string =>
            match entry.2 with
            | String c rest => charIn c "DEILRV" = true -> rest = ""
            | EmptyString => True
            end) upperCaseTable.
Proof.
  apply Forall_forall. intros entry Hin.
  assert (forallb (fun entry : string * string =>
            match entry.2 with
            | String c rest => implb (charIn c "DEILRV") (String.eqb rest "")
            | EmptyString => true
            end) upperCaseTable = true) as Hall by (by vm_compute).
  rewrite forallb_forall in Hall. apply list_elem_of_In, Hall in Hin.
  destruct (entry.2) as [|c rest]; [done|]. intros Hc. rewrite Hc in Hin.
  by apply String.eqb_eq.
Qed.

Lemma upperChar_letter_alone char c rest :
  isCutChar char = true -> upperChar char = String c rest ->
  charIn c "DEILRV" = true -> rest = "".
Proof.
  intros Hcut Hupper Hc.
  destruct (upperChar_cases char) as [Hsame|(entry & Hin & _ & Hentry)].
  - rewrite Hsame in Hupper. subst char. simpl in Hcut.
    assert (following c = 0) as Hzero.
    { revert Hc. destruct c as [[] [] [] [] [] [] [] []]; by vm_compute. }
    rewrite Hzero in Hcut. apply Nat.leb_le in Hcut. destruct rest; [done|].
    simpl in Hcut. lia.
  - pose proof upperCaseTable_letters as Htable.
    rewrite Forall_forall in Htable. specialize (Htable _ Hin).
    rewrite <-Hentry, Hupper in Htable. auto.
Qed.

Lemma spelling_inv letters l :
  Forall (fun letter => exists c, letter = String c "" /\ charIn c "DEILRV" = true)
    letters ->
  Forall (fun char => isCutChar char = true) l ->
  fromChars (upperChar <$> l) = fromChars letters ->
  Forall2 (fun char letter => upperChar char = letter) l letters.
Proof.
  intros Hletters Hl. revert letters Hletters.
  induction Hl as [|char l Hcut _ IH]; intros letters Hletters Heq.
  - destruct Hletters as [|letter letters (c & -> & _) _]; [constructor|done].
  - rewrite fmap_cons in Heq. cbn [fromChars] in Heq.
    pose proof (upperChar_nonempty char Hcut) as Hne.
    destruct (upperChar char) as [|c rest] eqn:Hupper; [done|].
    destruct Hletters as [|letter letters (x & -> & Hx) Hletters]; [done|].
    simpl in Heq. injection Heq as -> Heq.
    assert (rest = "") as -> by (by eapply upperChar_letter_alone).
    constructor; [done|]. by apply IH.
Qed.

Lemma upperChar_inv char letter :
  upperChar char = letter ->
  char ∈ letter :: (filter (fun entry : string * string => entry.2 = letter)
                      upperCaseTable).*1.
Proof.
  intros Hupper.
  destruct (upperChar_cases char) as [Hsame|(entry & Hin & Hkey & Hentry)].
  - rewrite <-Hupper, Hsame. apply list_elem_of_here.
  - apply list_elem_of_further, list_elem_of_fmap. exists entry.
    split; [done|]. apply list_elem_of_filter. split; [congruence|done].
Qed.

Lemma deliveredSpellings_table :
  Forall2 (fun letter spellings =>
             letter :: (filter (fun entry : string * string => entry.2 = letter)
                          upperCaseTable).*1 = spellings)
    deliveredLetters deliveredSpellings.
Proof. repeat constructor; by vm_compute. Qed.

Lemma deliveredSpellings_upper :
  Forall2 (fun spellings letter =>
             Forall (fun char => upperChar char = letter) spellings)
    deliveredSpellings deliveredLetters.
Proof. repeat constructor; by vm_compute. Qed.

Lemma Forall2_compose {A B C} (P : A -> B -> Prop) (Q : B -> C -> Prop)
    (R : A -> C -> Prop) l1 l2 l3 :
  (forall x y z, P x y -> Q y z -> R x z) ->
  Forall2 P l1 l2 -> Forall2 Q l2 l3 -> Forall2 R l1 l3.
Proof.
  intros HR H12. revert l3. induction H12 as [|x y l1 l2 Hxy _ IH]; intros l3 H23.
  - inversion_clear H23. constructor.
  - inversion_clear H23. constructor; eauto.
Qed.

(** The strings whose upper case is DELIVERED. *)
Lemma toUpperCase_delivered s :
  toUpperCase s = "DELIVERED" <-> spellsDelivered s.
Proof.
  unfold toUpperCase, spellsDelivered. split.
  - intros Heq.
    assert (Forall2 (fun char letter => upperChar char = letter) (chars s)
              deliveredLetters) as Hupper.
    { apply spelling_inv.
      - repeat constructor; eexists; split; reflexivity.
      - apply wellFormed_isCutChar, chars_wellFormed.
      - by rewrite Heq. }
    eapply Forall2_compose; [|exact Hupper|exact deliveredSpellings_table].
    intros char letter spellings Hchar <-. by apply upperChar_inv.
  - intros Hspell.
    assert (Forall2 (fun char letter => upperChar char = letter) (chars s)
              deliveredLetters) as Hupper.
    { eapply Forall2_compose; [|exact Hspell|exact deliveredSpellings_upper].
      intros char spellings letter Hin Hall.
      rewrite Forall_forall in Hall. by apply Hall. }
    apply Forall2_fmap_l in Hupper.
    assert (upperChar <$> chars s = deliveredLetters) as ->; [|done].
    clear Hspell. induction Hupper as [|x y l1 l2 Hxy _ IH]; [done|].
    by rewrite Hxy, IH.
Qed.

End SpellingFacts.

(** ** The status filter *)

Lemma status_text row :
  String_ (js_or (prop row "FinalStatus") (VString "")) = statusCell row.
Proof.
  unfold prop, statusCell. destruct (JSObject.getOwn row "FinalStatus") as [s|]; [|done].
  unfold js_or; simpl. by destruct (String.eqb_spec s "") as [->|].
Qed.

Lemma isDelivered_spec row : isDelivered row = statusIsDelivered row.
Proof.
  unfold isDelivered, statusIsDelivered, JSString.equalsIgnoreCase.
  by rewrite status_text, trim_toUpperCase.
Qed.

(** The texts that equal DELIVERED up to letter case. *)
Lemma statusIsDelivered_spells row :
  statusIsDelivered row = true
  <-> spellsDelivered (JSString.trim (statusCell row)).
Proof.
  unfold statusIsDelivered, JSString.equalsIgnoreCase.
  rewrite String.eqb_eq. apply toUpperCase_delivered.
Qed.


(** ** The grouping key *)

Lemma fleeNameOf_cases row :
  fleeNameOf row =
    match JSObject.getOwn row "FleeName" with
    | Some s => if String.eqb s "" then "undefined" else JSString.trim s
    | None => "undefined"
    end.
Proof.
  unfold fleeNameOf, prop. destruct (JSObject.getOwn row "FleeName") as [s|]; [|done].
  unfold js_or; simpl. by destruct (String.eqb s "").
Qed.

(** A cell that is white space only, and not empty, is keyed by the empty
    string: the fallback is chosen before the cell is trimmed. *)
Lemma fleeNameOf_blank row s :
  JSObject.getOwn row "FleeName" = Some s ->
  s <> "" -> JSString.isBlank s = true ->
  fleeNameOf row = "".
Proof.
  intros Hs Hne Hblank. rewrite fleeNameOf_cases, Hs.
  destruct (String.eqb_spec s ""); [done|]. by apply trim_blank.
Qed.

(** C2: at a row whose FleeName cell is three spaces the cell is empty after
    trimming, yet the key computed by the code is the empty string and not
    the literal undefined. *)
Theorem fleeNameOf_whitespace_only :
  let row : Row := [("FleeName", "   "); ("FinalStatus", "DELIVERED")] in
  JSString.trim "   " = ""
  /\ fleeNameOf row = ""
  /\ fleeNameOf row <> "undefined".
Proof. by vm_compute. Qed.

(** ** Objects: enumeration order, assignment, spread, delete *)

Section ObjectFacts.
Context {V : Type}.
Implicit Types (o l : list (string * V)) (k : string) (v : V) (x y : string * V).
Import JSObject.

#[local] Instance indexLe_trans : Transitive (@indexLe V).
Proof. unfold indexLe. intros x y z. lia. Qed.

Lemma insertIndexed_perm x l : insertIndexed x l ≡ₚ x :: l.
Proof.
  induction l as [|y l IH]; simpl; [done|].
  destruct (indexOf x <=? indexOf y)%N; [done|].
  by rewrite IH, Permutation_swap.
Qed.

Lemma sortIndexed_perm l : sortIndexed l ≡ₚ l.
Proof.
  induction l as [|x l IH]; simpl; [done|].
  by rewrite insertIndexed_perm, IH.
Qed.

Lemma insertIndexed_sorted x l :
  StronglySorted indexLe l -> StronglySorted indexLe (insertIndexed x l).
Proof.
  induction l as [|y l IH]; simpl; intros Hl.
  - repeat constructor.
  - apply StronglySorted_cons in Hl as [Hy Hl].
    destruct (N.leb_spec (indexOf x) (indexOf y)) as [Hxy|Hxy].
    + apply StronglySorted_cons. split; [|by apply StronglySorted_cons].
      constructor; [done|]. eapply Forall_impl; [exact Hy|].
      intros z Hz. by trans y.
    + apply StronglySorted_cons. split; [|by apply IH].
      rewrite insertIndexed_perm. constructor; [|done].
      unfold indexLe. lia.
Qed.

Lemma sortIndexed_sorted l : StronglySorted indexLe (sortIndexed l).
Proof.
  induction l as [|x l IH]; simpl; [constructor|by apply insertIndexed_sorted].
Qed.

Lemma insertIndexed_least x l : Forall (indexLe x) l -> insertIndexed x l = x :: l.
Proof.
  destruct 1 as [|y l Hxy _]; simpl; [done|].
  by destruct (N.leb_spec (indexOf x) (indexOf y)); [|unfold indexLe in Hxy; lia].
Qed.

Lemma sortIndexed_id l : StronglySorted indexLe l -> sortIndexed l = l.
Proof.
  induction 1 as [|x l _ IH Hx]; simpl; [done|].
  rewrite IH. by apply insertIndexed_least.
Qed.

Lemma filter_insertIndexed (P : string * V -> Prop) `{!forall x, Decision (P x)} x l :
  StronglySorted indexLe l ->
  filter P (insertIndexed x l)
  = if decide (P x) then insertIndexed x (filter P l) else filter P l.
Proof.
  induction l as [|y l IH]; simpl; intros Hl.
  - rewrite filter_cons, filter_nil. by destruct (decide (P x)).
  - apply StronglySorted_cons in Hl as [Hy Hl].
    destruct (N.leb_spec (indexOf x) (indexOf y)) as [Hxy|Hxy].
    + rewrite filter_cons. destruct (decide (P x)); [|done].
      symmetry. apply insertIndexed_least.
      apply Forall_forall. intros z [_ Hz]%list_elem_of_filter.
      apply elem_of_cons in Hz as [->|Hz]; [done|]. trans y; [done|].
      by eapply Forall_forall in Hy.
    + rewrite (filter_cons _ y), IH by done. rewrite (filter_cons _ y).
      destruct (decide (P x)), (decide (P y)); simpl; try done.
      by destruct (N.leb_spec (indexOf x) (indexOf y)); [lia|].
Qed.

Lemma filter_sortIndexed (P : string * V -> Prop) `{!forall x, Decision (P x)} l :
  filter P (sortIndexed l) = sortIndexed (filter P l).
Proof.
  induction l as [|x l IH]; simpl; [done|].
  rewrite filter_insertIndexed by apply sortIndexed_sorted.
  rewrite filter_cons, IH. by destruct (decide (P x)).
Qed.

Lemma entries_perm o : entries o ≡ₚ o.
Proof.
  unfold entries. rewrite sortIndexed_perm.
  etrans; [|apply (filter_app_complement (fun kv => isIndexed kv))].
  apply Permutation_app_head.
  erewrite list_filter_iff; [done|]. intros x. simpl. by rewrite negb_True.
Qed.

Lemma filter_filter_swap (P Q : string * V -> Prop)
    `{!forall x, Decision (P x)} `{!forall x, Decision (Q x)} l :
  filter P (filter Q l) = filter Q (filter P l).
Proof.
  rewrite !list_filter_filter. apply list_filter_iff. naive_solver.
Qed.

Lemma entries_filter (P : string * V -> Prop) `{!forall x, Decision (P x)} o :
  entries (filter P o) = filter P (entries o).
Proof.
  unfold entries. rewrite filter_app, filter_sortIndexed.
  by rewrite !(filter_filter_swap P).
Qed.

Lemma filter_none (P : string * V -> Prop) `{!forall x, Decision (P x)} l :
  Forall (fun x => ~ P x) l -> filter P l = [].
Proof.
  induction 1 as [|x l Hx _ IH]; [done|].
  rewrite filter_cons. by destruct (decide (P x)).
Qed.

Lemma filter_all (P : string * V -> Prop) `{!forall x, Decision (P x)} l :
  Forall P l -> filter P l = l.
Proof.
  induction 1 as [|x l Hx _ IH]; [done|].
  rewrite filter_cons, IH. by destruct (decide (P x)).
Qed.

(** Enumerating twice changes nothing: the enumeration is already in
    enumeration order. *)
Lemma entries_idem o : entries (entries o) = entries o.
Proof.
  unfold entries.
  rewrite !filter_app, !filter_sortIndexed, !list_filter_filter.
  rewrite (filter_none (fun x => negb (isIndexed x) ∧ isIndexed x)).
  2:{ apply Forall_forall. intros x _. destruct (isIndexed x); naive_solver. }
  rewrite (filter_none (fun x => isIndexed x ∧ negb (isIndexed x))).
  2:{ apply Forall_forall. intros x _. destruct (isIndexed x); naive_solver. }
  simpl. rewrite !app_nil_r.
  rewrite sortIndexed_id by apply sortIndexed_sorted.
  f_equal; [f_equal|]; apply list_filter_iff; naive_solver.
Qed.

Lemma getOwn_None o k : getOwn o k = None <-> k ∉ o.*1.
Proof.
  induction o as [|[k' v] o IH]; csimpl.
  - split; [intros _|done]. apply not_elem_of_nil.
  - rewrite not_elem_of_cons. destruct (String.eqb_spec k' k); naive_solver.
Qed.

Lemma getOwn_Some o k v : getOwn o k = Some v -> (k, v) ∈ o.
Proof.
  induction o as [|[k' v'] o IH]; csimpl; [done|].
  destruct (String.eqb_spec k' k) as [->|]; intros ?; simplify_eq.
  - left.
  - right. auto.
Qed.

Lemma getOwn_NoDup o k v : NoDup o.*1 -> (k, v) ∈ o -> getOwn o k = Some v.
Proof.
  induction o as [|[k' v'] o IH]; csimpl; intros Hnd Hin; [by inv Hin|].
  apply NoDup_cons in Hnd as [Hk' Hnd].
  destruct (String.eqb_spec k' k) as [->|Hne].
  - apply elem_of_cons in Hin as [?|Hin]; [by simplify_eq|].
    destruct Hk'. by apply (list_elem_of_fmap_2 fst) in Hin.
  - apply elem_of_cons in Hin as [?|Hin]; [by simplify_eq|]. auto.
Qed.

Lemma set_fresh o k v : k ∉ o.*1 -> set o k v = o ++ [(k, v)].
Proof.
  induction o as [|[k' v'] o IH]; csimpl; [done|].
  rewrite not_elem_of_cons. intros [Hne Hk].
  destruct (String.eqb_spec k' k); [done|]. by rewrite IH.
Qed.

Lemma set_keys_present o k v : k ∈ o.*1 -> (set o k v).*1 = o.*1.
Proof.
  induction o as [|[k' v'] o IH]; csimpl; [by intros ?%elem_of_nil|].
  destruct (String.eqb_spec k' k) as [->|Hne]; [done|].
  intros [?|Hk]%elem_of_cons; [done|]. csimpl. by rewrite IH.
Qed.

Lemma foldl_set_fresh acc l :
  NoDup (acc ++ l).*1 ->
  foldl (fun acc kv => set acc kv.1 kv.2) acc l = acc ++ l.
Proof.
  revert acc. induction l as [|[k v] l IH]; intros acc Hnd; csimpl.
  - by rewrite app_nil_r.
  - rewrite set_fresh.
    + rewrite IH; [by rewrite <-app_assoc|]. by rewrite <-app_assoc.
    + rewrite fmap_app in Hnd. apply NoDup_app in Hnd as (_ & Hdisj & _).
      intros Hk. apply (Hdisj _ Hk). csimpl. left.
Qed.

(** Spreading an object yields its properties in enumeration order. *)
Lemma spread_entries o : NoDup o.*1 -> spread o = entries o.
Proof.
  intros Hnd. unfold spread, empty. rewrite foldl_set_fresh; [done|].
  simpl. by rewrite entries_perm.
Qed.

Lemma getOwn_perm o o' k : NoDup o.*1 -> o ≡ₚ o' -> getOwn o k = getOwn o' k.
Proof.
  intros Hnd Hperm. destruct (getOwn o k) as [v|] eqn:Hk; symmetry.
  - apply getOwn_NoDup; [by rewrite <-Hperm|].
    rewrite <-Hperm. by apply getOwn_Some.
  - apply getOwn_None. rewrite <-Hperm. by apply getOwn_None.
Qed.

Lemma getOwn_delete o k' k :
  getOwn (delete o k') k = if String.eqb k' k then None else getOwn o k.
Proof.
  unfold delete. induction o as [|[k0 v0] o IH]; csimpl.
  - by destruct (String.eqb k' k).
  - rewrite filter_cons. csimpl.
    destruct (String.eqb_spec k0 k') as [->|Hne]; csimpl.
    + rewrite IH. by destruct (String.eqb_spec k' k).
    + rewrite IH. destruct (String.eqb_spec k0 k) as [->|]; [|done].
      by destruct (String.eqb_spec k' k).
Qed.

Lemma getOwn_spread o k : NoDup o.*1 -> getOwn (spread o) k = getOwn o k.
Proof.
  intros Hnd. rewrite spread_entries by done. symmetry.
  apply getOwn_perm; [done|]. by rewrite entries_perm.
Qed.

Lemma hasOwnProperty_false o k : hasOwnProperty o k = false <-> k ∉ o.*1.
Proof.
  unfold hasOwnProperty. rewrite <-getOwn_None. by destruct (getOwn o k).
Qed.

Lemma hasOwnProperty_true o k : hasOwnProperty o k = true <-> k ∈ o.*1.
Proof.
  destruct (hasOwnProperty o k) eqn:E.
  - split; [intros _|done]. destruct (decide (k ∈ o.*1)) as [|Hk]; [done|].
    apply hasOwnProperty_false in Hk. congruence.
  - apply hasOwnProperty_false in E. naive_solver.
Qed.

End ObjectFacts.

(** ** Projection *)

Lemma removeColumns_entries (row : Row) :
  NoDup row.*1 ->
  JSObject.entries (removeColumns row)
  = filter (fun kv => negb (isExcluded kv)) (JSObject.entries row).
Proof.
  intros Hnd. unfold removeColumns, JSObject.delete.
  rewrite !entries_filter, spread_entries, entries_idem by done.
  rewrite list_filter_filter. apply list_filter_iff. intros [k v].
  unfold isExcluded; simpl.
  destruct (String.eqb k "sync time"), (String.eqb k "planDeliveryDate");
    naive_solver.
Qed.

(** C4: projection copies the row without the two keys sync time and
    planDeliveryDate: the enumeration of the copy is the enumeration of the
    row with exactly the cells of those two keys left out (so every other
    column keeps its presence, value and relative order), the two keys are
    absent from the copy, every other key reads as in the row, and a row with
    neither key is copied unchanged. The function is total: an absent key
    raises nothing. *)
Theorem removeColumns_spec (row : Row) :
  NoDup row.*1 ->
  JSObject.entries (removeColumns row)
    = filter (fun kv => negb (isExcluded kv)) (JSObject.entries row)
  /\ JSObject.getOwn (removeColumns row) "sync time" = None
  /\ JSObject.getOwn (removeColumns row) "planDeliveryDate" = None
  /\ (forall k, k <> "sync time" -> k <> "planDeliveryDate" ->
        JSObject.getOwn (removeColumns row) k = JSObject.getOwn row k)
  /\ (JSObject.hasOwnProperty row "sync time" = false ->
      JSObject.hasOwnProperty row "planDeliveryDate" = false ->
      JSObject.entries (removeColumns row) = JSObject.entries row).
Proof.
  intros Hnd. split_and!.
  - by apply removeColumns_entries.
  - unfold removeColumns. rewrite !getOwn_delete. done.
  - unfold removeColumns. by rewrite !getOwn_delete.
  - intros k Hk1 Hk2. unfold removeColumns.
    rewrite !getOwn_delete, getOwn_spread by done.
    destruct (String.eqb_spec "planDeliveryDate" k); [done|].
    by destruct (String.eqb_spec "sync time" k).
  - intros H1%hasOwnProperty_false H2%hasOwnProperty_false.
    rewrite removeColumns_entries by done. apply filter_all.
    apply Forall_forall. intros [k v] Hkv.
    rewrite entries_perm in Hkv. apply (list_elem_of_fmap_2 fst) in Hkv.
    unfold isExcluded; simpl.
    destruct (String.eqb_spec k "sync time") as [->|]; [done|].
    by destruct (String.eqb_spec k "planDeliveryDate") as [->|].
Qed.

(** ** Array indices are canonical numerals *)

Section IndexFacts.
Import JSObject.
Local Open Scope N_scope.

Lemma digitOf_Some c d : digitOf c = Some d -> d < 10 /\ c = ascii_of_N (d + 48).
Proof.
  destruct c as [[] [] [] [] [] [] [] []]; vm_compute; intros [= <-]; by split.
Qed.

Lemma digitOf_inj c c' d : digitOf c = Some d -> digitOf c' = Some d -> c = c'.
Proof. intros [_ ->]%digitOf_Some [_ ->]%digitOf_Some. done. Qed.

(** Numerals of the same length with the same value are the same numeral. *)
Lemma digitsValue_inj s s' acc acc' n :
  String.length s = String.length s' ->
  digitsValue s acc = Some n -> digitsValue s' acc' = Some n ->
  acc = acc' /\ s = s'.
Proof.
  revert s' acc acc'. induction s as [|c s IH]; intros [|c' s'] acc acc';
    simpl; try done.
  - intros _ [= ->] [= ->]. done.
  - intros [= Hlen].
    destruct (digitOf c) as [d|] eqn:Hd; [|done].
    destruct (digitOf c') as [d'|] eqn:Hd'; [|done].
    intros Hs Hs'. destruct (IH s' _ _ Hlen Hs Hs') as [Hacc ->].
    destruct (digitOf_Some _ _ Hd) as [Hlt _].
    destruct (digitOf_Some _ _ Hd') as [Hlt' _].
    assert (acc = acc') as -> by lia. assert (d = d') as -> by lia.
    split; [done|]. f_equal. by eapply digitOf_inj.
Qed.

(** The value of a numeral read after [acc] lies in the block of [acc]. *)
Lemma digitsValue_bounds s acc n :
  digitsValue s acc = Some n ->
  acc * 10 ^ N.of_nat (String.length s) <= n < (acc + 1) * 10 ^ N.of_nat (String.length s).
Proof.
  revert acc. induction s as [|c s IH]; intros acc; simpl String.length.
  - intros [= ->]. simpl. lia.
  - simpl. destruct (digitOf c) as [d|] eqn:Hd; [|done].
    intros [Hlo Hhi]%IH. destruct (digitOf_Some _ _ Hd) as [Hlt _].
    rewrite Nat2N.inj_succ, N.pow_succ_r'. nia.
Qed.

(** A canonical numeral of a positive value has as many digits as the
    value requires. *)
Lemma canonical_bounds c s n :
  digitsValue (String c s) 0 = Some n -> digitOf c <> Some 0 ->
  10 ^ N.of_nat (String.length s) <= n < 10 ^ N.of_nat (S (String.length s)).
Proof.
  simpl. destruct (digitOf c) as [d|] eqn:Hd; [|done].
  intros [Hlo Hhi]%digitsValue_bounds Hnz.
  destruct (digitOf_Some _ _ Hd) as [Hlt _].
  assert (1 <= d) by (destruct d; [done|lia]).
  rewrite Nat2N.inj_succ, N.pow_succ_r'. nia.
Qed.

Lemma arrayIndex_Some k n :
  arrayIndex k = Some n ->
  digitsValue k 0 = Some n
  /\ (k = "0"%string \/ exists c s, k = String c s /\ digitOf c <> Some 0).
Proof.
  unfold arrayIndex. destruct k as [|c s]; [done|].
  destruct (Ascii.eqb_spec c "0") as [->|Hc]; simpl andb.
  - destruct (String.eqb_spec s "") as [->|Hs]; simpl negb; cbv iota; [|done].
    vm_compute. intros [= <-]. auto.
  - destruct (digitsValue (String c s) 0) as [m|] eqn:Hm; [|done].
    destruct (m <? 4294967295); [|done]. intros [= ->]. split; [done|].
    right. exists c, s. split; [done|]. intros [_ Hc']%digitOf_Some.
    by destruct Hc.
Qed.

Lemma pow10_lt_length (a b : nat) n :
  10 ^ N.of_nat a <= n -> n < 10 ^ N.of_nat (S b) -> (a <= b)%nat.
Proof.
  intros Hlo Hhi. destruct (decide (a <= b)%nat) as [|Hab]; [done|].
  assert (10 ^ N.of_nat (S b) <= 10 ^ N.of_nat a); [|lia].
  apply N.pow_le_mono_r; lia.
Qed.

(** Distinct array-index keys have distinct values. *)
Lemma arrayIndex_inj k k' n :
  arrayIndex k = Some n -> arrayIndex k' = Some n -> k = k'.
Proof.
  intros [Hk Hcan]%arrayIndex_Some [Hk' Hcan']%arrayIndex_Some.
  destruct Hcan as [->|(c & s & -> & Hc)], Hcan' as [->|(c' & s' & -> & Hc')].
  - done.
  - vm_compute in Hk. injection Hk as <-.
    destruct (canonical_bounds _ _ _ Hk' Hc') as [Hlo _].
    assert (0 < 10 ^ N.of_nat (String.length s')) by (apply N.neq_0_lt_0, N.pow_nonzero; lia).
    lia.
  - vm_compute in Hk'. injection Hk' as <-.
    destruct (canonical_bounds _ _ _ Hk Hc) as [Hlo _].
    assert (0 < 10 ^ N.of_nat (String.length s)) by (apply N.neq_0_lt_0, N.pow_nonzero; lia).
    lia.
  - destruct (canonical_bounds _ _ _ Hk Hc) as [Hlo Hhi].
    destruct (canonical_bounds _ _ _ Hk' Hc') as [Hlo' Hhi'].
    assert (String.length s = String.length s') as Hlen.
    { apply Nat.le_antisymm; eapply pow10_lt_length; done. }
    eapply digitsValue_inj; [|done..]. simpl. by rewrite Hlen.
Qed.

End IndexFacts.

(** ** Grouping *)

Lemma firstOccurrences_elem_of l x : x ∈ firstOccurrences l <-> x ∈ l.
Proof.
  induction l as [|y l IH]; simpl; [done|].
  rewrite !elem_of_cons, list_elem_of_filter, IH.
  destruct (decide (x = y)); naive_solver.
Qed.

Lemma firstOccurrences_NoDup l : NoDup (firstOccurrences l).
Proof.
  induction l as [|y l IH]; simpl; constructor.
  - rewrite list_elem_of_filter. naive_solver.
  - by apply NoDup_filter.
Qed.

Lemma firstOccurrences_snoc l x :
  firstOccurrences (l ++ [x])
  = if decide (x ∈ l) then firstOccurrences l else firstOccurrences l ++ [x].
Proof.
  induction l as [|y l IH]; simpl; [done|].
  - rewrite IH. destruct (decide (x ∈ l)) as [Hx|Hx].
    + rewrite decide_True by (apply elem_of_cons; auto). done.
    + rewrite filter_app, filter_cons, filter_nil.
      repeat case_decide; rewrite ?app_nil_r; try done; set_solver.
Qed.

Lemma rowsKeyed_snoc k rows row :
  rowsKeyed k (rows ++ [row])
  = rowsKeyed k rows ++ (if decide (fleeNameOf row = k) then [row] else []).
Proof.
  unfold rowsKeyed. rewrite filter_app, filter_cons, filter_nil.
  by destruct (decide (fleeNameOf row = k)).
Qed.

Lemma rowsKeyed_nil k rows : k ∉ fleeNameOf <$> rows -> rowsKeyed k rows = [].
Proof.
  intros Hk. unfold rowsKeyed. induction rows as [|row rows IH]; [done|].
  rewrite fmap_cons, not_elem_of_cons in Hk. destruct Hk as [Hne Hk].
  rewrite filter_cons, decide_False by done. auto.
Qed.

Section DictionaryFacts.
Context {V : Type}.
Implicit Types (f : string -> V) (ks : list string) (k : string) (v : V).
Import JSObject.

Lemma getOwn_tabulate f ks k :
  getOwn ((fun k => (k, f k)) <$> ks) k
  = if decide (k ∈ ks) then Some (f k) else None.
Proof.
  induction ks as [|k' ks IH]; csimpl; [done|].
  - destruct (String.eqb_spec k' k) as [->|Hne].
    + by rewrite decide_True by (apply elem_of_cons; auto).
    + rewrite IH. destruct (decide (k ∈ ks)) as [Hk|Hk].
      * by rewrite decide_True by (apply elem_of_cons; auto).
      * rewrite decide_False; [done|]. rewrite elem_of_cons. naive_solver.
Qed.

Lemma set_tabulate f ks k v :
  NoDup ks -> k ∈ ks ->
  set ((fun k => (k, f k)) <$> ks) k v
  = (fun k' => (k', if decide (k' = k) then v else f k')) <$> ks.
Proof.
  induction ks as [|k' ks IH]; csimpl; [by intros _ ?%elem_of_nil|].
  intros [Hk' Hnd]%NoDup_cons Hk.
  destruct (String.eqb_spec k' k) as [->|Hne].
  - rewrite decide_True by done. f_equal.
    apply list_fmap_ext. intros i k' Hi.
    rewrite decide_False; [done|]. intros ->.
    by apply list_elem_of_lookup_2 in Hi.
  - rewrite decide_False by done. f_equal. apply IH; [done|].
    apply elem_of_cons in Hk as [?|?]; [congruence|done].
Qed.

Lemma set_snoc (o : list (string * V)) k v v' :
  k ∉ o.*1 -> set (o ++ [(k, v)]) k v' = o ++ [(k, v')].
Proof.
  induction o as [|[k0 v0] o IH]; csimpl.
  - intros _. by rewrite String.eqb_refl.
  - rewrite not_elem_of_cons. intros [Hne Hk].
    destruct (String.eqb_spec k0 k); [done|]. by rewrite IH.
Qed.

Lemma getOwn_snoc (o : list (string * V)) k v :
  k ∉ o.*1 -> getOwn (o ++ [(k, v)]) k = Some v.
Proof.
  induction o as [|[k0 v0] o IH]; csimpl.
  - intros _. by rewrite String.eqb_refl.
  - rewrite not_elem_of_cons. intros [Hne Hk].
    destruct (String.eqb_spec k0 k); [done|]. by rewrite IH.
Qed.

Lemma tabulate_keys f ks : ((fun k => (k, f k)) <$> ks).*1 = ks.
Proof. rewrite <-list_fmap_compose. by rewrite <-(list_fmap_id ks) at 2. Qed.

End DictionaryFacts.

Lemma groupFrom_app g rows1 rows2 :
  groupFrom g (rows1 ++ rows2)
  = match groupFrom g rows1 with
    | Ok g' => groupFrom g' rows2
    | Raise e => Raise e
    end.
Proof.
  revert g. induction rows1 as [|row rows1 IH]; intros g; simpl; [done|].
  destruct (groupStep g row); [apply IH|done].
Qed.

Lemma keysAreOwnable_snoc rows row :
  keysAreOwnable (rows ++ [row])
  = keysAreOwnable rows && negb (JSObject.isPrototypeKey (fleeNameOf row)).
Proof. unfold keysAreOwnable. rewrite forallb_app. simpl. by rewrite andb_true_r. Qed.

(** One step of the loop on the dictionary of the rows seen so far. *)
Lemma groupStep_groupsInOrder rows row :
  groupStep (groupsInOrder rows) row
  = if JSObject.isPrototypeKey (fleeNameOf row)
       && bool_decide (fleeNameOf row ∉ fleeNameOf <$> rows)
    then Raise (TypeError "groupedData[fleeName].push is not a function")
    else Ok (groupsInOrder (rows ++ [row])).
Proof.
  unfold groupStep, JSObject.get. set (k := fleeNameOf row).
  pose proof (firstOccurrences_elem_of (fleeNameOf <$> rows) k) as Hks.
  assert (JSObject.getOwn (groupsInOrder rows) k
          = if decide (k ∈ fleeNameOf <$> rows)
            then Some (rowsKeyed k rows) else None) as Hget.
  { unfold groupsInOrder. rewrite getOwn_tabulate.
    repeat case_decide; naive_solver. }
  assert ((groupsInOrder rows).*1 = firstOccurrences (fleeNameOf <$> rows))
    as Hkeys by apply tabulate_keys.
  rewrite Hget. destruct (decide (k ∈ fleeNameOf <$> rows)) as [Hin|Hin].
  - rewrite Hget.
    rewrite (bool_decide_eq_false_2 (k ∉ _)) by naive_solver.
    rewrite andb_false_r. f_equal. unfold groupsInOrder.
    rewrite set_tabulate by (auto using firstOccurrences_NoDup; naive_solver).
    rewrite fmap_app. simpl. fold k.
    rewrite firstOccurrences_snoc, decide_True by naive_solver.
    apply list_fmap_ext. intros i k' Hi. f_equal.
    rewrite rowsKeyed_snoc. fold k.
    destruct (decide (k' = k)) as [->|Hne].
    + by rewrite decide_True.
    + rewrite decide_False by done. by rewrite app_nil_r.
  - rewrite (bool_decide_eq_true_2 (k ∉ _)) by naive_solver.
    rewrite andb_true_r.
    destruct (JSObject.isPrototypeKey k) eqn:Hproto.
    + cbv beta iota. by rewrite Hget.
    + cbv beta iota. rewrite set_fresh by (rewrite Hkeys; naive_solver).
      rewrite getOwn_snoc by (rewrite Hkeys; naive_solver).
      rewrite set_snoc by (rewrite Hkeys; naive_solver).
      f_equal. unfold groupsInOrder. rewrite fmap_app. simpl. fold k.
      rewrite firstOccurrences_snoc, decide_False by naive_solver.
      rewrite fmap_app. simpl. f_equal.
      * apply list_fmap_ext. intros i k' Hi. f_equal.
        rewrite rowsKeyed_snoc. fold k. rewrite decide_False, app_nil_r; [done|].
        intros ->. apply Hin, Hks. by apply list_elem_of_lookup_2 in Hi.
      * rewrite rowsKeyed_snoc. fold k. rewrite decide_True by done.
        rewrite rowsKeyed_nil by naive_solver. done.
Qed.

Lemma keysAreOwnable_not_prototype rows k :
  keysAreOwnable rows = true -> JSObject.isPrototypeKey k = true ->
  k ∉ fleeNameOf <$> rows.
Proof.
  unfold keysAreOwnable. rewrite forallb_forall.
  intros Hrows Hk (row & -> & Hrow%list_elem_of_In)%list_elem_of_fmap.
  apply Hrows in Hrow. by rewrite Hk in Hrow.
Qed.

(** Grouping either completes with the dictionary of first-occurrence order,
    or throws because a key names a member of Object.prototype. *)
Lemma groupByFleeName_spec rows :
  groupByFleeName rows
  = if keysAreOwnable rows then Ok (groupsInOrder rows)
    else Raise (TypeError "groupedData[fleeName].push is not a function").
Proof.
  unfold groupByFleeName. induction rows as [|row rows IH] using rev_ind; [done|].
  rewrite groupFrom_app, IH, keysAreOwnable_snoc.
  destruct (keysAreOwnable rows) eqn:Hrows; simpl; [|done].
  rewrite groupStep_groupsInOrder.
  destruct (JSObject.isPrototypeKey (fleeNameOf row)) eqn:Hrow; simpl; [|done].
  by rewrite bool_decide_eq_true_2
    by (by apply keysAreOwnable_not_prototype).
Qed.

Section ListFacts.
Context {A B : Type}.

Lemma filter_fmap (f : A -> B) (P : B -> Prop) `{!forall y, Decision (P y)}
    (l : list A) :
  filter P (f <$> l) = f <$> filter (fun x => P (f x)) l.
Proof.
  induction l as [|x l IH]; [done|].
  rewrite fmap_cons, !filter_cons, IH. by destruct (decide (P (f x))).
Qed.

Lemma filter_True (P : A -> Prop) `{!forall x, Decision (P x)} (l : list A) :
  Forall P l -> filter P l = l.
Proof.
  induction 1 as [|x l Hx _ IH]; [done|].
  rewrite filter_cons, IH. by destruct (decide (P x)).
Qed.

Lemma filter_False (P : A -> Prop) `{!forall x, Decision (P x)} (l : list A) :
  Forall (fun x => ~ P x) l -> filter P l = [].
Proof.
  induction 1 as [|x l Hx _ IH]; [done|].
  rewrite filter_cons. by destruct (decide (P x)).
Qed.

Lemma filter_disjoint_app (P Q : A -> Prop)
    `{!forall x, Decision (P x)} `{!forall x, Decision (Q x)} (l : list A) :
  (forall x, P x -> Q x -> False) ->
  filter P l ++ filter Q l ≡ₚ filter (fun x => P x \/ Q x) l.
Proof.
  intros Hdisj. induction l as [|x l IH]; [done|].
  rewrite !filter_cons.
  destruct (decide (P x)) as [HP|HP], (decide (Q x)) as [HQ|HQ].
  - by destruct (Hdisj x).
  - rewrite decide_True by auto. simpl. by rewrite IH.
  - rewrite decide_True by auto. by rewrite <-Permutation_middle, IH.
  - rewrite decide_False by naive_solver. done.
Qed.

Lemma concat_Permutation (ls1 ls2 : list (list A)) :
  ls1 ≡ₚ ls2 -> concat ls1 ≡ₚ concat ls2.
Proof.
  induction 1 as [|l ls1 ls2 _ IH|l1 l2 ls|ls1 ls2 ls3 _ IH1 _ IH2]; simpl.
  - done.
  - by rewrite IH.
  - rewrite !app_assoc. f_equiv. apply Permutation_app_comm.
  - by rewrite IH1.
Qed.

Lemma fmap_fst_tabulate (f : A -> B) (l : list (A * B)) :
  Forall (fun p => p.2 = f p.1) l -> (fun a => (a, f a)) <$> l.*1 = l.
Proof.
  induction 1 as [|[a b] l Hp _ IH]; csimpl; [done|].
  simpl in Hp. by rewrite IH, Hp.
Qed.

End ListFacts.

Lemma concat_rowsKeyed ks rows :
  NoDup ks ->
  concat ((fun k => rowsKeyed k rows) <$> ks)
  ≡ₚ filter (fun row => fleeNameOf row ∈ ks) rows.
Proof.
  induction 1 as [|k ks Hk _ IH]; csimpl.
  - symmetry. rewrite filter_False; [done|].
    apply Forall_forall. intros row _. apply not_elem_of_nil.
  - rewrite IH. unfold rowsKeyed. rewrite filter_disjoint_app.
    + erewrite list_filter_iff; [done|]. intros row. simpl.
      by rewrite elem_of_cons.
    + intros row -> Hin. done.
Qed.

Section EnumerationFacts.
Context {V : Type}.
Implicit Types (o : list (string * V)).
Import JSObject.

Lemma sortIndexed_indexed o :
  Forall (fun kv => isIndexed kv) (sortIndexed (filter (fun kv => isIndexed kv) o)).
Proof.
  apply Forall_forall. intros kv. rewrite sortIndexed_perm, list_elem_of_filter.
  naive_solver.
Qed.

Lemma filter_other o :
  Forall (fun kv => ~ isIndexed kv) (filter (fun kv => negb (isIndexed kv)) o).
Proof.
  apply Forall_forall. intros kv. rewrite list_elem_of_filter.
  destruct (isIndexed kv); naive_solver.
Qed.

Lemma keys_perm o : keys o ≡ₚ o.*1.
Proof. unfold keys. by rewrite entries_perm. Qed.

Lemma keys_index o :
  filter (fun k => isArrayIndex k) (keys o)
  = (sortIndexed (filter (fun kv => isIndexed kv) o)).*1.
Proof.
  unfold keys, entries. rewrite fmap_app, filter_app, !filter_fmap.
  rewrite filter_True by apply sortIndexed_indexed.
  rewrite (filter_False _ (filter _ o)) by apply filter_other.
  by rewrite app_nil_r.
Qed.

Lemma keys_other o :
  filter (fun k => negb (isArrayIndex k)) (keys o)
  = filter (fun k => negb (isArrayIndex k)) o.*1.
Proof.
  unfold keys, entries. rewrite fmap_app, filter_app, !filter_fmap.
  rewrite filter_False.
  2:{ eapply Forall_impl; [apply sortIndexed_indexed|].
      intros kv. unfold isIndexed. simpl.
      destruct (isArrayIndex kv.1); naive_solver. }
  rewrite filter_True; [done|].
  eapply Forall_impl; [apply filter_other|].
  intros kv. unfold isIndexed. simpl.
  destruct (isArrayIndex kv.1); naive_solver.
Qed.

Lemma keys_split o :
  keys o = filter (fun k => isArrayIndex k) (keys o)
           ++ filter (fun k => negb (isArrayIndex k)) (keys o).
Proof.
  rewrite keys_index, keys_other, filter_fmap. unfold keys, entries.
  by rewrite fmap_app.
Qed.

Lemma keys_index_sorted o :
  StronglySorted (fun a b => (indexValue a <= indexValue b)%N)
    (filter (fun k => isArrayIndex k) (keys o)).
Proof.
  rewrite keys_index.
  eapply (StronglySorted_fmap _ indexLe); [|apply sortIndexed_sorted].
  by intros [a ?] [b ?].
Qed.

Lemma indexValue_inj (a b : string) :
  isArrayIndex a -> isArrayIndex b -> indexValue a = indexValue b -> a = b.
Proof.
  unfold isArrayIndex, indexValue.
  destruct (arrayIndex a) as [n|] eqn:Ha; [|done].
  destruct (arrayIndex b) as [m|] eqn:Hb; [|done].
  intros _ _ ->. by eapply arrayIndex_inj.
Qed.

(** Among distinct keys the array indices are enumerated in strictly
    ascending order. *)
Lemma keys_index_ascending o :
  NoDup o.*1 ->
  StronglySorted (fun a b => (indexValue a < indexValue b)%N)
    (filter (fun k => isArrayIndex k) (keys o)).
Proof.
  intros Hnd. pose proof (keys_index_sorted o) as Hsorted.
  assert (NoDup (filter (fun k => isArrayIndex k) (keys o))) as Hnd'.
  { apply NoDup_filter. by rewrite keys_perm. }
  assert (Forall (fun k => isArrayIndex k) (filter (fun k => isArrayIndex k) (keys o)))
    as Hidx.
  { apply Forall_forall. intros k. rewrite list_elem_of_filter. tauto. }
  induction Hsorted as [|a l _ IH Ha]; [constructor|].
  apply NoDup_cons in Hnd' as [Hal Hnd']. apply Forall_cons in Hidx as [Hia Hidx].
  constructor; [by apply IH|].
  apply Forall_forall. intros b Hb.
  pose proof (proj1 (Forall_forall _ _) Ha b Hb) as Hle.
  pose proof (proj1 (Forall_forall _ _) Hidx b Hb) as Hib.
  cbv beta in Hle.
  destruct (decide (indexValue a = indexValue b)) as [Heq|Hne]; [|lia].
  apply indexValue_inj in Heq; [|done..]. by subst.
Qed.

Lemma entries_no_index o :
  Forall (fun k => isArrayIndex k = false) o.*1 -> entries o = o.
Proof.
  intros Hno. assert (Forall (fun kv => ~ isIndexed kv) o) as Hno'.
  { apply Forall_fmap in Hno. eapply Forall_impl; [exact Hno|].
    intros kv. unfold isIndexed, compose. intros Hk. rewrite Hk. simpl. tauto. }
  unfold entries. rewrite filter_False by done. simpl.
  apply filter_True. eapply Forall_impl; [exact Hno'|].
  intros kv. simpl. destruct (isIndexed kv); simpl; tauto.
Qed.

End EnumerationFacts.

Lemma groupByFleeName_Ok rows groupedData :
  groupByFleeName rows = Ok groupedData -> groupedData = groupsInOrder rows.
Proof.
  rewrite groupByFleeName_spec. destruct (keysAreOwnable rows); [|done].
  by intros [= <-].
Qed.

Lemma groupsInOrder_keys rows :
  JSObject.keys (groupsInOrder rows) ≡ₚ firstOccurrences (fleeNameOf <$> rows).
Proof. rewrite keys_perm. unfold groupsInOrder. by rewrite tabulate_keys. Qed.

Lemma groupsInOrder_entries rows :
  JSObject.entries (groupsInOrder rows)
  = (fun k => (k, rowsKeyed k rows)) <$> JSObject.keys (groupsInOrder rows).
Proof.
  symmetry. apply fmap_fst_tabulate, Forall_forall. intros kv.
  rewrite entries_perm. unfold groupsInOrder.
  by intros (k & -> & _)%list_elem_of_fmap.
Qed.

(** The keys of a completed grouping are the keys of the rows. *)
Lemma group_keys rows groupedData k :
  groupByFleeName rows = Ok groupedData ->
  k ∈ JSObject.keys groupedData <-> exists row, k = fleeNameOf row /\ row ∈ rows.
Proof.
  intros ->%groupByFleeName_Ok.
  by rewrite groupsInOrder_keys, firstOccurrences_elem_of, list_elem_of_fmap.
Qed.

(** C3 (amended): when grouping completes, the groups are a partition of the
    filtered rows - the keys are pairwise distinct, every row's key is among
    them, each group holds exactly the rows carrying its key in their
    original order, and the groups together are the rows, each once. The
    groups enumerate with the array-index keys first, in ascending numeric
    order, followed by the other keys in first-occurrence order; when no key
    is an array index this is first-occurrence order. *)
Theorem groups_partition_and_order (rows : list Row) (groupedData : Groups) :
  groupByFleeName rows = Ok groupedData ->
  let keys := JSObject.keys groupedData in
  let firsts := firstOccurrences (fleeNameOf <$> rows) in
  NoDup keys
  /\ (forall row, row ∈ rows -> fleeNameOf row ∈ keys)
  /\ JSObject.entries groupedData = (fun k => (k, rowsKeyed k rows)) <$> keys
  /\ concat (JSObject.entries groupedData).*2 ≡ₚ rows
  /\ keys ≡ₚ firsts
  /\ keys = filter (fun k => JSObject.isArrayIndex k) keys
            ++ filter (fun k => negb (JSObject.isArrayIndex k)) keys
  /\ StronglySorted (fun a b => (indexValue a < indexValue b)%N)
       (filter (fun k => JSObject.isArrayIndex k) keys)
  /\ filter (fun k => negb (JSObject.isArrayIndex k)) keys
     = filter (fun k => negb (JSObject.isArrayIndex k)) firsts
  /\ (Forall (fun k => JSObject.isArrayIndex k = false) firsts -> keys = firsts).
Proof.
  intros ->%groupByFleeName_Ok keys firsts.
  assert ((groupsInOrder rows).*1 = firsts) as Hraw by apply tabulate_keys.
  pose proof (groupsInOrder_keys rows) as Hperm. fold keys firsts in Hperm.
  pose proof (groupsInOrder_entries rows) as Hentries. fold keys in Hentries.
  split_and!.
  - rewrite Hperm. apply firstOccurrences_NoDup.
  - intros row Hrow. rewrite Hperm. apply firstOccurrences_elem_of.
    by apply list_elem_of_fmap_2.
  - done.
  - rewrite Hentries, <-list_fmap_compose.
    rewrite (concat_Permutation _ ((fun k => rowsKeyed k rows) <$> firsts))
      by (by apply fmap_Permutation).
    rewrite concat_rowsKeyed by apply firstOccurrences_NoDup.
    rewrite filter_True; [done|]. apply Forall_forall. intros row Hrow.
    apply firstOccurrences_elem_of. by apply list_elem_of_fmap_2.
  - done.
  - apply keys_split.
  - apply keys_index_ascending. rewrite Hraw. apply firstOccurrences_NoDup.
  - unfold keys. by rewrite keys_other, Hraw.
  - intros Hno. unfold keys, JSObject.keys.
    rewrite entries_no_index by (by rewrite Hraw). done.
Qed.

(** ** Entry names *)

Section NameFacts.
Import JSString.

(** The replacement applied to each byte by [cleanName]: it keeps the
    number of bytes that follow a byte and the bytes of the white-space
    characters. *)
Lemma following_sanitize c :
  following (if charIn c illegalChars then "_"%char else c) = following c.
Proof. by destruct c as [[] [] [] [] [] [] [] []]. Qed.

Lemma isWhiteSpaceByte_sanitize c :
  isWhiteSpaceByte c
  || isWhiteSpaceByte (if charIn c illegalChars then "_"%char else c) = true ->
  (if charIn c illegalChars then "_"%char else c) = c.
Proof. destruct c as [[] [] [] [] [] [] [] []]; by vm_compute. Qed.

Lemma charIn_sanitize c :
  charIn (if charIn c illegalChars then "_"%char else c) illegalChars = false.
Proof. by destruct c as [[] [] [] [] [] [] [] []]. Qed.

Lemma replaceClass_trim s :
  trim (replaceClass illegalChars "_" s) = replaceClass illegalChars "_" (trim s).
Proof. apply trim_mapChars; [apply following_sanitize|apply isWhiteSpaceByte_sanitize]. Qed.

(** On a trimmed name the final [trim] of [cleanName] changes nothing. *)
Lemma cleanName_trim s :
  cleanName (trim s) = replaceClass illegalChars "_" (trim s).
Proof. unfold cleanName. by rewrite replaceClass_trim, trim_idem. Qed.

(** No entry name holds one of the nine characters, whatever the key. *)
Lemma entryName_legal k : containsAny illegalChars (entryName k) = false.
Proof.
  unfold entryName, cleanName, trim, replaceClass.
  rewrite containsAny_app, orb_false_iff. split; [|done].
  apply containsAny_trim, containsAny_mapChars, charIn_sanitize.
Qed.

Lemma digitsValue_extension s s' acc :
  JSObject.digitsValue (s +:+ String "." s') acc = None.
Proof.
  revert acc. induction s as [|c s IH]; intros acc; simpl; [done|].
  by destruct (JSObject.digitOf c).
Qed.

(** A name with an extension is never an array index. *)
Lemma entryName_not_index k : JSObject.isArrayIndex (entryName k) = false.
Proof.
  unfold entryName, JSObject.isArrayIndex, JSObject.arrayIndex.
  destruct (cleanName k +:+ ".xlsx") as [|c rest] eqn:Hname; [done|].
  rewrite <-Hname, digitsValue_extension. by destruct (_ && _).
Qed.

End NameFacts.

Lemma firstOccurrences_sublist l : firstOccurrences l `sublist_of` l.
Proof.
  induction l as [|x l IH]; simpl; [done|].
  apply sublist_skip. etrans; [apply sublist_filter|done].
Qed.

Lemma firstOccurrences_NoDup_id l : NoDup l -> firstOccurrences l = l.
Proof.
  induction 1 as [|x l Hx _ IH]; simpl; [done|].
  rewrite IH, filter_True; [done|].
  apply Forall_forall. by intros y Hy ->.
Qed.

(** The distinct elements are as many as the elements exactly when no
    element repeats. *)
Lemma firstOccurrences_length l :
  length (firstOccurrences l) <= length l
  /\ (length (firstOccurrences l) = length l <-> NoDup l).
Proof.
  pose proof (firstOccurrences_sublist l) as Hsub. split.
  - by apply sublist_length.
  - split.
    + intros Hlen. pose proof (firstOccurrences_NoDup l) as Hnd.
      apply sublist_submseteq in Hsub.
      by rewrite (submseteq_length_Permutation _ _ Hsub) in Hnd by lia.
    + intros Hnd. by rewrite firstOccurrences_NoDup_id.
Qed.

Section ArchiveFacts.
Context {V : Type}.
Import JSObject.

Lemma set_keys (o : list (string * V)) k v :
  (set o k v).*1 = if decide (k ∈ o.*1) then o.*1 else o.*1 ++ [k].
Proof.
  destruct (decide (k ∈ o.*1)) as [Hk|Hk].
  - by apply set_keys_present.
  - rewrite set_fresh by done. by rewrite fmap_app.
Qed.

Lemma getOwn_set (o : list (string * V)) k v k' :
  getOwn (set o k v) k' = if String.eqb k k' then Some v else getOwn o k'.
Proof.
  induction o as [|[k0 v0] o IH]; csimpl; [done|].
  destruct (String.eqb_spec k0 k) as [->|Hne]; csimpl.
  - by destruct (String.eqb k k').
  - rewrite IH. destruct (String.eqb_spec k0 k') as [->|]; [|done].
    by destruct (String.eqb_spec k k').
Qed.

End ArchiveFacts.

(** The entry under a name holds the workbook of the last group written
    under that name. *)
Lemma archive_last_write sheetName zip gs1 k data gs2 :
  Forall (fun group => entryName group.1 <> entryName k) gs2 ->
  JSObject.getOwn (foldl (addEntry sheetName) zip (gs1 ++ (k, data) :: gs2))
    (entryName k)
  = Some (workbookOf sheetName data).
Proof.
  induction gs2 as [|[k' data'] gs2 IH] using rev_ind; intros Hgs2.
  - rewrite foldl_app. simpl. unfold addEntry at 1. simpl.
    by rewrite getOwn_set, String.eqb_refl.
  - apply Forall_app in Hgs2 as [Hgs2 [Hk' _]%Forall_cons]. simpl in Hk'.
    rewrite app_comm_cons, app_assoc, foldl_snoc. unfold addEntry at 1. simpl.
    rewrite getOwn_set. destruct (String.eqb_spec (entryName k') (entryName k));
      [done|by apply IH].
Qed.

(** The archive holds one entry per distinct entry name, in the order in
    which the names first occur. *)
Lemma archive_names sheetName (groups : list (string * list Row)) :
  (foldl (addEntry sheetName) JSObject.empty groups).*1
  = firstOccurrences (entryName <$> groups.*1).
Proof.
  induction groups as [|[k data] groups IH] using rev_ind; [done|].
  rewrite foldl_snoc, !fmap_app. csimpl. rewrite firstOccurrences_snoc.
  unfold addEntry at 1. csimpl. rewrite set_keys, IH.
  repeat case_decide; try done; by rewrite firstOccurrences_elem_of in *.
Qed.

Lemma archive_keys sheetName (groups : list (string * list Row)) :
  JSObject.keys (foldl (addEntry sheetName) JSObject.empty groups)
  = firstOccurrences (entryName <$> groups.*1).
Proof.
  unfold JSObject.keys. rewrite entries_no_index; [apply archive_names|].
  rewrite archive_names. apply Forall_forall.
  intros name (k & -> & _)%firstOccurrences_elem_of%list_elem_of_fmap.
  apply entryName_not_index.
Qed.

(** Every group key is a trimmed text. *)
Lemma group_keys_trimmed rows groupedData k :
  groupByFleeName rows = Ok groupedData ->
  k ∈ JSObject.keys groupedData -> JSString.trim k = k.
Proof.
  intros Hgroup (row & -> & _)%(group_keys _ _ _ Hgroup). apply trim_idem.
Qed.

(** ** Rounding to the nearest double *)

Section DoubleFacts.
Local Open Scope Q_scope.

Lemma roundHalfEven_floor t :
  (Qfloor t <= roundHalfEven t <= Qfloor t + 1)%Z.
Proof.
  unfold roundHalfEven. destruct (Qcompare _ _); [destruct (Z.even _)| |]; lia.
Qed.

Lemma roundHalfEven_mono s t : s <= t -> (roundHalfEven s <= roundHalfEven t)%Z.
Proof.
  intros Hst. pose proof (Qfloor_resp_le _ _ Hst) as Hf.
  destruct (Z.eq_dec (Qfloor s) (Qfloor t)) as [Heq|Hne].
  - unfold roundHalfEven. rewrite Heq.
    destruct (Qcompare_spec (s - inject_Z (Qfloor t)) (1 # 2)) as [Hs|Hs|Hs],
             (Qcompare_spec (t - inject_Z (Qfloor t)) (1 # 2)) as [Ht|Ht|Ht];
      try destruct (Z.even _); try lia; lra.
  - pose proof (roundHalfEven_floor s). pose proof (roundHalfEven_floor t). lia.
Qed.

Lemma roundHalfEven_Z t z : t == inject_Z z -> roundHalfEven t = z.
Proof.
  intros Ht. unfold roundHalfEven.
  assert (Qfloor t = z) as -> by (rewrite Ht; apply Qfloor_Z).
  destruct (Qcompare_spec (t - inject_Z z) (1 # 2)) as [H|H|H];
    [lra|reflexivity|lra].
Qed.

Lemma roundHalfEven_ge t z : inject_Z z <= t -> (z <= roundHalfEven t)%Z.
Proof.
  intros Ht. apply Z.le_trans with (roundHalfEven (inject_Z z)).
  - rewrite (roundHalfEven_Z (inject_Z z) z) by reflexivity. lia.
  - apply roundHalfEven_mono, Ht.
Qed.

Lemma roundHalfEven_le t z : t <= inject_Z z -> (roundHalfEven t <= z)%Z.
Proof.
  intros Ht. apply Z.le_trans with (roundHalfEven (inject_Z z)).
  - apply roundHalfEven_mono, Ht.
  - rewrite (roundHalfEven_Z (inject_Z z) z) by reflexivity. lia.
Qed.

(** Powers of two. *)

Lemma pow2_pos e : 0 < 2 ^ e.
Proof. apply Qpower_0_lt. reflexivity. Qed.

Lemma pow2_add a b : 2 ^ (a + b) == 2 ^ a * 2 ^ b.
Proof. apply Qpower_plus. discriminate. Qed.

Lemma pow2_le a b : (a <= b)%Z -> 2 ^ a <= 2 ^ b.
Proof. intros Hab. apply Qpower_le_compat_l; [exact Hab|discriminate]. Qed.

Lemma pow2_lt_inv a b : 2 ^ a < 2 ^ b -> (a < b)%Z.
Proof. intros Hab. eapply Qpower_lt_compat_l_inv; [exact Hab|reflexivity]. Qed.

Lemma pow2_Z n : (0 <= n)%Z -> 2 ^ n == inject_Z (2 ^ n).
Proof. intros Hn. symmetry. apply (Zpower_Qpower 2 n Hn). Qed.

(** The binade of a positive number. *)

Lemma binade_spec x : 0 < x -> 2 ^ binade x <= x < 2 ^ (binade x + 1).
Proof.
  intros Hx. destruct x as [a b]. unfold binade. simpl Qnum. simpl Qden.
  assert (0 < a)%Z as Ha by (unfold Qlt in Hx; simpl in Hx; lia).
  set (la := Z.log2 a). set (lb := Z.log2 (Z.pos b)).
  assert (0 <= la)%Z as Hla by apply Z.log2_nonneg.
  assert (0 <= lb)%Z as Hlb by apply Z.log2_nonneg.
  destruct (Z.log2_spec a Ha) as [Ha1 Ha2]. fold la in Ha1, Ha2.
  destruct (Z.log2_spec (Z.pos b) (Pos2Z.is_pos b)) as [Hb1 Hb2].
  fold lb in Hb1, Hb2.
  assert (a # b == inject_Z a / inject_Z (Z.pos b)) as Hab by apply Qmake_Qdiv.
  assert (0 < inject_Z (Z.pos b)) as Hbpos by (rewrite <-(Zlt_Qlt 0); lia).
  assert (inject_Z (2 ^ la) <= inject_Z a) as Ha1' by (rewrite <-Zle_Qle; lia).
  assert (inject_Z a < inject_Z (2 ^ Z.succ la)) as Ha2' by (rewrite <-Zlt_Qlt; lia).
  assert (inject_Z (2 ^ lb) <= inject_Z (Z.pos b)) as Hb1' by (rewrite <-Zle_Qle; lia).
  assert (inject_Z (Z.pos b) < inject_Z (2 ^ Z.succ lb)) as Hb2' by (rewrite <-Zlt_Qlt; lia).
  rewrite <-!pow2_Z in Ha1', Ha2', Hb1', Hb2' by lia.
  (* a / b < 2^(la - lb + 1) and 2^(la - lb - 1) < a / b *)
  assert (a # b < 2 ^ (la - lb + 1)) as Hhi.
  { rewrite Hab. apply Qlt_shift_div_r; [exact Hbpos|].
    apply Qlt_le_trans with (2 ^ Z.succ la); [exact Ha2'|].
    replace (Z.succ la) with ((la - lb + 1) + lb)%Z by lia.
    rewrite pow2_add. apply Qmult_le_l; [apply pow2_pos|exact Hb1']. }
  assert (2 ^ (la - lb - 1) < a # b) as Hlo.
  { rewrite Hab. apply Qlt_shift_div_l; [exact Hbpos|].
    apply Qlt_le_trans with (2 ^ (la - lb - 1) * 2 ^ Z.succ lb).
    - apply Qmult_lt_l; [apply pow2_pos|exact Hb2'].
    - rewrite <-pow2_add. replace (la - lb - 1 + Z.succ lb)%Z with la by lia.
      exact Ha1'. }
  destruct (Qle_bool (2 ^ (la - lb)) (a # b)) eqn:Hcmp.
  - apply Qle_bool_iff in Hcmp. split; [exact Hcmp|exact Hhi].
  - assert (~ 2 ^ (la - lb) <= a # b) as Hnle.
    { intros H. apply Qle_bool_iff in H. congruence. }
    apply Qnot_le_lt in Hnle. split; [apply Qlt_le_weak, Hlo|].
    replace (la - lb - 1 + 1)%Z with (la - lb)%Z by lia. exact Hnle.
Qed.

Lemma ulp_scale e : inject_Z (2 ^ 52) * 2 ^ (e - 52) == 2 ^ e.
Proof.
  rewrite <-(pow2_Z 52) by lia. rewrite <-pow2_add.
  replace (52 + (e - 52))%Z with e by lia. reflexivity.
Qed.

Lemma ulp_scale_up e : inject_Z (2 ^ 53) * 2 ^ (e - 52) == 2 ^ (e + 1).
Proof.
  rewrite <-(pow2_Z 53) by lia. rewrite <-pow2_add.
  replace (53 + (e - 52))%Z with (e + 1)%Z by lia. reflexivity.
Qed.

(** A rounded positive number stays in the closure of its binade. *)
Lemma round53_binade x :
  0 < x -> 2 ^ binade x <= round53 x <= 2 ^ (binade x + 1).
Proof.
  intros Hx. destruct (binade_spec x Hx) as [Hlo Hhi]. unfold round53.
  set (e := binade x) in *. pose proof (pow2_pos (e - 52)) as Hulp.
  set (ulp := 2 ^ (e - 52)) in *.
  assert (2 ^ 52 <= roundHalfEven (x / ulp))%Z as Hm1.
  { apply roundHalfEven_ge, Qle_shift_div_l; [exact Hulp|].
    unfold ulp. rewrite ulp_scale. exact Hlo. }
  assert (roundHalfEven (x / ulp) <= 2 ^ 53)%Z as Hm2.
  { apply roundHalfEven_le, Qle_shift_div_r; [exact Hulp|].
    unfold ulp. rewrite ulp_scale_up. apply Qlt_le_weak, Hhi. }
  rewrite Zle_Qle in Hm1, Hm2. split.
  - rewrite <-(ulp_scale e). fold ulp. apply Qmult_le_compat_r; [exact Hm1|lra].
  - rewrite <-(ulp_scale_up e). fold ulp. apply Qmult_le_compat_r; [exact Hm2|lra].
Qed.

Lemma round53_pos x : 0 < x -> 0 < round53 x.
Proof.
  intros Hx. destruct (round53_binade x Hx) as [Hlo _].
  pose proof (pow2_pos (binade x)). lra.
Qed.

Lemma binade_mono x y : 0 < x -> x <= y -> (binade x <= binade y)%Z.
Proof.
  intros Hx Hxy. assert (0 < y) as Hy by lra.
  destruct (binade_spec x Hx) as [Hlo _], (binade_spec y Hy) as [_ Hhi].
  assert (2 ^ binade x < 2 ^ (binade y + 1)) as H by lra.
  apply pow2_lt_inv in H. lia.
Qed.

Lemma round53_mono x y : 0 < x -> x <= y -> round53 x <= round53 y.
Proof.
  intros Hx Hxy. assert (0 < y) as Hy by lra.
  pose proof (binade_mono x y Hx Hxy) as He.
  destruct (Z.eq_dec (binade x) (binade y)) as [Heq|Hne].
  - unfold round53. rewrite Heq.
    pose proof (pow2_pos (binade y - 52)) as Hulp.
    apply Qmult_le_compat_r; [|lra]. rewrite <-Zle_Qle.
    apply roundHalfEven_mono. apply Qmult_le_compat_r; [exact Hxy|].
    apply Qlt_le_weak, Qinv_lt_0_compat, Hulp.
  - destruct (round53_binade x Hx) as [_ Hhi], (round53_binade y Hy) as [Hlo _].
    assert (2 ^ (binade x + 1) <= 2 ^ binade y) by (apply pow2_le; lia). lra.
Qed.

(** An integer of at most 53 bits is a double. *)
Lemma round53_Z z : (0 < z <= 2 ^ 53)%Z -> round53 (inject_Z z) == inject_Z z.
Proof.
  intros [Hz1 Hz2]. assert (0 < inject_Z z) as Hx by (rewrite <-(Zlt_Qlt 0); lia).
  destruct (binade_spec _ Hx) as [Hlo Hhi]. set (e := binade (inject_Z z)) in *.
  assert (e <= 53)%Z as He.
  { assert (2 ^ e < 2 ^ 54) as H; [|apply pow2_lt_inv in H; lia].
    apply Qle_lt_trans with (inject_Z z); [exact Hlo|].
    rewrite (pow2_Z 54) by lia. rewrite <-Zlt_Qlt. lia. }
  assert (0 <= e)%Z as He0.
  { assert (2 ^ 0 < 2 ^ (e + 1)) as H; [|apply pow2_lt_inv in H; lia].
    apply Qle_lt_trans with (inject_Z z); [|exact Hhi].
    rewrite (pow2_Z 0) by lia. rewrite <-Zle_Qle. simpl. lia. }
  unfold round53. fold e. pose proof (pow2_pos (e - 52)) as Hulp.
  assert (exists m, inject_Z z / 2 ^ (e - 52) == inject_Z m) as [m Hm].
  { destruct (Z.eq_dec e 53%Z) as [->|Hne].
    - exists (2 ^ 52)%Z. assert (z = 2 ^ 53)%Z as ->.
      { rewrite (pow2_Z 53) in Hlo by lia. rewrite <-Zle_Qle in Hlo. lia. }
      reflexivity.
    - exists (z * 2 ^ (52 - e))%Z. rewrite inject_Z_mult.
      rewrite <-(pow2_Z (52 - e)) by lia. unfold Qdiv. apply Qmult_comp; [reflexivity|].
      rewrite <-Qpower_opp. replace (- (e - 52))%Z with (52 - e)%Z by lia.
      reflexivity. }
  rewrite (roundHalfEven_Z _ m Hm), <-Hm. field.
  intros H. rewrite H in Hulp. exact (Qlt_irrefl _ Hulp).
Qed.

Lemma binary64_mono x y : x <= y -> binary64 x <= binary64 y.
Proof.
  intros Hxy. unfold binary64.
  destruct (Qcompare_spec x 0) as [Hx|Hx|Hx], (Qcompare_spec y 0) as [Hy|Hy|Hy];
    try lra.
  - pose proof (round53_pos y Hy). lra.
  - assert (0 < - x) as Hx' by lra. pose proof (round53_pos _ Hx'). lra.
  - assert (0 < - y) as Hy' by lra.
    assert (- y <= - x) as Hyx by lra.
    pose proof (round53_mono _ _ Hy' Hyx). lra.
  - assert (0 < - x) as Hx' by lra.
    pose proof (round53_pos _ Hx'). pose proof (round53_pos y Hy). lra.
  - apply round53_mono; assumption.
Qed.

Lemma binary64_Z z : (Z.abs z <= 2 ^ 53)%Z -> binary64 (inject_Z z) == inject_Z z.
Proof.
  intros Hz. unfold binary64.
  destruct (Qcompare_spec (inject_Z z) 0) as [H|H|H].
  - symmetry. exact H.
  - change 0 with (inject_Z 0) in H. rewrite <-Zlt_Qlt in H.
    assert (- inject_Z z == inject_Z (- z)) as Hopp by (rewrite inject_Z_opp; reflexivity).
    assert (round53 (- inject_Z z) == round53 (inject_Z (- z))) as ->.
    { unfold Qopp, inject_Z. simpl. reflexivity. }
    rewrite round53_Z by lia. rewrite inject_Z_opp. lra.
  - change 0 with (inject_Z 0) in H. rewrite <-Zlt_Qlt in H.
    apply round53_Z. lia.
Qed.

Lemma binary64_roundsToNearest : roundsToNearest binary64.
Proof. split; [exact binary64_mono|exact binary64_Z]. Qed.

End DoubleFacts.

(** ** Rounding and the export percentages *)

Section PercentFacts.
Local Open Scope Q_scope.
Lemma Math_round_mono x y : x <= y -> (Math_round x <= Math_round y)%Z.
Proof. intros Hxy. apply Qfloor_resp_le. lra. Qed.

Lemma Math_round_Z z : Math_round (inject_Z z) = z.
Proof.
  unfold Math_round.
  pose proof (Qfloor_le (inject_Z z + (1 # 2))) as Hle.
  pose proof (Qlt_floor (inject_Z z + (1 # 2))) as Hlt.
  assert (inject_Z (Qfloor (inject_Z z + (1 # 2))) < inject_Z (z + 1)) as H1.
  { rewrite inject_Z_plus. change (inject_Z 1) with 1. lra. }
  assert (inject_Z z < inject_Z (Qfloor (inject_Z z + (1 # 2)) + 1)) as H2 by lra.
  rewrite <-Zlt_Qlt in H1, H2. lia.
Qed.

(** A rounded number stays between the integers that enclose the number. *)
Lemma binary64_between (a b : Z) x :
  (Z.abs a <= 2 ^ 53)%Z -> (Z.abs b <= 2 ^ 53)%Z ->
  inject_Z a <= x <= inject_Z b -> inject_Z a <= binary64 x <= inject_Z b.
Proof.
  destruct binary64_roundsToNearest as [Hmono Hexact]. intros Ha Hb [Hax Hxb].
  rewrite <-(Hexact a Ha), <-(Hexact b Hb). split; by apply Hmono.
Qed.

Local Abbreviation ratio p n := (inject_Z (Z.of_nat p) / inject_Z (Z.of_nat n)).

Lemma ratio_mono p q n : (p <= q)%nat -> ratio p n <= ratio q n.
Proof.
  intros Hpq. unfold Qdiv. apply Qmult_le_compat_r.
  - rewrite <-Zle_Qle. lia.
  - apply Qinv_le_0_compat. change 0 with (inject_Z 0). rewrite <-Zle_Qle. lia.
Qed.

Lemma ratio_full n : (0 < n)%nat -> ratio n n == 1.
Proof.
  intros Hn. apply Qmult_inv_r.
  change 0 with (inject_Z 0). rewrite inject_Z_injective. lia.
Qed.

Lemma ratio_nonneg p n : 0 <= ratio p n.
Proof.
  unfold Qdiv. apply Qmult_le_0_compat.
  - change 0 with (inject_Z 0). rewrite <-Zle_Qle. lia.
  - apply Qinv_le_0_compat. change 0 with (inject_Z 0). rewrite <-Zle_Qle. lia.
Qed.

(** The percentage never decreases as more groups are written. *)
Lemma progressPercent_mono p q n :
  (p <= q)%nat -> (progressPercent p n <= progressPercent q n)%Z.
Proof.
  intros Hpq. destruct binary64_roundsToNearest as [Hmono _]. unfold progressPercent.
  apply Math_round_mono, Hmono, Qplus_le_r, Hmono.
  apply Qmult_le_compat_r; [|done]. by apply Hmono, ratio_mono.
Qed.

(** It stays between 60 and 90 while at most [n] groups are written. *)
Lemma progressPercent_bounds p n :
  (0 < n)%nat -> (p <= n)%nat -> (60 <= progressPercent p n <= 90)%Z.
Proof.
  intros Hn Hpn. unfold progressPercent.
  assert (inject_Z 0 <= ratio p n <= inject_Z 1) as H1.
  { split; [apply ratio_nonneg|]. rewrite <-(ratio_full n) by done.
    by apply ratio_mono. }
  apply (binary64_between 0 1) in H1; [|done..].
  assert (inject_Z 0 <= binary64 (ratio p n) * 30 <= inject_Z 30) as H2.
  { change (inject_Z 0) with 0 in *. change (inject_Z 1) with 1 in *.
    change (inject_Z 30) with 30. lra. }
  apply (binary64_between 0 30) in H2; [|done..].
  assert (inject_Z 60 <= 60 + binary64 (binary64 (ratio p n) * 30) <= inject_Z 90) as H3.
  { change (inject_Z 0) with 0 in *. change (inject_Z 30) with 30 in *.
    change (inject_Z 60) with 60. change (inject_Z 90) with 90. lra. }
  apply (binary64_between 60 90) in H3; [|done..].
  split.
  - trans (Math_round (inject_Z 60)); [by rewrite Math_round_Z|].
    apply Math_round_mono. tauto.
  - trans (Math_round (inject_Z 90)); [|by rewrite Math_round_Z].
    apply Math_round_mono. tauto.
Qed.

(** It is 90 when the last group is written. *)
Lemma progressPercent_full n : (0 < n)%nat -> progressPercent n n = 90%Z.
Proof.
  intros Hn. apply Z.le_antisymm; [by apply progressPercent_bounds|].
  destruct binary64_roundsToNearest as [Hmono Hexact]. unfold progressPercent.
  trans (Math_round (inject_Z 90)); [by rewrite Math_round_Z|].
  apply Math_round_mono.
  rewrite <-(Hexact 90%Z) by done. apply Hmono.
  assert (1 <= binary64 (ratio n n)) as H1.
  { change 1 with (inject_Z 1). rewrite <-(Hexact 1%Z) by done.
    apply Hmono. by rewrite ratio_full. }
  assert (30 <= binary64 (binary64 (ratio n n) * 30)) as H2.
  { change 30 with (inject_Z 30) at 1. rewrite <-(Hexact 30%Z) by done.
    apply Hmono. change (inject_Z 30) with 30. lra. }
  change (inject_Z 90) with 90. lra.
Qed.

(** The model of double arithmetic agrees with the reference operations on
    every run with at most 64 groups. *)
Lemma progressPercent_agreesWithSpecFloat : agreesWithSpecFloat 64 = true.
Proof. vm_compute. reflexivity. Qed.

End PercentFacts.

Lemma last_fmap_seq (f : nat -> Z) n :
  0 < n -> last (f <$> seq 1 n) = Some (f n).
Proof.
  destruct n as [|n]; [lia|]. intros _.
  rewrite seq_S, fmap_app. csimpl. by rewrite last_snoc.
Qed.

Lemma StronglySorted_fmap_seq (f : nat -> Z) a n :
  (forall i j, i <= j -> (f i <= f j)%Z) -> StronglySorted Z.le (f <$> seq a n).
Proof.
  intros Hf. revert a. induction n as [|n IH]; intros a; csimpl; constructor.
  - apply IH.
  - apply Forall_fmap, Forall_forall. intros j [Hj _]%elem_of_seq.
    apply Hf. lia.
Qed.

(** ** The rounding error of the export percentages *)

Section RoundingFacts.
Local Open Scope Q_scope.

Lemma roundHalfEven_error t :
  t - (1 # 2) <= inject_Z (roundHalfEven t) <= t + (1 # 2).
Proof.
  unfold roundHalfEven.
  pose proof (Qfloor_le t) as Hle. pose proof (Qlt_floor t) as Hlt.
  rewrite inject_Z_plus in Hlt. change (inject_Z 1) with 1 in Hlt.
  destruct (Qcompare_spec (t - inject_Z (Qfloor t)) (1 # 2)) as [H|H|H].
  - destruct (Z.even (Qfloor t)).
    + lra.
    + rewrite inject_Z_plus. change (inject_Z 1) with 1. lra.
  - lra.
  - rewrite inject_Z_plus. change (inject_Z 1) with 1. lra.
Qed.

(** The rounding of a positive number moves it by at most half a unit in
    the last place. *)
Lemma round53_error x :
  0 < x ->
  x - 2 ^ (binade x - 53) <= round53 x <= x + 2 ^ (binade x - 53).
Proof.
  intros Hx. unfold round53.
  pose proof (pow2_pos (binade x - 52)) as Hulp.
  set (ulp := 2 ^ (binade x - 52)) in *.
  assert (2 ^ (binade x - 53) == (1 # 2) * ulp) as ->.
  { unfold ulp. replace (binade x - 53)%Z with (-1 + (binade x - 52))%Z by lia.
    rewrite pow2_add. reflexivity. }
  pose proof (roundHalfEven_error (x / ulp)) as [Hlo Hhi].
  assert (x == x / ulp * ulp) as Hxu by (field; lra).
  split.
  - apply Qle_trans with ((x / ulp - (1 # 2)) * ulp); [lra|].
    apply Qmult_le_compat_r; lra.
  - apply Qle_trans with ((x / ulp + (1 # 2)) * ulp); [|lra].
    apply Qmult_le_compat_r; lra.
Qed.

(** The rounding of a number between 0 and 2^(k+1) moves it by at most
    2^(k-53). *)
Lemma binary64_error x k :
  0 <= x -> x < 2 ^ (k + 1) ->
  x - 2 ^ (k - 53) <= binary64 x <= x + 2 ^ (k - 53).
Proof.
  intros Hx Hk. pose proof (pow2_pos (k - 53)) as Hpos. unfold binary64.
  destruct (Qcompare_spec x 0) as [H|H|H]; [lra|lra|].
  destruct (binade_spec x H) as [Hlo _].
  assert (binade x <= k)%Z as He.
  { assert (2 ^ binade x < 2 ^ (k + 1)) as Hlt by lra.
    apply pow2_lt_inv in Hlt. lia. }
  assert (2 ^ (binade x - 53) <= 2 ^ (k - 53)) as Hle by (apply pow2_le; lia).
  pose proof (round53_error x H). lra.
Qed.

Local Abbreviation ratio p n := (inject_Z (Z.of_nat p) / inject_Z (Z.of_nat n)).

Lemma ratio_unit p n : (0 < n)%nat -> (p <= n)%nat -> 0 <= ratio p n <= 1.
Proof.
  intros Hn Hpn. split; [apply ratio_nonneg|].
  rewrite <-(ratio_full n) by done. by apply ratio_mono.
Qed.

(** The double that is rounded to the percentage. *)
Lemma progress_error p n :
  (0 < n)%nat -> (p <= n)%nat ->
  let exact := 60 + 30 * ratio p n in
  let computed := binary64 (60 + binary64 (binary64 (ratio p n) * 30)) in
  exact - 2 ^ (-46) <= computed <= exact + 2 ^ (-46).
Proof.
  intros Hn Hpn exact computed. unfold exact, computed.
  pose proof (ratio_unit p n Hn Hpn) as [Hr0 Hr1].
  set (r := ratio p n) in *.
  assert (2 ^ (-53) == 1 # 9007199254740992) as E53 by reflexivity.
  assert (2 ^ (-49) == 1 # 562949953421312) as E49 by reflexivity.
  assert (2 ^ (-47) == 1 # 140737488355328) as E47 by reflexivity.
  assert (2 ^ (-46) == 1 # 70368744177664) as E46 by reflexivity.
  pose proof (binary64_error r 0 Hr0) as Ha.
  change (0 - 53)%Z with (-53)%Z in Ha. change (2 ^ (0 + 1)) with 2 in Ha.
  assert (r < 2) as Hr2 by lra. specialize (Ha Hr2).
  assert (inject_Z 0 <= r <= inject_Z 1) as Hr by (split; assumption).
  apply (binary64_between 0 1) in Hr; [|done..].
  change (inject_Z 0) with 0 in Hr. change (inject_Z 1) with 1 in Hr.
  set (a := binary64 r) in *.
  pose proof (binary64_error (a * 30) 4) as Hb.
  change (4 - 53)%Z with (-49)%Z in Hb. change (2 ^ (4 + 1)) with 32 in Hb.
  assert (0 <= a * 30) as Ha0 by lra. assert (a * 30 < 32) as Ha32 by lra.
  specialize (Hb Ha0 Ha32).
  assert (inject_Z 0 <= a * 30 <= inject_Z 30) as Hab.
  { change (inject_Z 0) with 0. change (inject_Z 30) with 30. lra. }
  apply (binary64_between 0 30) in Hab; [|done..].
  change (inject_Z 0) with 0 in Hab. change (inject_Z 30) with 30 in Hab.
  set (b := binary64 (a * 30)) in *.
  pose proof (binary64_error (60 + b) 6) as Hc.
  change (6 - 53)%Z with (-47)%Z in Hc. change (2 ^ (6 + 1)) with 128 in Hc.
  assert (0 <= 60 + b) as Hb0 by lra. assert (60 + b < 128) as Hb128 by lra.
  specialize (Hc Hb0 Hb128).
  rewrite E53 in Ha. rewrite E49 in Hb. rewrite E47 in Hc. rewrite E46.
  lra.
Qed.

(** The percentage is the integer nearest to the exact value of
    60 + 30 * p / n, up to the rounding of the three operations. *)
Lemma progressPercent_close p n :
  (0 < n)%nat -> (p <= n)%nat ->
  let exact := 60 + 30 * ratio p n in
  exact - (1 # 2) - 2 ^ (-46) < inject_Z (progressPercent p n)
  /\ inject_Z (progressPercent p n) <= exact + (1 # 2) + 2 ^ (-46)
  /\ (forall k : Z, exact == inject_Z k -> progressPercent p n = k).
Proof.
  intros Hn Hpn exact.
  pose proof (progress_error p n Hn Hpn) as Herr.
  cbv zeta in Herr. fold exact in Herr. unfold progressPercent, Math_round.
  set (computed := binary64 _) in *.
  pose proof (Qfloor_le (computed + (1 # 2))) as Hle.
  pose proof (Qlt_floor (computed + (1 # 2))) as Hlt.
  rewrite inject_Z_plus in Hlt. change (inject_Z 1) with 1 in Hlt.
  assert (2 ^ (-46) == 1 # 70368744177664) as E46 by reflexivity.
  split_and!.
  - lra.
  - lra.
  - intros k Hk. rewrite Hk, E46 in Herr.
    assert (inject_Z (Qfloor (computed + (1 # 2))) < inject_Z (k + 1)) as H1.
    { rewrite inject_Z_plus. change (inject_Z 1) with 1. lra. }
    assert (inject_Z k < inject_Z (Qfloor (computed + (1 # 2)) + 1)) as H2.
    { rewrite inject_Z_plus. change (inject_Z 1) with 1. lra. }
    rewrite <-Zlt_Qlt in H1, H2. lia.
Qed.

End RoundingFacts.

(** ** The pipeline *)

Section PipelineFacts.
Context {payload workbook : Type}.
Context (XLSX_read : payload -> result workbook)
        (firstSheetName : workbook -> string)
        (sheet_to_json : workbook -> result (list Row))
        (XLSX_write : Workbook -> result unit)
        (generateAsync : Zip -> result unit).

Local Abbreviation exportGroups := (exportGroups XLSX_write).
Local Abbreviation run :=
  (processExcel XLSX_read firstSheetName sheet_to_json XLSX_write generateAsync).
Local Abbreviation percentAt n := (fun i => SetProgress (Percent (progressPercent i n))).

Ltac unfold_commands :=
  unfold mbind, M_bind, bind, mret, M_ret, ret, lift, emit, exit, tryCatch.

(** The export loop emits one percentage per group written; it ends
    normally exactly when every group is written, and then the archive is
    the fold of [addEntry] over the groups. *)
Lemma exportGroups_spec sheetName n gs zip p :
  exists m, m <= length gs
    /\ (exportGroups sheetName n gs zip p).1 = percentAt n <$> seq (S p) m
    /\ match (exportGroups sheetName n gs zip p).2 with
       | Normal zip' =>
           m = length gs /\ zip' = foldl (addEntry sheetName) zip gs
       | Throw _ => True
       | Return => False
       end.
Proof.
  revert zip p. induction gs as [|[fleeName data] gs IH]; intros zip p.
  - exists 0. by split_and!.
  - simpl. unfold_commands.
    destruct (colWidths (removeColumns <$> data)) as [cols|e] eqn:Hcols.
    2:{ exists 0. split_and!; [lia|done..]. }
    destruct (XLSX_write _) as [[]|e] eqn:Hwrite.
    2:{ exists 0. split_and!; [lia|done..]. }
    assert (mkWorkbook sheetName (removeColumns <$> data) cols
            = workbookOf sheetName data) as ->.
    { unfold workbookOf. by rewrite Hcols. }
    destruct (IH (JSObject.set zip (entryName fleeName) (workbookOf sheetName data))
                 (S p)) as (m & Hm & Hevs & Hend).
    destruct (exportGroups sheetName n gs _ (S p)) as [evs c]. simpl in *.
    exists (S m). split_and!; [lia|by rewrite Hevs|].
    destruct c as [zip'| |e']; [|done..].
    destruct Hend as [-> ->]. done.
Qed.

(** The paths of a run are told apart without looking into the characters
    of a cell. *)
Opaque JSString.chars JSString.fromChars.

(** The events of a run, path by path. *)
Lemma processExcel_unfold file hubName :
  run (Some file) hubName =
    [SetStatus ReadingFile; SetStatusType processing; SetProgress (Percent 10)]
    ++ match XLSX_read file with
       | Raise e => failureEvents e
       | Ok wb =>
         SetProgress (Percent 25) ::
         match sheet_to_json wb with
         | Raise e => failureEvents e
         | Ok [] =>
             [SetStatus ExcelFileIsEmpty; SetStatusType error; SetProgress NoProgress]
         | Ok (firstRow :: rest) =>
           SetProgress (Percent 40) ::
           if negb (JSObject.hasOwnProperty firstRow "FleeName") then
             [SetStatus ColumnFleeNameNotFound; SetStatusType error;
              SetProgress NoProgress]
           else if (length (deliveredData (firstRow :: rest)) =? 0)%nat then
             [SetStatus NoDeliveredRecords; SetStatusType error;
              SetProgress NoProgress]
           else
             SetStatus GroupingData :: SetProgress (Percent 50) ::
             match groupByFleeName (deliveredData (firstRow :: rest)) with
             | Raise e => failureEvents e
             | Ok groupedData =>
               let fileCount := length (JSObject.keys groupedData) in
               let export :=
                 exportGroups (firstSheetName wb) fileCount
                   (JSObject.entries groupedData) JSObject.empty 0 in
               SetStatus (GeneratingFiles fileCount) :: SetProgress (Percent 60) ::
               export.1 ++
               match export.2 with
               | Normal zip =>
                   SetStatus PackagingFiles :: SetProgress (Percent 95) ::
                   match generateAsync zip with
                   | Raise e => failureEvents e
                   | Ok _ =>
                       successEvents hubName (deliveredData (firstRow :: rest))
                         groupedData zip
                   end
               | Throw e => failureEvents e
               | Return => []
               end
             end
         end
       end.
Proof.
  unfold processExcel, processBody. unfold_commands. simpl.
  destruct (XLSX_read file) as [wb|e]; [|done]. simpl.
  destruct (sheet_to_json wb) as [[|firstRow rest]|e]; [done| |done]. simpl.
  destruct (negb _); [done|].
  destruct (_ =? 0)%nat; [done|]. simpl.
  destruct (groupByFleeName _) as [groupedData|e]; [|done]. simpl.
  destruct (exportGroups _ _ _ _ _) as [evs [zip| |e]]; simpl;
    [|by rewrite app_nil_r|done].
  destruct (generateAsync zip) as [[]|e]; simpl.
  - done.
  - by rewrite <-app_assoc.
Qed.

Transparent JSString.chars JSString.fromChars.

Lemma percentAt_quiet n (l : list nat) : Forall (fun e => quiet e) (percentAt n <$> l).
Proof. apply Forall_fmap, Forall_forall. by intros i _. Qed.

(** Every run either ends with the three events of a failure, after events
    that publish nothing, or is a complete successful run. *)
Lemma run_cases file hubName :
  (exists prefix m,
      run (Some file) hubName
      = prefix ++ [SetStatus m; SetStatusType error; SetProgress NoProgress]
      /\ Forall (fun e => quiet e) prefix
      /\ failureCause XLSX_read sheet_to_json file m)
  \/ (exists wb firstRow rest groupedData,
        let delivered := deliveredData (firstRow :: rest) in
        let zip := foldl (addEntry (firstSheetName wb)) JSObject.empty
                     (JSObject.entries groupedData) in
        let n := length (JSObject.keys groupedData) in
        XLSX_read file = Ok wb
        /\ sheet_to_json wb = Ok (firstRow :: rest)
        /\ JSObject.hasOwnProperty firstRow "FleeName" = true
        /\ delivered <> []
        /\ groupByFleeName delivered = Ok groupedData
        /\ generateAsync zip = Ok tt
        /\ run (Some file) hubName
           = [SetStatus ReadingFile; SetStatusType processing;
              SetProgress (Percent 10); SetProgress (Percent 25);
              SetProgress (Percent 40); SetStatus GroupingData;
              SetProgress (Percent 50); SetStatus (GeneratingFiles n);
              SetProgress (Percent 60)]
             ++ (percentAt n <$> seq 1 n)
             ++ [SetStatus PackagingFiles; SetProgress (Percent 95)]
             ++ successEvents hubName delivered groupedData zip).
Proof.
  rewrite processExcel_unfold.
  destruct (XLSX_read file) as [wb|e] eqn:Hread.
  2:{ left. eexists [_; _; _], _. split_and!; [done|by repeat constructor|].
      by apply fail_read. }
  destruct (sheet_to_json wb) as [[|firstRow rest]|e] eqn:Hsheet.
  { left. eexists [_; _; _; _], _. split_and!; [done|by repeat constructor|].
    by eapply fail_empty. }
  2:{ left. eexists [_; _; _; _], _. split_and!; [done|by repeat constructor|].
      by eapply fail_sheet. }
  destruct (JSObject.hasOwnProperty firstRow "FleeName") eqn:Hcol; simpl.
  2:{ left. eexists [_; _; _; _; _], _.
      split_and!; [done|by repeat constructor|]. by eapply fail_column. }
  destruct (deliveredData (firstRow :: rest)) as [|row delivered] eqn:Hdelivered.
  { left. eexists [_; _; _; _; _], _.
    split_and!; [done|by repeat constructor|]. by eapply fail_filter. }
  rewrite <-Hdelivered.
  assert (deliveredData (firstRow :: rest) <> []) as Hne by (by rewrite Hdelivered).
  replace (length (deliveredData (firstRow :: rest)) =? 0)%nat with false
    by (by rewrite Hdelivered).
  destruct (groupByFleeName _) as [groupedData|e] eqn:Hgroup.
  2:{ left. eexists [_; _; _; _; _; _; _], _.
      split_and!; [done|by repeat constructor|]. by eapply fail_later. }
  cbv zeta.
  destruct (exportGroups_spec (firstSheetName wb) (length (JSObject.keys groupedData))
              (JSObject.entries groupedData) JSObject.empty 0)
    as (m & Hm & Hevs & Hend).
  destruct (exportGroups _ _ _ _ _) as [evs [zip| |e]]; simpl in *; subst evs.
  - destruct Hend as [-> ->]. destruct (generateAsync _) as [[]|e] eqn:Hzip.
    + right. exists wb, firstRow, rest, groupedData. cbv zeta.
      split_and!; try done.
      unfold JSObject.keys. by rewrite length_fmap.
    + left. eexists (_ :: _ :: _ :: _ :: _ :: _ :: _ :: _ :: _ :: _ ++ [_; _]), _.
      split_and!.
      * simpl. by rewrite <-app_assoc.
      * repeat (constructor; [done|]). apply Forall_app. split.
        -- apply percentAt_quiet.
        -- by repeat constructor.
      * by eapply fail_later.
  - done.
  - left. eexists (_ :: _ :: _ :: _ :: _ :: _ :: _ :: _ :: _ :: _), _.
    split_and!.
    + simpl. done.
    + repeat (constructor; [done|]). apply percentAt_quiet.
    + by eapply fail_later.
Qed.

Lemma quiet_downloads t : Forall (fun e => quiet e) t -> downloads t = [].
Proof.
  unfold downloads. induction 1 as [|e t He _ IH]; [done|].
  csimpl. rewrite IH. by destruct e.
Qed.

Lemma quiet_publishedStats t : Forall (fun e => quiet e) t -> publishedStats t = [].
Proof.
  unfold publishedStats. induction 1 as [|e t He _ IH]; [done|].
  csimpl. rewrite IH. by destruct e.
Qed.

Lemma quiet_errorCount t : Forall (fun e => quiet e) t -> errorCount t = 0.
Proof.
  unfold errorCount. induction 1 as [|e t He _ IH]; [done|].
  rewrite filter_cons. by destruct e as [| [] | | | |].
Qed.

Lemma quiet_not_success st t :
  Forall (fun e => quiet e) t -> statusType st <> success ->
  statusType (finalState st t) <> success.
Proof.
  unfold finalState. intros Ht. revert st.
  induction Ht as [|e t He _ IH]; intros st Hst; [done|].
  simpl. apply IH. by destruct e as [| [] | | | |].
Qed.

Lemma failure_form_failsWith prefix m :
  failsWith (prefix ++ [SetStatus m; SetStatusType error; SetProgress NoProgress]) m.
Proof. intros st. unfold finalState. by rewrite foldl_app. Qed.

Lemma failure_form_downloads prefix m :
  Forall (fun e => quiet e) prefix ->
  downloads (prefix ++ [SetStatus m; SetStatusType error; SetProgress NoProgress]) = [].
Proof.
  intros Hq. unfold downloads. rewrite omap_app. fold (downloads prefix).
  by rewrite quiet_downloads.
Qed.

Lemma failure_form_publishedStats prefix m :
  Forall (fun e => quiet e) prefix ->
  publishedStats (prefix ++ [SetStatus m; SetStatusType error; SetProgress NoProgress])
  = [].
Proof.
  intros Hq. unfold publishedStats. rewrite omap_app. fold (publishedStats prefix).
  by rewrite quiet_publishedStats.
Qed.

Lemma failure_form_errorCount prefix m :
  Forall (fun e => quiet e) prefix ->
  errorCount (prefix ++ [SetStatus m; SetStatusType error; SetProgress NoProgress]) = 1.
Proof.
  intros Hq. unfold errorCount. rewrite filter_app, length_app.
  fold (errorCount prefix). by rewrite quiet_errorCount.
Qed.

Lemma failsWith_unique t m m' : failsWith t m -> failsWith t m' -> m = m'.
Proof.
  intros H H'. destruct (H initialState) as [_ Hm], (H' initialState) as [_ Hm'].
  congruence.
Qed.

Lemma failsWith_not_succeeds t m : failsWith t m -> ~ succeeds t.
Proof.
  intros H H'. destruct (H initialState) as [Hm _]. specialize (H' initialState).
  congruence.
Qed.

(** The run ends in the success state on the success path. *)
Lemma success_form_succeeds (prefix : list event) hubName delivered groupedData zip :
  succeeds (prefix ++ successEvents hubName delivered groupedData zip).
Proof. intros st. unfold finalState. by rewrite foldl_app. Qed.

(** A run that fails with a text has the cause that goes with this text. *)
Lemma failsWith_cause file hubName m :
  failsWith (run (Some file) hubName) m ->
  failureCause XLSX_read sheet_to_json file m
  /\ downloads (run (Some file) hubName) = []
  /\ publishedStats (run (Some file) hubName) = []
  /\ errorCount (run (Some file) hubName) = 1.
Proof.
  intros Hfail.
  destruct (run_cases file hubName)
    as [(prefix & m' & Ht & Hq & Hcause)
       |(wb & firstRow & rest & groupedData & _ & _ & _ & _ & _ & _ & Ht)].
  - rewrite Ht in *.
    rewrite (failsWith_unique _ _ _ Hfail (failure_form_failsWith prefix m')).
    auto using failure_form_downloads, failure_form_publishedStats,
      failure_form_errorCount.
  - apply failsWith_not_succeeds in Hfail. destruct Hfail. rewrite Ht.
    rewrite !app_assoc. apply success_form_succeeds.
Qed.

(** A cause makes the run fail with its text, unless the text is that of a
    later exception. *)
Lemma cause_failsWith file hubName m :
  failureCause XLSX_read sheet_to_json file m ->
  (forall e, m <> ProcessingFailed e) ->
  failsWith (run (Some file) hubName) m.
Proof.
  intros Hcause Hm.
  destruct (run_cases file hubName)
    as [(prefix & m' & Ht & Hq & Hcause')
       |(wb & firstRow & rest & groupedData & Hread & Hsheet & Hcol & Hne & _)].
  - rewrite Ht. assert (m' = m) as ->; [|apply failure_form_failsWith].
    destruct Hcause, Hcause'; try done; try congruence; by edestruct Hm.
  - destruct Hcause; try congruence; by edestruct Hm.
Qed.

Lemma deliveredData_nil rows :
  Forall (fun row => statusIsDelivered row = false) rows -> deliveredData rows = [].
Proof.
  intros Hrows. unfold deliveredData. apply filter_False.
  eapply Forall_impl; [exact Hrows|]. intros row Hrow.
  rewrite isDelivered_spec, Hrow. simpl. tauto.
Qed.

(** C7: for every payload, the run fails with the empty-file text exactly
    when the payload parses and its first sheet yields no data row, and with
    the missing-column text exactly when the sheet yields a first row that
    has no FleeName property - only the first row is inspected. In both
    cases the run stops there: the events are those up to the failure,
    nothing is downloaded and no statistics are published. *)
Theorem reading_failures file hubName :
  let t := run (Some file) hubName in
  (failsWith t ExcelFileIsEmpty <->
     exists wb, XLSX_read file = Ok wb /\ sheet_to_json wb = Ok [])
  /\ (failsWith t ColumnFleeNameNotFound <->
        exists wb firstRow rest,
          XLSX_read file = Ok wb /\ sheet_to_json wb = Ok (firstRow :: rest)
          /\ JSObject.hasOwnProperty firstRow "FleeName" = false)
  /\ (failsWith t ExcelFileIsEmpty ->
        t = [SetStatus ReadingFile; SetStatusType processing;
             SetProgress (Percent 10); SetProgress (Percent 25);
             SetStatus ExcelFileIsEmpty; SetStatusType error;
             SetProgress NoProgress])
  /\ (failsWith t ColumnFleeNameNotFound ->
        t = [SetStatus ReadingFile; SetStatusType processing;
             SetProgress (Percent 10); SetProgress (Percent 25);
             SetProgress (Percent 40);
             SetStatus ColumnFleeNameNotFound; SetStatusType error;
             SetProgress NoProgress])
  /\ (failsWith t ExcelFileIsEmpty \/ failsWith t ColumnFleeNameNotFound ->
        downloads t = [] /\ publishedStats t = [] /\ errorCount t = 1).
Proof.
  intros t.
  assert (failsWith t ExcelFileIsEmpty ->
          exists wb, XLSX_read file = Ok wb /\ sheet_to_json wb = Ok [])
    as Hempty.
  { intros [Hcause _]%failsWith_cause.
    inversion Hcause as [| |wb Hread Hsheet| | |]. eauto. }
  assert (failsWith t ColumnFleeNameNotFound ->
          exists wb firstRow rest,
            XLSX_read file = Ok wb /\ sheet_to_json wb = Ok (firstRow :: rest)
            /\ JSObject.hasOwnProperty firstRow "FleeName" = false) as Hcolumn.
  { intros [Hcause _]%failsWith_cause.
    inversion Hcause as [| | |wb firstRow rest Hread Hsheet Hcol| |].
    eauto 6. }
  split_and!.
  - split; [done|]. intros (wb & Hread & Hsheet).
    apply cause_failsWith; [|done]. by eapply fail_empty.
  - split; [done|]. intros (wb & firstRow & rest & Hread & Hsheet & Hcol).
    apply cause_failsWith; [|done]. by eapply fail_column.
  - intros (wb & Hread & Hsheet)%Hempty. unfold t.
    by rewrite processExcel_unfold, Hread, Hsheet.
  - intros (wb & firstRow & rest & Hread & Hsheet & Hcol)%Hcolumn. unfold t.
    by rewrite processExcel_unfold, Hread, Hsheet, Hcol.
  - intros [H|H]; apply failsWith_cause in H; tauto.
Qed.

(** C8 (amended): when the read stage has passed (the sheet yields a first
    row and that row has the FleeName property) and no row passes the status
    filter, the run fails with the no-records text. Whatever the stage, a run
    that does not end in success fails with exactly one text, enters the
    error state once, downloads no archive and publishes no statistics. *)
Theorem no_matches_and_fail_fast file hubName :
  let t := run (Some file) hubName in
  (forall wb firstRow rest,
      XLSX_read file = Ok wb -> sheet_to_json wb = Ok (firstRow :: rest) ->
      JSObject.hasOwnProperty firstRow "FleeName" = true ->
      Forall (fun row => statusIsDelivered row = false) (firstRow :: rest) ->
      failsWith t NoDeliveredRecords)
  /\ (~ succeeds t ->
      exists m, failsWith t m /\ (forall m', failsWith t m' -> m' = m)
        /\ downloads t = [] /\ publishedStats t = [] /\ errorCount t = 1).
Proof.
  intros t. split.
  - intros wb firstRow rest Hread Hsheet Hcol Hrows.
    apply cause_failsWith; [|done].
    eapply fail_filter; [done..|]. by apply deliveredData_nil.
  - intros Hfail.
    destruct (run_cases file hubName)
      as [(prefix & m & Ht & Hq & Hcause)
         |(wb & firstRow & rest & groupedData & _ & _ & _ & _ & _ & _ & Ht)].
    + assert (failsWith t m) as Hm.
      { unfold t. rewrite Ht. apply failure_form_failsWith. }
      pose proof (failsWith_cause _ _ _ Hm) as (_ & Hd & Hs & He).
      exists m. split_and!; [done| |done..].
      intros m' Hm'. by eapply failsWith_unique.
    + destruct Hfail. unfold t. rewrite Ht, !app_assoc.
      apply success_form_succeeds.
Qed.

(** A run that ends in success went through every stage. *)
Lemma succeeds_inv file hubName :
  succeeds (run (Some file) hubName) ->
  exists wb firstRow rest groupedData,
    let delivered := deliveredData (firstRow :: rest) in
    let zip := foldl (addEntry (firstSheetName wb)) JSObject.empty
                 (JSObject.entries groupedData) in
    let n := length (JSObject.keys groupedData) in
    XLSX_read file = Ok wb
    /\ sheet_to_json wb = Ok (firstRow :: rest)
    /\ JSObject.hasOwnProperty firstRow "FleeName" = true
    /\ delivered <> []
    /\ groupByFleeName delivered = Ok groupedData
    /\ generateAsync zip = Ok tt
    /\ run (Some file) hubName
       = [SetStatus ReadingFile; SetStatusType processing;
          SetProgress (Percent 10); SetProgress (Percent 25);
          SetProgress (Percent 40); SetStatus GroupingData;
          SetProgress (Percent 50); SetStatus (GeneratingFiles n);
          SetProgress (Percent 60)]
         ++ (percentAt n <$> seq 1 n)
         ++ [SetStatus PackagingFiles; SetProgress (Percent 95)]
         ++ successEvents hubName delivered groupedData zip.
Proof.
  intros Hok. destruct (run_cases file hubName)
    as [(prefix & m & Ht & Hq & Hcause)|Hsuccess]; [|done].
  destruct (failsWith_not_succeeds (run (Some file) hubName) m); [|done].
  rewrite Ht. apply failure_form_failsWith.
Qed.

Lemma success_form_downloads (l : list nat) n m hubName delivered groupedData zip :
  downloads
    ([SetStatus ReadingFile; SetStatusType processing;
      SetProgress (Percent 10); SetProgress (Percent 25);
      SetProgress (Percent 40); SetStatus GroupingData;
      SetProgress (Percent 50); SetStatus (GeneratingFiles m);
      SetProgress (Percent 60)]
     ++ (percentAt n <$> l)
     ++ [SetStatus PackagingFiles; SetProgress (Percent 95)]
     ++ successEvents hubName delivered groupedData zip)
  = [(hubName +:+ ".zip", zip)].
Proof.
  unfold downloads. rewrite !omap_app. fold (downloads (percentAt n <$> l)).
  by rewrite (quiet_downloads (percentAt n <$> l)) by apply percentAt_quiet.
Qed.

Lemma success_form_publishedStats (l : list nat) n m hubName delivered groupedData zip :
  publishedStats
    ([SetStatus ReadingFile; SetStatusType processing;
      SetProgress (Percent 10); SetProgress (Percent 25);
      SetProgress (Percent 40); SetStatus GroupingData;
      SetProgress (Percent 50); SetStatus (GeneratingFiles m);
      SetProgress (Percent 60)]
     ++ (percentAt n <$> l)
     ++ [SetStatus PackagingFiles; SetProgress (Percent 95)]
     ++ successEvents hubName delivered groupedData zip)
  = [ {| totalRows := length delivered;
         uniqueFiles := length (JSObject.keys groupedData);
         fileNames := firstTen (JSObject.keys groupedData) |} ].
Proof.
  unfold publishedStats. rewrite !omap_app.
  fold (publishedStats (percentAt n <$> l)).
  by rewrite (quiet_publishedStats (percentAt n <$> l)) by apply percentAt_quiet.
Qed.

(** C5 (amended): on a successful run the archive holds one entry per
    distinct entry name, in the order in which the names first occur among
    the groups; each group's entry name is its key with every one of the nine
    characters replaced by an underscore and the extension appended, and is
    present in the archive; no entry name holds one of the nine characters;
    the entry count never exceeds the group count and equals it exactly when
    the groups' entry names are pairwise distinct; an entry holds the
    workbook of the last group written under its name. *)
Theorem archive_entries file hubName wb jsonData groupedData :
  XLSX_read file = Ok wb -> sheet_to_json wb = Ok jsonData ->
  groupByFleeName (deliveredData jsonData) = Ok groupedData ->
  succeeds (run (Some file) hubName) ->
  exists zip,
    downloads (run (Some file) hubName) = [(hubName +:+ ".zip", zip)]
    /\ JSObject.keys zip
       = firstOccurrences (entryName <$> JSObject.keys groupedData)
    /\ (forall k, k ∈ JSObject.keys groupedData ->
          entryName k = JSString.replaceClass illegalChars "_" k +:+ ".xlsx"
          /\ entryName k ∈ JSObject.keys zip)
    /\ Forall (fun name => JSString.containsAny illegalChars name = false
                /\ exists k, k ∈ JSObject.keys groupedData /\ name = entryName k)
         (JSObject.keys zip)
    /\ length (JSObject.keys zip) <= length (JSObject.keys groupedData)
    /\ (length (JSObject.keys zip) = length (JSObject.keys groupedData)
        <-> NoDup (entryName <$> JSObject.keys groupedData))
    /\ (forall gs1 k data gs2,
          JSObject.entries groupedData = gs1 ++ (k, data) :: gs2 ->
          Forall (fun group => entryName group.1 <> entryName k) gs2 ->
          JSObject.getOwn zip (entryName k)
          = Some (workbookOf (firstSheetName wb) data)).
Proof.
  intros Hread Hsheet Hgroup
    (wb' & firstRow & rest & g & Hread' & Hsheet' & _ & _ & Hgroup' & _ & Ht)%succeeds_inv.
  assert (wb' = wb) as -> by congruence.
  assert (jsonData = firstRow :: rest) as -> by congruence.
  assert (g = groupedData) as -> by congruence.
  eexists. rewrite Ht, success_form_downloads. split; [done|].
  rewrite archive_keys. fold (JSObject.keys groupedData).
  pose proof (firstOccurrences_length (entryName <$> JSObject.keys groupedData))
    as [Hle Heq].
  rewrite length_fmap in Hle, Heq.
  split_and!; [done| | |done..|].
  - intros k Hk. split.
    + unfold entryName. rewrite <-(group_keys_trimmed _ _ _ Hgroup Hk).
      by rewrite cleanName_trim.
    + apply firstOccurrences_elem_of. by apply list_elem_of_fmap_2.
  - apply Forall_forall. intros name Hname.
    apply firstOccurrences_elem_of, list_elem_of_fmap in Hname as (k & -> & Hk).
    split; [apply entryName_legal|eauto].
  - intros gs1 k data gs2 -> Hgs2. by apply archive_last_write.
Qed.

(** C6 (amended): on a successful run the statistics carry the number of
    filtered rows, the number of groups, and the first ten group keys in the
    enumeration order of the groups; the list has as many names as there are
    groups when there are at most ten, and ten names otherwise. *)
Theorem published_statistics file hubName wb jsonData groupedData :
  XLSX_read file = Ok wb -> sheet_to_json wb = Ok jsonData ->
  groupByFleeName (deliveredData jsonData) = Ok groupedData ->
  succeeds (run (Some file) hubName) ->
  exists s,
    publishedStats (run (Some file) hubName) = [s]
    /\ totalRows s = length (deliveredData jsonData)
    /\ uniqueFiles s = length (JSObject.keys groupedData)
    /\ fileNames s = take 10 (JSObject.keys groupedData)
    /\ length (fileNames s) = Nat.min 10 (uniqueFiles s)
    /\ (uniqueFiles s <= 10 -> fileNames s = JSObject.keys groupedData).
Proof.
  intros Hread Hsheet Hgroup
    (wb' & firstRow & rest & g & Hread' & Hsheet' & _ & _ & Hgroup' & _ & Ht)%succeeds_inv.
  assert (wb' = wb) as -> by congruence.
  assert (jsonData = firstRow :: rest) as -> by congruence.
  assert (g = groupedData) as -> by congruence.
  eexists. rewrite Ht, success_form_publishedStats. split; [done|].
  cbn [totalRows uniqueFiles fileNames]. unfold firstTen. split_and!; [done..| |].
  - apply length_take.
  - intros Hle. by apply take_ge.
Qed.

Lemma percents_percentAt n (l : list nat) :
  percents (percentAt n <$> l) = (fun i => progressPercent i n) <$> l.
Proof. unfold percents. induction l as [|i l IH]; csimpl; [done|]. by rewrite IH. Qed.

Lemma groups_nonempty rows groupedData :
  groupByFleeName rows = Ok groupedData -> rows <> [] ->
  0 < length (JSObject.keys groupedData).
Proof.
  intros ->%groupByFleeName_Ok Hrows. rewrite groupsInOrder_keys.
  destruct rows as [|row rows]; [done|]. simpl. lia.
Qed.

(** C9: the percentages shown by a successful run are 10, 25, 40, 50, 60,
    then one value per group written, computed in double arithmetic from
    processedFiles / fileCount, each between 60 and 90 and the last one 90,
    then 95 and 100; the whole sequence never decreases, and the progress
    text is not reset in between. The value shown after processedFiles of
    fileCount groups is in proportion to processedFiles / fileCount: it is
    within a half and 2^-46 of 60 + 30 * processedFiles / fileCount, and it
    is that number whenever that number is an integer. *)
Theorem progress_never_decreases file hubName wb jsonData groupedData :
  XLSX_read file = Ok wb -> sheet_to_json wb = Ok jsonData ->
  groupByFleeName (deliveredData jsonData) = Ok groupedData ->
  succeeds (run (Some file) hubName) ->
  let t := run (Some file) hubName in
  let fileCount := length (JSObject.keys groupedData) in
  let exported := (fun i => progressPercent i fileCount) <$> seq 1 fileCount in
  0 < fileCount
  /\ percents t = [10; 25; 40; 50; 60]%Z ++ exported ++ [95; 100]%Z
  /\ StronglySorted Z.le (percents t)
  /\ Forall (fun z => (60 <= z <= 90)%Z) exported
  /\ last exported = Some 90%Z
  /\ Forall (fun e => e <> SetProgress NoProgress) t
  /\ Forall (fun processedFiles =>
               let exact :=
                 (60 + 30 * (inject_Z (Z.of_nat processedFiles)
                             / inject_Z (Z.of_nat fileCount)))%Q in
               (exact - (1 # 2) - 2 ^ (-46)
                < inject_Z (progressPercent processedFiles fileCount))%Q
               /\ (inject_Z (progressPercent processedFiles fileCount)
                   <= exact + (1 # 2) + 2 ^ (-46))%Q
               /\ (forall k : Z, (exact == inject_Z k)%Q ->
                     progressPercent processedFiles fileCount = k))
       (seq 1 fileCount).
Proof.
  intros Hread Hsheet Hgroup
    (wb' & firstRow & rest & g & Hread' & Hsheet' & _ & Hne & Hgroup' & _ & Ht)%succeeds_inv.
  assert (wb' = wb) as -> by congruence.
  assert (jsonData = firstRow :: rest) as -> by congruence.
  assert (g = groupedData) as -> by congruence.
  intros t fileCount exported.
  assert (0 < fileCount) as Hcount by (by eapply groups_nonempty).
  assert (Forall (fun processedFiles =>
               let exact :=
                 (60 + 30 * (inject_Z (Z.of_nat processedFiles)
                             / inject_Z (Z.of_nat fileCount)))%Q in
               (exact - (1 # 2) - 2 ^ (-46)
                < inject_Z (progressPercent processedFiles fileCount))%Q
               /\ (inject_Z (progressPercent processedFiles fileCount)
                   <= exact + (1 # 2) + 2 ^ (-46))%Q
               /\ (forall k : Z, (exact == inject_Z k)%Q ->
                     progressPercent processedFiles fileCount = k))
            (seq 1 fileCount)) as Hclose.
  { apply Forall_forall. intros i [Hi1 Hi2]%elem_of_seq.
    apply progressPercent_close; lia. }
  assert (Forall (fun z => (60 <= z <= 90)%Z) exported) as Hbounds.
  { apply Forall_fmap, Forall_forall. intros i [Hi1 Hi2]%elem_of_seq.
    cbv beta. unfold compose. apply progressPercent_bounds; lia. }
  assert (percents t = [10; 25; 40; 50; 60]%Z ++ exported ++ [95; 100]%Z) as Hp.
  { unfold t. rewrite Ht. unfold percents. rewrite !omap_app.
    fold (percents (percentAt fileCount <$> seq 1 fileCount)).
    by rewrite percents_percentAt. }
  split_and!; [done..| |done| | |done].
  - rewrite Hp. apply StronglySorted_app_2.
    + intros x1 x2 Hx1 Hx2. assert (x1 <= 60)%Z.
      { repeat (apply elem_of_cons in Hx1 as [->|Hx1]; [lia|]).
        by apply elem_of_nil in Hx1. }
      assert (60 <= x2)%Z; [|lia].
      apply elem_of_app in Hx2 as [Hx2|Hx2].
      * eapply Forall_forall in Hbounds; [|done]. lia.
      * repeat (apply elem_of_cons in Hx2 as [->|Hx2]; [lia|]).
        by apply elem_of_nil in Hx2.
    + repeat first [apply SSorted_nil | apply SSorted_cons
                   | apply List.Forall_nil | apply List.Forall_cons; [lia|] ].
    + apply StronglySorted_app_2.
      * intros x1 x2 Hx1 Hx2.
        eapply Forall_forall in Hbounds; [|done].
        repeat (apply elem_of_cons in Hx2 as [->|Hx2]; [lia|]).
        by apply elem_of_nil in Hx2.
      * apply StronglySorted_fmap_seq. intros i j Hij.
        by apply progressPercent_mono.
      * repeat first [apply SSorted_nil | apply SSorted_cons
                     | apply List.Forall_nil | apply List.Forall_cons; [lia|] ].
  - unfold exported. rewrite last_fmap_seq by done. f_equal.
    by apply progressPercent_full.
  - unfold t. rewrite Ht. repeat (apply Forall_cons; split; [done|]).
    apply Forall_app. split.
    + apply Forall_fmap, Forall_forall. by intros i _.
    + by repeat (apply Forall_cons; split; [done|]).
Qed.

End PipelineFacts.

(** ** The first row of every group *)

(** C10: every group of a completed partition holds at least one row, so
    the projected sequence has an element 0 and the column widths derived
    from it are computed without a fault, one width per remaining column. *)
Theorem groups_are_nonempty (rows : list Row) (groupedData : Groups) :
  groupByFleeName rows = Ok groupedData ->
  Forall (fun group =>
            group.2 <> []
            /\ exists first cols,
                 head (removeColumns <$> group.2) = Some first
                 /\ colWidths (removeColumns <$> group.2) = Ok cols
                 /\ length cols = length (JSObject.keys first))
    (JSObject.entries groupedData).
Proof.
  intros Hgroup. pose proof Hgroup as ->%groupByFleeName_Ok.
  rewrite groupsInOrder_entries. apply Forall_fmap, Forall_forall.
  intros k (row & -> & Hrow)%(group_keys _ _ _ Hgroup). simpl.
  assert (row ∈ rowsKeyed (fleeNameOf row) rows) as Hin.
  { unfold rowsKeyed. by apply list_elem_of_filter. }
  destruct (rowsKeyed (fleeNameOf row) rows) as [|first data];
    [by apply elem_of_nil in Hin|].
  split; [done|]. eexists _, _. csimpl. split_and!; [done..|].
  by rewrite length_fmap.
Qed.

(** ** The properties on sample inputs *)


(** Cells padded with NO-BREAK SPACE and IDEOGRAPHIC SPACE, or spelled with
    the dotless i, are kept, and a courier name between a ZERO WIDTH NO-BREAK
    SPACE and an EM SPACE is keyed without them; a status with the dotted
    capital I or with a ZERO WIDTH SPACE at its end is dropped. *)
Lemma deliveredData_paddedSheet :
  deliveredData paddedSheet = take 2 paddedSheet
  /\ fleeNameOf <$> deliveredData paddedSheet = ["CourierX"; "CourierX"]
  /\ Forall (fun row => spellsDelivered (JSString.trim (statusCell row)))
       (deliveredData paddedSheet).
Proof.
  split_and!; [by vm_compute..|].
  apply Forall_forall. intros row [Hrow _]%list_elem_of_filter.
  rewrite isDelivered_spec in Hrow.
  by apply statusIsDelivered_spells, Is_true_true.
Qed.

Lemma groups_partition_and_order_witness :
  groupByFleeName numericSheet = Ok (groupsInOrder numericSheet)
  /\ JSObject.keys (groupsInOrder numericSheet)
     ≡ₚ firstOccurrences (fleeNameOf <$> numericSheet).
Proof.
  split; [reflexivity|].
  destruct (groups_partition_and_order numericSheet (groupsInOrder numericSheet)
              eq_refl) as (_ & _ & _ & _ & Hperm & _).
  exact Hperm.
Defined.

(** C3 as stated fails: a numeric key seen second is enumerated first. *)
Lemma groups_order_counterexample :
  exists groupedData,
    groupByFleeName numericSheet = Ok groupedData
    /\ firstOccurrences (fleeNameOf <$> numericSheet) = ["B"; "1"]
    /\ JSObject.keys groupedData = ["1"; "B"]
    /\ JSObject.keys groupedData <> firstOccurrences (fleeNameOf <$> numericSheet).
Proof. eexists. split_and!; [reflexivity..|]. by vm_compute. Qed.

Lemma removeColumns_spec_witness :
  NoDup (sampleRow "CourierX" "DELIVERED").*1
  /\ JSObject.entries (removeColumns (sampleRow "CourierX" "DELIVERED"))
     = [("Tracking", "T-1"); ("FleeName", "CourierX"); ("FinalStatus", "DELIVERED")].
Proof.
  assert (NoDup (sampleRow "CourierX" "DELIVERED").*1) as Hnd.
  { apply (bool_decide_unpack (NoDup _)). vm_compute. exact I. }
  split; [exact Hnd|].
  rewrite (proj1 (removeColumns_spec (sampleRow "CourierX" "DELIVERED") Hnd)).
  reflexivity.
Defined.

Lemma archive_entries_witness :
  succeeds (sampleRun mixedSheet)
  /\ exists zip,
       downloads (sampleRun mixedSheet) = [("HUB.zip", zip)]
       /\ JSObject.keys zip = ["CourierX.xlsx"; "Other.xlsx"].
Proof.
  assert (succeeds (sampleRun mixedSheet)) as Hok
    by (intros st; vm_compute; reflexivity).
  split; [exact Hok|].
  destruct (archive_entries sampleRead sampleSheetName sampleRead sampleWrite
              sampleGenerate mixedSheet "HUB" mixedSheet mixedSheet
              (groupsInOrder (deliveredData mixedSheet))
              eq_refl eq_refl eq_refl Hok)
    as (zip & Hdownloads & Hkeys & _).
  exists zip. split; [exact Hdownloads|]. rewrite Hkeys. reflexivity.
Defined.

(** C5 as stated fails: two groups whose names are sanitised to the same
    text leave a single entry in the archive. *)
Lemma archive_entries_counterexample :
  exists groupedData zip,
    groupByFleeName (deliveredData collidingSheet) = Ok groupedData
    /\ succeeds (sampleRun collidingSheet)
    /\ downloads (sampleRun collidingSheet) = [("HUB.zip", zip)]
    /\ JSObject.keys groupedData = ["A/B"; "A:B"]
    /\ JSObject.keys zip = ["A_B.xlsx"]
    /\ length (JSObject.keys zip) <> length (JSObject.keys groupedData).
Proof.
  eexists _, _.
  split_and!; [reflexivity|intros st; vm_compute; reflexivity|
               vm_compute; reflexivity|reflexivity..|].
  by vm_compute.
Qed.

Lemma published_statistics_witness :
  succeeds (sampleRun mixedSheet)
  /\ exists s,
       publishedStats (sampleRun mixedSheet) = [s]
       /\ totalRows s = 3 /\ uniqueFiles s = 2
       /\ fileNames s = ["CourierX"; "Other"].
Proof.
  assert (succeeds (sampleRun mixedSheet)) as Hok
    by (intros st; vm_compute; reflexivity).
  split; [exact Hok|].
  destruct (published_statistics sampleRead sampleSheetName sampleRead sampleWrite
              sampleGenerate mixedSheet "HUB" mixedSheet mixedSheet
              (groupsInOrder (deliveredData mixedSheet))
              eq_refl eq_refl eq_refl Hok)
    as (s & Hs & Hrows & Hfiles & Hnames & _).
  exists s. split; [exact Hs|].
  rewrite Hrows, Hfiles, Hnames. split_and!; reflexivity.
Defined.

(** C6 as stated fails: with eleven groups the reported list has ten names. *)
Lemma published_statistics_counterexample :
  exists s,
    succeeds (sampleRun elevenSheet)
    /\ publishedStats (sampleRun elevenSheet) = [s]
    /\ uniqueFiles s = 11
    /\ length (fileNames s) = 10.
Proof.
  exists {| totalRows := 11; uniqueFiles := 11;
            fileNames := ["a"; "b"; "c"; "d"; "e"; "f"; "g"; "h"; "i"; "j"] |}.
  split_and!; [intros st|..]; vm_compute; reflexivity.
Qed.

Lemma no_matches_and_fail_fast_witness :
  Forall (fun row => statusIsDelivered row = false) inTransitSheet
  /\ failsWith (sampleRun inTransitSheet) NoDeliveredRecords
  /\ downloads (sampleRun inTransitSheet) = [].
Proof.
  assert (Forall (fun row => statusIsDelivered row = false) inTransitSheet) as Hrows.
  { repeat constructor. }
  destruct (no_matches_and_fail_fast sampleRead sampleSheetName sampleRead
              sampleWrite sampleGenerate inTransitSheet "HUB")
    as [Hnone Hfast].
  split; [exact Hrows|]. split.
  - exact (Hnone inTransitSheet _ _ eq_refl eq_refl eq_refl Hrows).
  - vm_compute. reflexivity.
Defined.

(** C8 as stated fails: when the first row has no FleeName property the run
    ends with the missing-column text although no row passes the filter. *)
Lemma no_matches_counterexample :
  Forall (fun row => statusIsDelivered row = false) noColumnSheet
  /\ failsWith (sampleRun noColumnSheet) ColumnFleeNameNotFound
  /\ ~ failsWith (sampleRun noColumnSheet) NoDeliveredRecords.
Proof.
  split_and!.
  - repeat constructor.
  - intros st. vm_compute. split; reflexivity.
  - intros Hfail. destruct (Hfail initialState) as [_ Hm].
    vm_compute in Hm. discriminate Hm.
Qed.

Lemma progress_never_decreases_witness :
  succeeds (sampleRun mixedSheet)
  /\ percents (sampleRun mixedSheet) = [10; 25; 40; 50; 60; 75; 90; 95; 100]%Z
  /\ StronglySorted Z.le (percents (sampleRun mixedSheet)).
Proof.
  assert (succeeds (sampleRun mixedSheet)) as Hok
    by (intros st; vm_compute; reflexivity).
  split; [exact Hok|].
  destruct (progress_never_decreases sampleRead sampleSheetName sampleRead
              sampleWrite sampleGenerate mixedSheet "HUB" mixedSheet
              mixedSheet (groupsInOrder (deliveredData mixedSheet))
              eq_refl eq_refl eq_refl Hok)
    as (_ & _ & Hsorted & _).
  split; [vm_compute; reflexivity|exact Hsorted].
Defined.

Lemma groups_are_nonempty_witness :
  groupByFleeName (deliveredData mixedSheet)
  = Ok (groupsInOrder (deliveredData mixedSheet))
  /\ Forall (fun group => group.2 <> [])
       (JSObject.entries (groupsInOrder (deliveredData mixedSheet))).
Proof.
  split; [reflexivity|].
  eapply Forall_impl;
    [exact (groups_are_nonempty (deliveredData mixedSheet)
              (groupsInOrder (deliveredData mixedSheet)) eq_refl)|].
  intros group [Hne _]. exact Hne.
Defined.

(** * Further properties *)

(** ** Names that object literals inherit *)

Lemma isPrototypeKey_elem_of k :
  JSObject.isPrototypeKey k = true <-> k ∈ JSObject.prototypeKeys.
Proof.
  unfold JSObject.isPrototypeKey. rewrite existsb_exists. split.
  - intros (k' & Hin%list_elem_of_In & ->%String.eqb_eq). done.
  - intros Hin. exists k. split; [by apply list_elem_of_In|apply String.eqb_refl].
Qed.

Lemma keysAreOwnable_false rows :
  keysAreOwnable rows = false
  <-> exists row, row ∈ rows /\ fleeNameOf row ∈ JSObject.prototypeKeys.
Proof.
  unfold keysAreOwnable. induction rows as [|row rows IH]; simpl.
  - split; [done|]. intros (row & Hrow%elem_of_nil & _). done.
  - rewrite andb_false_iff, negb_false_iff, IH, isPrototypeKey_elem_of. split.
    + intros [Hk|(row' & Hrow' & Hk)].
      * exists row. split; [apply list_elem_of_here|done].
      * exists row'. split; [by apply list_elem_of_further|done].
    + intros (row' & [->|Hrow']%elem_of_cons & Hk); eauto.
Qed.

(** X1: grouping throws a TypeError exactly when some row is keyed by the
    name of a member of Object.prototype (constructor, toString, valueOf,
    ...): the read of [groupedData[fleeName]] then finds the inherited member
    and [push] is not a function of it. With no such row grouping completes. *)
Theorem grouping_throws_on_prototype_names (rows : list Row) :
  (groupByFleeName rows
   = Raise (TypeError "groupedData[fleeName].push is not a function")
   <-> exists row, row ∈ rows /\ fleeNameOf row ∈ JSObject.prototypeKeys)
  /\ ((exists groupedData, groupByFleeName rows = Ok groupedData)
      <-> forall row, row ∈ rows -> fleeNameOf row ∉ JSObject.prototypeKeys)
  /\ (forall e, groupByFleeName rows = Raise e ->
        e = TypeError "groupedData[fleeName].push is not a function").
Proof.
  rewrite groupByFleeName_spec.
  pose proof (keysAreOwnable_false rows) as Hfalse.
  destruct (keysAreOwnable rows) eqn:Hrows; split_and!.
  - split; [done|]. intros Hex%Hfalse. done.
  - split; [|eauto]. intros _ row Hrow Hk.
    assert (true = false); [|done]. apply Hfalse. eauto.
  - done.
  - split; [|done]. intros _. by apply Hfalse.
  - split; [by intros [? ?]|]. intros Hall.
    destruct (proj1 Hfalse eq_refl) as (row & Hrow & Hk). by destruct (Hall row).
  - by intros e [= <-].
Qed.

Section MorePipelineFacts.
Context {payload workbook : Type}.
Context (XLSX_read : payload -> result workbook)
        (firstSheetName : workbook -> string)
        (sheet_to_json : workbook -> result (list Row))
        (XLSX_write : Workbook -> result unit)
        (generateAsync : Zip -> result unit).

Local Abbreviation run :=
  (processExcel XLSX_read firstSheetName sheet_to_json XLSX_write generateAsync).
Local Abbreviation percentAt n := (fun i => SetProgress (Percent (progressPercent i n))).

Lemma deliveredData_nonempty (rows : list Row) row :
  row ∈ rows -> isDelivered row = true ->
  (length (deliveredData rows) =? 0)%nat = false.
Proof.
  intros Hrow Hd. apply Nat.eqb_neq.
  assert (row ∈ deliveredData rows) as Hin.
  { unfold deliveredData. apply list_elem_of_filter. split; [|done]. by rewrite Hd. }
  destruct (deliveredData rows); [by apply elem_of_nil in Hin|done].
Qed.

(** X2: one DELIVERED row keyed by the name of a member of Object.prototype
    makes the whole run fail, whatever the other rows are: the run shows 10,
    25, 40 and 50 percent, then reports the TypeError as a processing failure
    and clears the progress; nothing is downloaded. *)
Theorem prototype_name_fails_the_run file hubName wb firstRow rest row :
  XLSX_read file = Ok wb -> sheet_to_json wb = Ok (firstRow :: rest) ->
  JSObject.hasOwnProperty firstRow "FleeName" = true ->
  row ∈ firstRow :: rest -> isDelivered row = true ->
  fleeNameOf row ∈ JSObject.prototypeKeys ->
  run (Some file) hubName
  = [ SetStatus ReadingFile; SetStatusType processing; SetProgress (Percent 10);
      SetProgress (Percent 25); SetProgress (Percent 40);
      SetStatus GroupingData; SetProgress (Percent 50);
      SetStatus (ProcessingFailed
                   (TypeError "groupedData[fleeName].push is not a function"));
      SetStatusType error; SetProgress NoProgress ].
Proof.
  intros Hread Hsheet Hcol Hrow Hd Hk.
  rewrite processExcel_unfold, Hread, Hsheet, Hcol. simpl negb. cbv iota.
  rewrite (deliveredData_nonempty _ row) by done.
  rewrite groupByFleeName_spec.
  replace (keysAreOwnable (deliveredData (firstRow :: rest))) with false; [done|].
  symmetry. apply keysAreOwnable_false. exists row. split; [|done].
  unfold deliveredData. apply list_elem_of_filter. split; [|done]. by rewrite Hd.
Qed.

End MorePipelineFacts.

Lemma prototype_name_fails_the_run_witness :
  failsWith (sampleRun prototypeSheet)
    (ProcessingFailed (TypeError "groupedData[fleeName].push is not a function"))
  /\ downloads (sampleRun prototypeSheet) = [].
Proof.
  unfold sampleRun.
  rewrite (prototype_name_fails_the_run sampleRead sampleSheetName sampleRead
             sampleWrite sampleGenerate prototypeSheet "HUB" prototypeSheet
             (sampleRow "CourierX" "DELIVERED")
             [sampleRow "constructor" "DELIVERED"]
             (sampleRow "constructor" "DELIVERED")
             eq_refl eq_refl eq_refl).
  - split; [intros st; split; reflexivity|reflexivity].
  - apply list_elem_of_further, list_elem_of_here.
  - reflexivity.
  - unfold JSObject.prototypeKeys. apply list_elem_of_here.
Defined.

(** ** Failures after the grouping *)

Lemma entries_nonempty rows groupedData :
  groupByFleeName rows = Ok groupedData ->
  Forall (fun group : string * list Row => group.2 <> [])
    (JSObject.entries groupedData).
Proof.
  intros Hgroup. pose proof Hgroup as ->%groupByFleeName_Ok.
  rewrite groupsInOrder_entries. apply Forall_fmap, Forall_forall.
  intros k (row & -> & Hrow)%(group_keys _ _ _ Hgroup). simpl.
  assert (row ∈ rowsKeyed (fleeNameOf row) rows) as Hin.
  { unfold rowsKeyed. by apply list_elem_of_filter. }
  intros Hnil. rewrite Hnil in Hin. by apply elem_of_nil in Hin.
Qed.

Section ExportFacts.
Context {payload workbook : Type}.
Context (XLSX_read : payload -> result workbook)
        (firstSheetName : workbook -> string)
        (sheet_to_json : workbook -> result (list Row))
        (XLSX_write : Workbook -> result unit)
        (generateAsync : Zip -> result unit).

Local Abbreviation run :=
  (processExcel XLSX_read firstSheetName sheet_to_json XLSX_write generateAsync).
Local Abbreviation percentAt n := (fun i => SetProgress (Percent (progressPercent i n))).
Local Abbreviation written sheetName :=
  (fun group : string * list Row =>
     XLSX_write (workbookOf sheetName group.2) = Ok tt).

Ltac unfold_commands :=
  unfold mbind, M_bind, bind, mret, M_ret, ret, lift, emit, exit, tryCatch.

Lemma workbookOf_nonempty sheetName (data : list Row) :
  data <> [] ->
  exists cols, colWidths (removeColumns <$> data) = Ok cols
    /\ workbookOf sheetName data = mkWorkbook sheetName (removeColumns <$> data) cols.
Proof.
  intros Hdata. destruct data as [|row data]; [done|].
  eexists. split; [done|]. done.
Qed.

(** The export loop on groups that hold a row each: either every workbook
    is written and the archive is complete, or the loop stops at the first
    workbook that cannot be written. *)
Lemma exportGroups_cases sheetName n gs zip p :
  Forall (fun group : string * list Row => group.2 <> []) gs ->
  (Forall (written sheetName) gs
   /\ exportGroups XLSX_write sheetName n gs zip p
      = (percentAt n <$> seq (S p) (length gs),
         Normal (foldl (addEntry sheetName) zip gs)))
  \/ (exists gs1 k data gs2 e,
        gs = gs1 ++ (k, data) :: gs2
        /\ Forall (written sheetName) gs1
        /\ XLSX_write (workbookOf sheetName data) = Raise e
        /\ exportGroups XLSX_write sheetName n gs zip p
           = (percentAt n <$> seq (S p) (length gs1), Throw e)).
Proof.
  intros Hgs. revert zip p.
  induction Hgs as [|[k data] gs Hdata _ IH]; intros zip p.
  - left. by split.
  - simpl in Hdata.
    destruct (workbookOf_nonempty sheetName data Hdata) as (cols & Hcols & Hwb).
    simpl. unfold_commands. rewrite Hcols, <-Hwb.
    destruct (XLSX_write (workbookOf sheetName data)) as [[]|e] eqn:Hwrite.
    + destruct (IH (JSObject.set zip (entryName k) (workbookOf sheetName data)) (S p))
        as [[Hall ->]|(gs1 & k' & data' & gs2 & e & -> & Hall & Hfail & ->)].
      * left. split; [by constructor|done].
      * right. exists ((k, data) :: gs1), k', data', gs2, e.
        split_and!; [done|by constructor|done..].
    + right. exists [], k, data, gs, e. by split_and!.
Qed.

Lemma percents_app t1 t2 : percents (t1 ++ t2) = percents t1 ++ percents t2.
Proof. unfold percents. apply omap_app. Qed.

Lemma downloads_app t1 t2 : downloads (t1 ++ t2) = downloads t1 ++ downloads t2.
Proof. unfold downloads. apply omap_app. Qed.

Lemma written_unique sheetName (gs1 gs1' : list (string * list Row))
    k data k' data' gs2 gs2' e e' :
  gs1 ++ (k, data) :: gs2 = gs1' ++ (k', data') :: gs2' ->
  Forall (written sheetName) gs1 -> Forall (written sheetName) gs1' ->
  XLSX_write (workbookOf sheetName data) = Raise e ->
  XLSX_write (workbookOf sheetName data') = Raise e' ->
  length gs1 = length gs1' /\ e = e'.
Proof.
  revert gs1'. induction gs1 as [|g gs1 IH]; intros [|g' gs1'] Heq H1 H1' He He'.
  - injection Heq as -> -> ->. split; [done|]. congruence.
  - injection Heq as <- _. apply Forall_cons in H1' as [Hw _]. simpl in Hw.
    congruence.
  - injection Heq as -> _. apply Forall_cons in H1 as [Hw _]. simpl in Hw.
    congruence.
  - injection Heq as -> Heq.
    apply Forall_cons in H1 as [_ H1]. apply Forall_cons in H1' as [_ H1'].
    destruct (IH gs1' Heq H1 H1' He He') as [Hlen ->]. simpl. by rewrite Hlen.
Qed.

(** The events of a run that stops at a workbook that cannot be written. *)
Lemma write_failure_form file hubName wb firstRow rest groupedData gs1 k data gs2 e :
  XLSX_read file = Ok wb -> sheet_to_json wb = Ok (firstRow :: rest) ->
  JSObject.hasOwnProperty firstRow "FleeName" = true ->
  groupByFleeName (deliveredData (firstRow :: rest)) = Ok groupedData ->
  JSObject.entries groupedData = gs1 ++ (k, data) :: gs2 ->
  Forall (written (firstSheetName wb)) gs1 ->
  XLSX_write (workbookOf (firstSheetName wb) data) = Raise e ->
  let fileCount := length (JSObject.keys groupedData) in
  run (Some file) hubName
  = ([SetStatus ReadingFile; SetStatusType processing;
      SetProgress (Percent 10); SetProgress (Percent 25);
      SetProgress (Percent 40); SetStatus GroupingData;
      SetProgress (Percent 50); SetStatus (GeneratingFiles fileCount);
      SetProgress (Percent 60)]
     ++ (percentAt fileCount <$> seq 1 (length gs1)))
    ++ [SetStatus (ProcessingFailed e); SetStatusType error;
        SetProgress NoProgress].
Proof.
  intros Hread Hsheet Hcol Hgroup Hentries Hwritten Hfail fileCount.
  assert (deliveredData (firstRow :: rest) <> []) as Hne.
  { intros Hnil. rewrite Hnil in Hgroup. injection Hgroup as <-.
    by destruct gs1. }
  rewrite processExcel_unfold, Hread, Hsheet, Hcol. simpl negb. cbv iota.
  replace (length (deliveredData (firstRow :: rest)) =? 0)%nat with false
    by (symmetry; apply Nat.eqb_neq; by destruct (deliveredData _)).
  rewrite Hgroup. cbv zeta. fold fileCount.
  destruct (exportGroups_cases (firstSheetName wb) fileCount
              (JSObject.entries groupedData) JSObject.empty 0
              (entries_nonempty _ _ Hgroup))
    as [[Hall _]|(gs1' & k' & data' & gs2' & e' & Heq & Hall & Hfail' & ->)].
  - rewrite Hentries in Hall. apply Forall_app in Hall as [_ Hall].
    apply Forall_cons in Hall as [Hw _]. simpl in Hw. congruence.
  - rewrite Hentries in Heq.
    destruct (written_unique _ _ _ _ _ _ _ _ _ _ _ Heq Hwritten Hall Hfail Hfail')
      as [<- <-]. cbn [fst snd]. by rewrite <-app_assoc.
Qed.

Lemma export_prefix_quiet n m (l : list nat) :
  Forall (fun e => quiet e)
    ([SetStatus ReadingFile; SetStatusType processing;
      SetProgress (Percent 10); SetProgress (Percent 25);
      SetProgress (Percent 40); SetStatus GroupingData;
      SetProgress (Percent 50); SetStatus (GeneratingFiles m);
      SetProgress (Percent 60)]
     ++ (percentAt n <$> l)).
Proof. apply Forall_app. split; [by repeat constructor|apply percentAt_quiet]. Qed.

(** X3: when the workbook of a group cannot be written, the run stops at
    that group: it has shown one percentage for each group written before,
    reports the exception as a processing failure, downloads nothing - the
    workbooks already written are dropped with the archive - and publishes
    no statistics. *)
Theorem write_failure_stops_the_run
    file hubName wb firstRow rest groupedData gs1 k data gs2 e :
  XLSX_read file = Ok wb -> sheet_to_json wb = Ok (firstRow :: rest) ->
  JSObject.hasOwnProperty firstRow "FleeName" = true ->
  groupByFleeName (deliveredData (firstRow :: rest)) = Ok groupedData ->
  JSObject.entries groupedData = gs1 ++ (k, data) :: gs2 ->
  Forall (written (firstSheetName wb)) gs1 ->
  XLSX_write (workbookOf (firstSheetName wb) data) = Raise e ->
  let t := run (Some file) hubName in
  let fileCount := length (JSObject.keys groupedData) in
  failsWith t (ProcessingFailed e)
  /\ percents t
     = [10; 25; 40; 50; 60]%Z
       ++ ((fun i => progressPercent i fileCount) <$> seq 1 (length gs1))
  /\ downloads t = []
  /\ publishedStats t = [].
Proof.
  intros Hread Hsheet Hcol Hgroup Hentries Hwritten Hfail t fileCount.
  unfold t.
  rewrite (write_failure_form file hubName wb firstRow rest groupedData
             gs1 k data gs2 e) by done.
  fold fileCount. split_and!.
  - apply failure_form_failsWith.
  - rewrite !percents_app, percents_percentAt. simpl. by rewrite app_nil_r.
  - apply failure_form_downloads, export_prefix_quiet.
  - apply failure_form_publishedStats, export_prefix_quiet.
Qed.

(** X4: when every workbook is written but the archive cannot be generated,
    the run has shown every percentage up to 95, reports the exception as a
    processing failure, downloads nothing and publishes no statistics. *)
Theorem packaging_failure_stops_the_run
    file hubName wb firstRow rest groupedData e :
  XLSX_read file = Ok wb -> sheet_to_json wb = Ok (firstRow :: rest) ->
  JSObject.hasOwnProperty firstRow "FleeName" = true ->
  deliveredData (firstRow :: rest) <> [] ->
  groupByFleeName (deliveredData (firstRow :: rest)) = Ok groupedData ->
  Forall (written (firstSheetName wb)) (JSObject.entries groupedData) ->
  generateAsync (foldl (addEntry (firstSheetName wb)) JSObject.empty
                   (JSObject.entries groupedData)) = Raise e ->
  let t := run (Some file) hubName in
  let fileCount := length (JSObject.keys groupedData) in
  failsWith t (ProcessingFailed e)
  /\ percents t
     = [10; 25; 40; 50; 60]%Z
       ++ ((fun i => progressPercent i fileCount) <$> seq 1 fileCount)
       ++ [95]%Z
  /\ downloads t = []
  /\ publishedStats t = [].
Proof.
  intros Hread Hsheet Hcol Hne Hgroup Hwritten Hfail t fileCount.
  assert (length (JSObject.entries groupedData) = fileCount) as Hlen.
  { unfold fileCount, JSObject.keys. by rewrite length_fmap. }
  assert (run (Some file) hubName
          = ([SetStatus ReadingFile; SetStatusType processing;
              SetProgress (Percent 10); SetProgress (Percent 25);
              SetProgress (Percent 40); SetStatus GroupingData;
              SetProgress (Percent 50); SetStatus (GeneratingFiles fileCount);
              SetProgress (Percent 60)]
             ++ (percentAt fileCount <$> seq 1 fileCount)
             ++ [SetStatus PackagingFiles; SetProgress (Percent 95)])
            ++ [SetStatus (ProcessingFailed e); SetStatusType error;
                SetProgress NoProgress]) as Ht.
  { rewrite processExcel_unfold, Hread, Hsheet, Hcol. simpl negb. cbv iota.
    replace (length (deliveredData (firstRow :: rest)) =? 0)%nat with false
      by (symmetry; apply Nat.eqb_neq; by destruct (deliveredData _)).
    rewrite Hgroup. cbv zeta. fold fileCount.
    destruct (exportGroups_cases (firstSheetName wb) fileCount
                (JSObject.entries groupedData) JSObject.empty 0
                (entries_nonempty _ _ Hgroup))
      as [[_ ->]|(gs1' & k' & data' & gs2' & e' & Heq & Hall & Hfail' & _)].
    - cbn [fst snd]. rewrite Hfail, Hlen. simpl. by rewrite <-!app_assoc.
    - rewrite Heq in Hwritten. apply Forall_app in Hwritten as [_ Hwritten].
      apply Forall_cons in Hwritten as [Hw _]. simpl in Hw. congruence. }
  assert (Forall (fun e => quiet e)
            ([SetStatus ReadingFile; SetStatusType processing;
              SetProgress (Percent 10); SetProgress (Percent 25);
              SetProgress (Percent 40); SetStatus GroupingData;
              SetProgress (Percent 50); SetStatus (GeneratingFiles fileCount);
              SetProgress (Percent 60)]
             ++ (percentAt fileCount <$> seq 1 fileCount)
             ++ [SetStatus PackagingFiles; SetProgress (Percent 95)])) as Hquiet.
  { apply Forall_app. split; [by repeat constructor|].
    apply Forall_app. split; [apply percentAt_quiet|by repeat constructor]. }
  unfold t. rewrite Ht. split_and!.
  - apply failure_form_failsWith.
  - rewrite !percents_app, percents_percentAt. simpl. by rewrite app_nil_r.
  - by apply failure_form_downloads.
  - by apply failure_form_publishedStats.
Qed.

(** X5: the run ends in success exactly when every stage goes through: the
    payload parses, the first sheet yields a first row that has the FleeName
    property, some row passes the status filter, no group key names an
    inherited member, every workbook is written and the archive is
    generated. *)
Theorem run_succeeds_iff file hubName :
  succeeds (run (Some file) hubName)
  <-> exists wb firstRow rest groupedData,
        XLSX_read file = Ok wb
        /\ sheet_to_json wb = Ok (firstRow :: rest)
        /\ JSObject.hasOwnProperty firstRow "FleeName" = true
        /\ deliveredData (firstRow :: rest) <> []
        /\ groupByFleeName (deliveredData (firstRow :: rest)) = Ok groupedData
        /\ Forall (written (firstSheetName wb)) (JSObject.entries groupedData)
        /\ generateAsync (foldl (addEntry (firstSheetName wb)) JSObject.empty
                            (JSObject.entries groupedData)) = Ok tt.
Proof.
  split.
  - intros Hok. pose proof Hok as
      (wb & firstRow & rest & groupedData & Hread & Hsheet & Hcol & Hne & Hgroup
       & Hzip & _)%succeeds_inv.
    exists wb, firstRow, rest, groupedData. split_and!; try done.
    destruct (exportGroups_cases (firstSheetName wb)
                (length (JSObject.keys groupedData))
                (JSObject.entries groupedData) JSObject.empty 0
                (entries_nonempty _ _ Hgroup))
      as [[Hall _]|(gs1 & k & data & gs2 & e & Heq & Hall & Hfail & _)]; [done|].
    destruct (failsWith_not_succeeds (run (Some file) hubName) (ProcessingFailed e));
      [|done].
    rewrite (write_failure_form file hubName wb firstRow rest groupedData
               gs1 k data gs2 e) by done.
    apply failure_form_failsWith.
  - intros (wb & firstRow & rest & groupedData & Hread & Hsheet & Hcol & Hne
            & Hgroup & Hwritten & Hzip).
    rewrite processExcel_unfold, Hread, Hsheet, Hcol. simpl negb. cbv iota.
    replace (length (deliveredData (firstRow :: rest)) =? 0)%nat with false
      by (symmetry; apply Nat.eqb_neq; by destruct (deliveredData _)).
    rewrite Hgroup. cbv zeta.
    destruct (exportGroups_cases (firstSheetName wb)
                (length (JSObject.keys groupedData))
                (JSObject.entries groupedData) JSObject.empty 0
                (entries_nonempty _ _ Hgroup))
      as [[_ ->]|(gs1' & k' & data' & gs2' & e' & Heq & Hall & Hfail' & _)].
    + cbn [fst snd]. rewrite Hzip.
      intros st. unfold finalState. simpl. rewrite foldl_app. done.
    + rewrite Heq in Hwritten. apply Forall_app in Hwritten as [_ Hwritten].
      apply Forall_cons in Hwritten as [Hw _]. simpl in Hw. congruence.
Qed.

End ExportFacts.

(** ** Sanitised names *)

Section SanitiseFacts.
Import JSString.

Lemma replaceClass_legal cls r s :
  containsAny cls s = false -> replaceClass cls r s = s.
Proof.
  unfold replaceClass. induction s as [|c s IH]; simpl; [done|].
  intros [Hc Hs]%orb_false_iff. by rewrite Hc, IH.
Qed.

Lemma replaceClass_containsAny s :
  containsAny illegalChars (replaceClass illegalChars "_" s) = false.
Proof. apply containsAny_mapChars, charIn_sanitize. Qed.

Lemma cleanName_legal k : containsAny illegalChars (cleanName k) = false.
Proof.
  unfold cleanName. rewrite replaceClass_trim. apply replaceClass_containsAny.
Qed.

Lemma cleanName_id k :
  containsAny illegalChars k = false -> trim k = k -> cleanName k = k.
Proof. intros Hlegal Ht. unfold cleanName. by rewrite replaceClass_legal. Qed.

(** X6: sanitising a name a second time changes nothing; the result holds
    none of the nine characters, has no white space at either end and is
    never longer than the name; a name is left as it is exactly when it holds
    none of the nine characters and has no white space at either end; and the
    result is empty - the entry is then named .xlsx - exactly when the name is
    empty or white space only. *)
Theorem cleanName_properties (fleeName : string) :
  cleanName (cleanName fleeName) = cleanName fleeName
  /\ containsAny illegalChars (cleanName fleeName) = false
  /\ trim (cleanName fleeName) = cleanName fleeName
  /\ String.length (cleanName fleeName) <= String.length fleeName
  /\ (cleanName fleeName = fleeName
      <-> containsAny illegalChars fleeName = false /\ trim fleeName = fleeName)
  /\ (cleanName fleeName = "" <-> isBlank fleeName = true).
Proof.
  assert (trim (cleanName fleeName) = cleanName fleeName) as Htrim
    by apply trim_idem.
  split_and!.
  - unfold cleanName at 1. rewrite replaceClass_legal by apply cleanName_legal.
    done.
  - apply cleanName_legal.
  - done.
  - unfold cleanName. etransitivity; [apply trim_length|].
    unfold replaceClass. by rewrite mapChars_length.
  - split.
    + intros Heq. split; rewrite <-Heq; [apply cleanName_legal|exact Htrim].
    + intros [Hlegal Ht]. by apply cleanName_id.
  - unfold cleanName. rewrite trim_empty. unfold replaceClass.
    by rewrite isBlank_mapChars
      by (apply following_sanitize || apply isWhiteSpaceByte_sanitize).
Qed.

Lemma append_inj_r (a b suffix : string) : a +:+ suffix = b +:+ suffix -> a = b.
Proof.
  revert b. induction a as [|c a IH]; intros [|d b] Heq; simpl in *.
  - done.
  - apply (f_equal String.length) in Heq.
    rewrite !length_append in Heq. simpl in Heq. lia.
  - apply (f_equal String.length) in Heq.
    rewrite !length_append in Heq. simpl in Heq. lia.
  - injection Heq as -> Heq. f_equal. by apply IH.
Qed.

End SanitiseFacts.

Section ArchiveContent.
Context {payload workbook : Type}.
Context (XLSX_read : payload -> result workbook)
        (firstSheetName : workbook -> string)
        (sheet_to_json : workbook -> result (list Row))
        (XLSX_write : Workbook -> result unit)
        (generateAsync : Zip -> result unit).

Local Abbreviation run :=
  (processExcel XLSX_read firstSheetName sheet_to_json XLSX_write generateAsync).
Local Abbreviation percentAt n := (fun i => SetProgress (Percent (progressPercent i n))).

Lemma quiet_stats st t :
  Forall (fun e => quiet e) t -> stats (finalState st t) = stats st.
Proof.
  unfold finalState. intros Ht. revert st.
  induction Ht as [|e t He _ IH]; intros st; [done|].
  simpl. rewrite IH. by destruct e.
Qed.

(** X7: whatever the payload, a run leaves the component either in the
    success state - the progress at 100 percent, the statistics replaced by
    those of the run, the status text that of success with the number of
    groups - or in the error state, with the progress cleared, the text of
    the failure, and the statistics cell as it was before the run. It never
    leaves the component idle or processing. *)
Theorem run_ends_in_success_or_error file hubName st :
  let t := run (Some file) hubName in
  let st' := finalState st t in
  (succeeds t
   /\ statusType st' = success
   /\ progress st' = Percent 100
   /\ exists s, publishedStats t = [s] /\ stats st' = Some s
        /\ status st' = Some (SuccessGenerated (uniqueFiles s)))
  \/ (exists m, failsWith t m
        /\ statusType st' = error
        /\ status st' = Some m
        /\ progress st' = NoProgress
        /\ stats st' = stats st).
Proof.
  intros t st'. unfold st', t.
  destruct (run_cases XLSX_read firstSheetName sheet_to_json XLSX_write
              generateAsync file hubName)
    as [(prefix & m & Ht & Hq & Hcause)
       |(wb & firstRow & rest & groupedData & _ & _ & _ & _ & _ & _ & Ht)].
  - right. exists m. rewrite Ht. split; [apply failure_form_failsWith|].
    unfold finalState. rewrite foldl_app. simpl. split_and!; [done..|].
    by apply quiet_stats.
  - left. rewrite Ht. split.
    { rewrite !app_assoc. apply success_form_succeeds. }
    rewrite success_form_publishedStats.
    unfold finalState. rewrite !foldl_app. simpl. split_and!; [done..|].
    eexists. split_and!; done.
Qed.

(** X8: the statistics of a successful run count at least one group, no more
    groups than filtered rows and no more filtered rows than the sheet has
    rows; the list of names is never longer than the number of groups. *)
Theorem statistics_bounds file hubName wb jsonData :
  XLSX_read file = Ok wb -> sheet_to_json wb = Ok jsonData ->
  succeeds (run (Some file) hubName) ->
  exists s,
    publishedStats (run (Some file) hubName) = [s]
    /\ 1 <= uniqueFiles s
    /\ uniqueFiles s <= totalRows s
    /\ totalRows s <= length jsonData
    /\ length (fileNames s) <= uniqueFiles s.
Proof.
  intros Hread Hsheet
    (wb' & firstRow & rest & g & Hread' & Hsheet' & _ & Hne & Hgroup & _ & Ht)%succeeds_inv.
  assert (wb' = wb) as -> by congruence.
  assert (jsonData = firstRow :: rest) as -> by congruence.
  eexists. rewrite Ht, success_form_publishedStats. split; [done|].
  cbn [totalRows uniqueFiles fileNames]. unfold firstTen.
  pose proof (groups_nonempty _ _ Hgroup Hne).
  split_and!.
  - lia.
  - apply groupByFleeName_Ok in Hgroup as ->.
    rewrite groupsInOrder_keys.
    pose proof (firstOccurrences_length
                  (fleeNameOf <$> deliveredData (firstRow :: rest))) as [Hle _].
    by rewrite length_fmap in Hle.
  - unfold deliveredData. apply length_filter.
  - rewrite length_take. lia.
Qed.

Lemma archive_elem_of sheetName (gs : list (string * list Row)) (zip : Zip) name w :
  (name, w) ∈ foldl (addEntry sheetName) zip gs ->
  (name, w) ∈ zip
  \/ exists group, group ∈ gs /\ name = entryName group.1
       /\ w = workbookOf sheetName group.2.
Proof.
  revert zip. induction gs as [|g gs IH]; intros zip; simpl; [by left|].
  intros [Hin|(group & Hgroup & Hname & Hw)]%IH.
  - unfold addEntry in Hin.
    assert (forall (o : Zip) k v, (name, w) ∈ JSObject.set o k v ->
              (name, w) ∈ o \/ (name, w) = (k, v)) as Hset.
    { clear. intros o k v. induction o as [|[k' v'] o IH]; simpl.
      - intros ->%list_elem_of_singleton. by right.
      - destruct (String.eqb k' k) eqn:Hk.
        + apply String.eqb_eq in Hk as ->.
          intros [->|Hin]%elem_of_cons; [by right|].
          left. by apply list_elem_of_further.
        + intros [->|[Hin|Hin]%IH]%elem_of_cons.
          * left. apply list_elem_of_here.
          * left. by apply list_elem_of_further.
          * by right. }
    apply Hset in Hin as [Hin|[= -> ->]]; [by left|].
    right. exists g. split; [apply list_elem_of_here|done].
  - right. exists group. split; [by apply list_elem_of_further|done].
Qed.

Lemma removeColumns_excluded (row : Row) :
  JSObject.hasOwnProperty (removeColumns row) "sync time" = false
  /\ JSObject.hasOwnProperty (removeColumns row) "planDeliveryDate" = false.
Proof.
  unfold removeColumns, JSObject.hasOwnProperty.
  split; by rewrite !getOwn_delete.
Qed.

(** X9: every entry of the archive of a successful run is the workbook of
    one group: it has one sheet, named as the first sheet of the source; its
    rows are the rows of the group in their order, each of them a row of the
    source that passed the status filter, copied without the sync time and
    planDeliveryDate properties; it holds at least one row; and it has one
    column width of 15 for each property of its first row. *)
Theorem archive_workbooks file hubName wb jsonData groupedData :
  XLSX_read file = Ok wb -> sheet_to_json wb = Ok jsonData ->
  groupByFleeName (deliveredData jsonData) = Ok groupedData ->
  succeeds (run (Some file) hubName) ->
  exists zip,
    downloads (run (Some file) hubName) = [(hubName +:+ ".zip", zip)]
    /\ Forall (fun entry : string * Workbook =>
         let w := entry.2 in
         wbSheetName w = firstSheetName wb
         /\ (exists fleeName,
               fleeName ∈ JSObject.keys groupedData
               /\ entry.1 = entryName fleeName
               /\ wbRows w
                  = removeColumns <$> rowsKeyed fleeName (deliveredData jsonData))
         /\ Forall (fun newRow =>
              JSObject.hasOwnProperty newRow "sync time" = false
              /\ JSObject.hasOwnProperty newRow "planDeliveryDate" = false
              /\ exists row, row ∈ jsonData /\ isDelivered row = true
                   /\ newRow = removeColumns row) (wbRows w)
         /\ (exists first, head (wbRows w) = Some first
               /\ wbCols w = replicate (length (JSObject.keys first)) 15))
       (JSObject.entries zip).
Proof.
  intros Hread Hsheet Hgroup
    (wb' & firstRow & rest & g & Hread' & Hsheet' & _ & _ & Hgroup' & _ & Ht)%succeeds_inv.
  assert (wb' = wb) as -> by congruence.
  assert (jsonData = firstRow :: rest) as -> by congruence.
  assert (g = groupedData) as -> by congruence.
  eexists. rewrite Ht, success_form_downloads. split; [done|].
  apply Forall_forall. intros [name w] Hin.
  rewrite entries_perm in Hin.
  apply archive_elem_of in Hin as [Hin|([k data] & Hg & -> & ->)];
    [by apply elem_of_nil in Hin|].
  pose proof (entries_nonempty _ _ Hgroup) as Hdata.
  eapply Forall_forall in Hdata; [|exact Hg]. simpl in Hdata.
  pose proof Hgroup as Hgroups%groupByFleeName_Ok.
  assert (k ∈ JSObject.keys groupedData
          /\ data = rowsKeyed k (deliveredData (firstRow :: rest))) as [Hk ->].
  { rewrite Hgroups in Hg |- *. rewrite groupsInOrder_entries in Hg.
    apply list_elem_of_fmap in Hg as (k' & [= -> ->] & Hk'). done. }
  cbn [fst snd]. cbv zeta. split_and!.
  - done.
  - exists k. split_and!; done.
  - unfold workbookOf. cbn [wbRows]. apply Forall_fmap, Forall_forall.
    intros row [_ Hrow]%list_elem_of_filter. cbv beta. unfold compose.
    pose proof (removeColumns_excluded row) as [? ?]. split_and!; [done..|].
    exists row. apply list_elem_of_filter in Hrow as [Hd Hrow].
    split_and!; [done| |done]. by destruct (isDelivered row).
  - unfold workbookOf. cbn [wbRows wbCols].
    destruct (rowsKeyed k (deliveredData (firstRow :: rest))) as [|row data];
      [done|].
    csimpl. eexists. split; [done|].
    generalize (JSObject.keys (removeColumns row)). intros l.
    induction l as [|x l IH]; csimpl; [done|]. by rewrite IH.
Qed.

(** X10: when no group key holds one of the nine characters, a successful
    run puts one entry per group into the archive, named by the key followed
    by .xlsx, in the enumeration order of the groups. *)
Theorem legal_keys_one_entry_per_group file hubName wb jsonData groupedData :
  XLSX_read file = Ok wb -> sheet_to_json wb = Ok jsonData ->
  groupByFleeName (deliveredData jsonData) = Ok groupedData ->
  succeeds (run (Some file) hubName) ->
  Forall (fun fleeName => JSString.containsAny illegalChars fleeName = false)
    (JSObject.keys groupedData) ->
  exists zip,
    downloads (run (Some file) hubName) = [(hubName +:+ ".zip", zip)]
    /\ JSObject.keys zip
       = (fun fleeName => fleeName +:+ ".xlsx") <$> JSObject.keys groupedData
    /\ length (JSObject.keys zip) = length (JSObject.keys groupedData).
Proof.
  intros Hread Hsheet Hgroup
    (wb' & firstRow & rest & g & Hread' & Hsheet' & _ & _ & Hgroup' & _ & Ht)%succeeds_inv
    Hlegal.
  assert (wb' = wb) as -> by congruence.
  assert (jsonData = firstRow :: rest) as -> by congruence.
  assert (g = groupedData) as -> by congruence.
  eexists. rewrite Ht, success_form_downloads. split; [done|].
  rewrite archive_keys. fold (JSObject.keys groupedData).
  assert (entryName <$> JSObject.keys groupedData
          = (fun fleeName => fleeName +:+ ".xlsx") <$> JSObject.keys groupedData)
    as ->.
  { apply list_fmap_ext. intros i k Hk%list_elem_of_lookup_2.
    unfold entryName. f_equal. apply cleanName_id.
    - eapply Forall_forall in Hlegal; [exact Hlegal|done].
    - by eapply group_keys_trimmed. }
  assert (NoDup ((fun fleeName => fleeName +:+ ".xlsx") <$> JSObject.keys groupedData))
    as Hnd.
  { apply NoDup_fmap_2.
    - intros a b. apply append_inj_r.
    - apply groupByFleeName_Ok in Hgroup as ->.
      rewrite groupsInOrder_keys. apply firstOccurrences_NoDup. }
  rewrite firstOccurrences_NoDup_id by done. split; [done|].
  by rewrite length_fmap.
Qed.

End ArchiveContent.

(** ** Rows that reach the archive *)

Lemma sum_list_app l1 l2 : sum_list (l1 ++ l2) = sum_list l1 + sum_list l2.
Proof. induction l1 as [|x l1 IH]; simpl; [done|]. rewrite IH. lia. Qed.

Lemma archiveRows_set_fresh (zip : Zip) name w :
  name ∉ zip.*1 ->
  archiveRows (JSObject.set zip name w) = archiveRows zip + length (wbRows w).
Proof.
  intros Hfresh. rewrite set_fresh by done. unfold archiveRows.
  rewrite fmap_app, sum_list_app. simpl. lia.
Qed.

Lemma archiveRows_set_present (zip : Zip) name w :
  name ∈ zip.*1 ->
  Forall (fun entry : string * Workbook => wbRows entry.2 <> []) zip ->
  archiveRows (JSObject.set zip name w) < archiveRows zip + length (wbRows w).
Proof.
  unfold archiveRows. induction zip as [|[name' w'] zip IH]; csimpl.
  - by intros ?%elem_of_nil.
  - intros Hin [Hw' Hzip]%Forall_cons. simpl in Hw'.
    destruct (String.eqb name' name) eqn:Hname; csimpl.
    + destruct (wbRows w'); [done|]. simpl. lia.
    + apply String.eqb_neq in Hname.
      apply elem_of_cons in Hin as [->|Hin]; [done|].
      specialize (IH Hin Hzip). lia.
Qed.

Lemma set_nonempty (zip : Zip) name w :
  wbRows w <> [] ->
  Forall (fun entry : string * Workbook => wbRows entry.2 <> []) zip ->
  Forall (fun entry : string * Workbook => wbRows entry.2 <> [])
    (JSObject.set zip name w).
Proof.
  intros Hw. induction zip as [|[name' w'] zip IH]; simpl.
  - intros _. by repeat constructor.
  - intros [Hw' Hzip]%Forall_cons. destruct (String.eqb name' name).
    + by constructor.
    + constructor; [done|by apply IH].
Qed.

Lemma workbookOf_rows sheetName data :
  length (wbRows (workbookOf sheetName data)) = length data.
Proof. unfold workbookOf. simpl. apply length_fmap. Qed.

(** The archive of groups that hold a row each: it never holds more rows
    than the groups, and holds as many exactly when no two groups have the
    same entry name. *)
Lemma archive_rows sheetName (groups : list (string * list Row)) :
  Forall (fun group : string * list Row => group.2 <> []) groups ->
  let zip := foldl (addEntry sheetName) JSObject.empty groups in
  Forall (fun entry : string * Workbook => wbRows entry.2 <> []) zip
  /\ archiveRows zip <= groupRows groups
  /\ (archiveRows zip = groupRows groups <-> NoDup (entryName <$> groups.*1)).
Proof.
  induction groups as [|[k data] groups IH] using rev_ind; intros Hgroups zip.
  - split_and!; [constructor|done|]. split; [constructor|done].
  - apply Forall_app in Hgroups as [Hgroups [Hdata _]%Forall_cons].
    simpl in Hdata. destruct (IH Hgroups) as (Hne & Hle & Hiff).
    unfold zip. rewrite foldl_app. simpl.
    set (zip' := foldl (addEntry sheetName) JSObject.empty groups) in *.
    unfold addEntry at 1 2 3. simpl.
    assert (wbRows (workbookOf sheetName data) <> []) as Hw.
    { unfold workbookOf. simpl. by destruct data. }
    assert (groupRows (groups ++ [(k, data)]) = groupRows groups + length data)
      as ->.
    { unfold groupRows. rewrite fmap_app, sum_list_app. simpl. lia. }
    assert (zip'.*1 = firstOccurrences (entryName <$> groups.*1)) as Hnames
      by apply archive_names.
    rewrite !fmap_app, NoDup_app. simpl.
    split; [by apply set_nonempty|].
    destruct (decide (entryName k ∈ zip'.*1)) as [Hin|Hin].
    + pose proof (archiveRows_set_present zip' (entryName k)
                    (workbookOf sheetName data) Hin Hne) as Hlt.
      rewrite workbookOf_rows in Hlt. split; [lia|]. split; [lia|].
      intros (_ & Hdisj & _). destruct (Hdisj (entryName k)).
      * rewrite Hnames in Hin. exact (proj1 (firstOccurrences_elem_of _ _) Hin).
      * apply list_elem_of_here.
    + rewrite archiveRows_set_fresh, workbookOf_rows by done.
      split; [lia|]. rewrite Nat.add_cancel_r, Hiff. split.
      * intros Hnd. split_and!; [done| |apply NoDup_singleton].
        intros name Hname ->%list_elem_of_singleton. apply Hin.
        rewrite Hnames. exact (proj2 (firstOccurrences_elem_of _ _) Hname).
      * by intros (Hnd & _).
Qed.

Lemma groupRows_concat (groups : list (string * list Row)) :
  groupRows groups = length (concat groups.*2).
Proof.
  unfold groupRows. induction groups as [|[k data] groups IH]; csimpl; [done|].
  rewrite length_app, IH. done.
Qed.

(** The groups of a completed grouping hold the rows, each once. *)
Lemma groupRows_entries rows groupedData :
  groupByFleeName rows = Ok groupedData ->
  groupRows (JSObject.entries groupedData) = length rows.
Proof.
  intros Hgroup. pose proof Hgroup as ->%groupByFleeName_Ok.
  rewrite groupRows_concat, groupsInOrder_entries, <-list_fmap_compose.
  rewrite (concat_Permutation _
             ((fun k => rowsKeyed k rows) <$> firstOccurrences (fleeNameOf <$> rows))).
  2:{ apply fmap_Permutation, groupsInOrder_keys. }
  rewrite concat_rowsKeyed by apply firstOccurrences_NoDup.
  rewrite filter_True; [done|]. apply Forall_forall. intros row Hrow.
  apply firstOccurrences_elem_of. by apply list_elem_of_fmap_2.
Qed.

Section ArchiveRows.
Context {payload workbook : Type}.
Context (XLSX_read : payload -> result workbook)
        (firstSheetName : workbook -> string)
        (sheet_to_json : workbook -> result (list Row))
        (XLSX_write : Workbook -> result unit)
        (generateAsync : Zip -> result unit).

Local Abbreviation run :=
  (processExcel XLSX_read firstSheetName sheet_to_json XLSX_write generateAsync).

(** X11: the archive of a successful run never holds more rows than the
    statistics report, and it holds every filtered row exactly when no two
    groups have the same entry name: when the names of two groups are
    sanitised to the same text, the rows of the group written first are
    missing from the archive although the statistics count them. *)
Theorem archive_holds_every_row_iff_names_differ
    file hubName wb jsonData groupedData :
  XLSX_read file = Ok wb -> sheet_to_json wb = Ok jsonData ->
  groupByFleeName (deliveredData jsonData) = Ok groupedData ->
  succeeds (run (Some file) hubName) ->
  exists zip s,
    downloads (run (Some file) hubName) = [(hubName +:+ ".zip", zip)]
    /\ publishedStats (run (Some file) hubName) = [s]
    /\ totalRows s = length (deliveredData jsonData)
    /\ archiveRows zip <= totalRows s
    /\ (archiveRows zip = totalRows s
        <-> NoDup (entryName <$> JSObject.keys groupedData)).
Proof.
  intros Hread Hsheet Hgroup
    (wb' & firstRow & rest & g & Hread' & Hsheet' & _ & _ & Hgroup' & _ & Ht)%succeeds_inv.
  assert (wb' = wb) as -> by congruence.
  assert (jsonData = firstRow :: rest) as -> by congruence.
  assert (g = groupedData) as -> by congruence.
  eexists _, _.
  rewrite Ht, success_form_downloads, success_form_publishedStats.
  split_and!; [done..| |]; cbn [totalRows];
    destruct (archive_rows (firstSheetName wb) (JSObject.entries groupedData)
                (entries_nonempty _ _ Hgroup)) as (_ & Hle & Hiff);
    rewrite (groupRows_entries _ _ Hgroup) in Hle, Hiff; done.
Qed.

End ArchiveRows.

Lemma archive_holds_every_row_iff_names_differ_witness :
  exists zip,
    downloads (sampleRun collidingSheet) = [("HUB.zip", zip)]
    /\ archiveRows zip = 1
    /\ length (deliveredData collidingSheet) = 2.
Proof.
  assert (succeeds (sampleRun collidingSheet)) as Hok
    by (intros st; vm_compute; reflexivity).
  destruct (archive_holds_every_row_iff_names_differ sampleRead sampleSheetName
              sampleRead sampleWrite sampleGenerate collidingSheet "HUB"
              collidingSheet collidingSheet
              (groupsInOrder (deliveredData collidingSheet))
              eq_refl eq_refl eq_refl Hok)
    as (zip & s & Hdownloads & _).
  exists zip. split; [exact Hdownloads|].
  vm_compute in Hdownloads. injection Hdownloads as <-.
  split; vm_compute; reflexivity.
Defined.

(** ** The percentages of any run *)

Section AnyRun.
Context {payload workbook : Type}.
Context (XLSX_read : payload -> result workbook)
        (firstSheetName : workbook -> string)
        (sheet_to_json : workbook -> result (list Row))
        (XLSX_write : Workbook -> result unit)
        (generateAsync : Zip -> result unit).

Local Abbreviation run :=
  (processExcel XLSX_read firstSheetName sheet_to_json XLSX_write generateAsync).
Local Abbreviation percentAt n := (fun i => SetProgress (Percent (progressPercent i n))).
Local Abbreviation exported n m := ((fun i => progressPercent i n) <$> seq 1 m).

Lemma exported_bounds n m :
  m <= n -> Forall (fun z => (60 <= z <= 90)%Z) (exported n m).
Proof.
  intros Hm. apply Forall_fmap, Forall_forall. intros i [Hi1 Hi2]%elem_of_seq.
  cbv beta. unfold compose. apply progressPercent_bounds; lia.
Qed.

(** The percentages up to 95, for [n] groups of which [m] are written. *)
Lemma percents_sorted n m :
  m <= n -> StronglySorted Z.le ([10; 25; 40; 50; 60]%Z ++ exported n m ++ [95]%Z).
Proof.
  intros Hm. pose proof (exported_bounds n m Hm) as Hbounds.
  apply StronglySorted_app_2.
  - intros x1 x2 Hx1 Hx2. assert (x1 <= 60)%Z.
    { repeat (apply elem_of_cons in Hx1 as [->|Hx1]; [lia|]).
      by apply elem_of_nil in Hx1. }
    assert (60 <= x2)%Z; [|lia].
    apply elem_of_app in Hx2 as [Hx2|Hx2].
    + eapply Forall_forall in Hbounds; [|done]. lia.
    + apply list_elem_of_singleton in Hx2 as ->. lia.
  - repeat first [apply SSorted_nil | apply SSorted_cons
                 | apply List.Forall_nil | apply List.Forall_cons; [lia|] ].
  - apply StronglySorted_app_2.
    + intros x1 x2 Hx1 Hx2.
      eapply Forall_forall in Hbounds; [|done].
      apply list_elem_of_singleton in Hx2 as ->. lia.
    + apply StronglySorted_fmap_seq. intros i j Hij.
      by apply progressPercent_mono.
    + repeat constructor.
Qed.

Lemma percents_cons e t :
  percents (e :: t)
  = match e with
    | SetProgress (Percent n) => n :: percents t
    | _ => percents t
    end.
Proof. by destruct e as [| |[]| | |]. Qed.

(** A run that ends with the three events of a failure, after events whose
    percentages are some of those of a complete run. *)
Lemma failing_run_percents t l msg n m (k : list Z) :
  t = l ++ [SetStatus msg; SetStatusType error; SetProgress NoProgress] ->
  m <= n ->
  percents l ++ k = [10; 25; 40; 50; 60]%Z ++ exported n m ++ [95]%Z ->
  ~ succeeds t
  /\ exists n m, m <= n
       /\ percents t `prefix_of` [10; 25; 40; 50; 60]%Z ++ exported n m ++ [95]%Z.
Proof.
  intros -> Hm Hk. split.
  - apply (failsWith_not_succeeds _ msg), failure_form_failsWith.
  - exists n, m. split; [done|]. exists k.
    rewrite percents_app. simpl. by rewrite app_nil_r.
Qed.

(** The percentages of a run: those of a complete run, or a part of them
    that stops before 100. *)
Lemma run_percents file hubName :
  (succeeds (run (Some file) hubName)
   /\ exists n, percents (run (Some file) hubName)
                = [10; 25; 40; 50; 60]%Z ++ exported n n ++ [95; 100]%Z)
  \/ (~ succeeds (run (Some file) hubName)
      /\ exists n m, m <= n
           /\ percents (run (Some file) hubName)
              `prefix_of` [10; 25; 40; 50; 60]%Z ++ exported n m ++ [95]%Z).
Proof.
  rewrite processExcel_unfold.
  destruct (XLSX_read file) as [wb|e].
  2:{ right. by eapply (failing_run_percents _ [_; _; _] _ 0 0 [25; 40; 50; 60; 95]%Z). }
  destruct (sheet_to_json wb) as [[|firstRow rest]|e].
  1,3: right; by eapply (failing_run_percents _ [_; _; _; _] _ 0 0 [40; 50; 60; 95]%Z).
  destruct (negb _).
  { right. by eapply (failing_run_percents _ [_; _; _; _; _] _ 0 0 [50; 60; 95]%Z). }
  destruct (_ =? 0)%nat.
  { right. by eapply (failing_run_percents _ [_; _; _; _; _] _ 0 0 [50; 60; 95]%Z). }
  destruct (groupByFleeName _) as [groupedData|e].
  2:{ right.
      by eapply (failing_run_percents _ [_; _; _; _; _; _; _] _ 0 0 [60; 95]%Z). }
  cbv zeta. set (n := length (JSObject.keys groupedData)).
  destruct (exportGroups_spec XLSX_write (firstSheetName wb) n
              (JSObject.entries groupedData) JSObject.empty 0)
    as (m & Hm & Hevs & Hend).
  assert (length (JSObject.entries groupedData) = n) as Hlen.
  { unfold n, JSObject.keys. by rewrite length_fmap. }
  rewrite Hlen in Hm.
  destruct (exportGroups _ _ _ _ _ _) as [evs [zip| |e]];
    simpl in Hevs, Hend; cbn [fst snd]; subst evs.
  - destruct Hend as [-> _]. rewrite Hlen.
    destruct (generateAsync zip) as [[]|e].
    + left. split.
      * intros st. unfold finalState. simpl. rewrite foldl_app. done.
      * exists n. cbn [app].
        rewrite !percents_cons, percents_app, percents_percentAt. done.
    + right.
      eapply (failing_run_percents _
                ([_; _; _; _; _; _; _; _; _] ++ (percentAt n <$> seq 1 n) ++ [_; _])
                _ n n []); [|done|].
      * simpl. by rewrite <-app_assoc.
      * rewrite !percents_app, percents_percentAt. simpl. by rewrite app_nil_r.
  - done.
  - right.
    eapply (failing_run_percents _
              ([_; _; _; _; _; _; _; _; _] ++ (percentAt n <$> seq 1 m))
              _ n m [95]%Z); [done|done|].
    by rewrite !percents_app, percents_percentAt.
Qed.

(** X12: on every run, failing runs included, the percentages shown are
    between 10 and 100 and never decrease; a failing run shows the first of
    the percentages of a complete run and stops at 95 at most, so that 100 is
    shown exactly by the runs that end in success. *)
Theorem progress_never_decreases_on_any_run file hubName :
  let t := run (Some file) hubName in
  StronglySorted Z.le (percents t)
  /\ Forall (fun z => (10 <= z <= 100)%Z) (percents t)
  /\ (100%Z ∈ percents t <-> succeeds t).
Proof.
  intros t. unfold t.
  assert (forall n m, m <= n ->
            Forall (fun z => (10 <= z <= 95)%Z)
              ([10; 25; 40; 50; 60]%Z ++ exported n m ++ [95]%Z)) as Hrange.
  { intros n m Hm. repeat (apply Forall_cons; split; [lia|]).
    apply Forall_app. split.
    - eapply Forall_impl; [by apply exported_bounds|]. intros z ?. simpl in *. lia.
    - by repeat constructor. }
  destruct (run_percents file hubName)
    as [[Hok [n Hp]]|[Hfail (n & m & Hm & k & Hk)]].
  - rewrite Hp.
    assert ([10; 25; 40; 50; 60]%Z ++ exported n n ++ [95; 100]%Z
            = ([10; 25; 40; 50; 60]%Z ++ exported n n ++ [95]%Z) ++ [100]%Z) as ->.
    { by rewrite <-!app_assoc. }
    pose proof (Hrange n n (le_n n)) as Hr. split_and!.
    + apply StronglySorted_app_2; [|by apply percents_sorted|by repeat constructor].
      intros x1 x2 Hx1 ->%list_elem_of_singleton.
      eapply Forall_forall in Hr; [|done]. simpl in Hr. lia.
    + apply Forall_app. split; [|by repeat constructor].
      eapply Forall_impl; [exact Hr|]. intros z ?. simpl in *. lia.
    + split; [done|]. intros _. apply elem_of_app. right. apply list_elem_of_here.
  - pose proof (Hrange n m Hm) as Hr. rewrite Hk in Hr.
    apply Forall_app in Hr as [Hr _]. split_and!.
    + eapply StronglySorted_app_1_l. rewrite <-Hk. by apply percents_sorted.
    + eapply Forall_impl; [exact Hr|]. intros z ?. simpl in *. lia.
    + split; [|done]. intros Hin.
      eapply Forall_forall in Hr; [|done]. simpl in Hr. lia.
Qed.

End AnyRun.

(** ** The accuracy of the export percentages *)

Section AccuracyFacts.
Local Open Scope Q_scope.

Local Abbreviation ratio p n := (inject_Z (Z.of_nat p) / inject_Z (Z.of_nat n)).

(** X13: after [processedFiles] of [fileCount] groups the percentage shown
    is the integer nearest to 60 + 30 * processedFiles / fileCount, up to the
    rounding of the three operations on doubles, which moves the number that
    is rounded by less than 2^-46: the percentage is within a half and 2^-46
    of the exact value, and when the exact value is an integer the percentage
    is that integer. *)
Theorem progressPercent_accuracy (processedFiles fileCount : nat) :
  (0 < fileCount)%nat -> (processedFiles <= fileCount)%nat ->
  let exact := 60 + 30 * ratio processedFiles fileCount in
  exact - (1 # 2) - 2 ^ (-46) < inject_Z (progressPercent processedFiles fileCount)
  /\ inject_Z (progressPercent processedFiles fileCount) <= exact + (1 # 2) + 2 ^ (-46)
  /\ (forall k : Z, exact == inject_Z k ->
        progressPercent processedFiles fileCount = k).
Proof.
  intros Hn Hpn exact.
  pose proof (progress_error processedFiles fileCount Hn Hpn) as Herr.
  cbv zeta in Herr. fold exact in Herr. unfold progressPercent, Math_round.
  set (computed := binary64 _) in *.
  pose proof (Qfloor_le (computed + (1 # 2))) as Hle.
  pose proof (Qlt_floor (computed + (1 # 2))) as Hlt.
  rewrite inject_Z_plus in Hlt. change (inject_Z 1) with 1 in Hlt.
  assert (2 ^ (-46) == 1 # 70368744177664) as E46 by reflexivity.
  split_and!.
  - lra.
  - lra.
  - intros k Hk. rewrite Hk, E46 in Herr.
    assert (inject_Z (Qfloor (computed + (1 # 2))) < inject_Z (k + 1)) as H1.
    { rewrite inject_Z_plus. change (inject_Z 1) with 1. lra. }
    assert (inject_Z k < inject_Z (Qfloor (computed + (1 # 2)) + 1)) as H2.
    { rewrite inject_Z_plus. change (inject_Z 1) with 1. lra. }
    rewrite <-Zlt_Qlt in H1, H2. lia.
Qed.

End AccuracyFacts.

Lemma progressPercent_accuracy_witness :
  (0 < 2)%nat /\ (1 <= 2)%nat /\ progressPercent 1 2 = 75%Z.
Proof.
  assert (0 < 2)%nat as Hn by lia. assert (1 <= 2)%nat as Hp by lia.
  split; [exact Hn|]. split; [exact Hp|].
  apply (proj2 (proj2 (progressPercent_accuracy 1 2 Hn Hp))). reflexivity.
Defined.

(** ** Selecting a file *)

Section SuffixFacts.
Import JSString.

Lemma substring_whole s : substring 0 (String.length s) s = s.
Proof. induction s as [|c s IH]; simpl; [done|]. by rewrite IH. Qed.

Lemma substring_append p s :
  substring (String.length p) (String.length s) (p +:+ s) = s.
Proof. induction p as [|c p IH]; simpl; [apply substring_whole|done]. Qed.

Lemma substring_split s n :
  n <= String.length s ->
  s = substring 0 n s +:+ substring n (String.length s - n) s.
Proof.
  revert n. induction s as [|c s IH]; intros [|n] Hn; simpl in *; try lia.
  - done.
  - by rewrite substring_whole.
  - change (String c s
            = String c (substring 0 n s +:+ substring n (String.length s - n) s)).
    f_equal. apply IH. lia.
Qed.

(** [endsWith] holds exactly of the strings made of some text followed by
    the suffix. *)
Lemma endsWith_spec s suffix :
  endsWith s suffix = true <-> exists p, s = p +:+ suffix.
Proof.
  unfold endsWith. rewrite andb_true_iff, Nat.leb_le, String.eqb_eq. split.
  - intros [Hle Hsub].
    exists (substring 0 (String.length s - String.length suffix) s).
    pose proof (substring_split s (String.length s - String.length suffix)) as Hs.
    replace (String.length s - (String.length s - String.length suffix))
      with (String.length suffix) in Hs by lia.
    rewrite Hsub in Hs. apply Hs. lia.
  - intros [p ->]. rewrite length_append. split; [lia|].
    replace (String.length p + String.length suffix - String.length suffix)
      with (String.length p) by lia.
    apply substring_append.
Qed.

End SuffixFacts.

Lemma hasExcelExtension_endsWith fileName :
  JSString.endsWith fileName ".xlsx" || JSString.endsWith fileName ".xls" = true
  <-> hasExcelExtension fileName.
Proof.
  rewrite orb_true_iff, !endsWith_spec. unfold hasExcelExtension. naive_solver.
Qed.

(** The test [hub && hub.trim()] passes exactly when the answer holds a
    character that is not white space. *)
Lemma hub_test hub :
  truthy (VString hub) && truthy (VString (JSString.trim hub))
  = negb (JSString.isBlank hub).
Proof.
  simpl. destruct (JSString.isBlank hub) eqn:Hblank.
  - apply trim_empty in Hblank as ->. simpl. apply andb_false_r.
  - assert (JSString.trim hub <> "") as Htrim.
    { intros Ht%trim_empty. congruence. }
    assert (hub <> "") as Hhub by (by intros ->).
    apply String.eqb_neq in Htrim, Hhub. by rewrite Htrim, Hhub.
Qed.

Section HandlerFacts.
Context {File : Type}.
Variable name : File -> string.
Import FileSplit.

(** X14: a drop looks at the first dropped file only. A name that does not
    end with .xlsx or .xls is refused at once, without any dialog: the status
    becomes the upload error and the file, the hub name, the statistics and
    the progress stay as they were. A name with the extension opens the hub
    dialog; only an answer that holds a character other than white space
    selects the file, stores the trimmed answer as hub name and clears the
    status and the statistics; a cancelled or blank answer changes nothing.
    In every case the dragging mark is removed. *)
Theorem handleDrop_selects_excel_names_with_a_hub (files : list File) (c : Cells File) :
  match files with
  | [] => handleDrop name files c = Finish (setIsDragging false c)
  | droppedFile :: _ =>
      (~ hasExcelExtension (name droppedFile) ->
         handleDrop name files c
         = Finish {| file := file c;
                     status := "Please upload Excel file (.xlsx or .xls)";
                     statusType := error; isDragging := false; stats := stats c;
                     progress := progress c; hubName := hubName c |})
      /\ (hasExcelExtension (name droppedFile) ->
            exists k,
              handleDrop name files c = Prompt "Please enter the Hub/Sub-hub:" k
              /\ k None = setIsDragging false c
              /\ forall hub,
                   k (Some hub)
                   = if JSString.isBlank hub then setIsDragging false c
                     else {| file := Some droppedFile; status := "";
                             statusType := idle; isDragging := false;
                             stats := None; progress := progress c;
                             hubName := JSString.trim hub |})
  end.
Proof.
  destruct files as [|droppedFile files]; [done|].
  unfold handleDrop.
  pose proof (hasExcelExtension_endsWith (name droppedFile)) as Hext.
  destruct (_ || _).
  - split; [intros []; by apply Hext|]. intros _. eexists. split_and!; [done..|].
    intros hub. cbv beta iota. rewrite hub_test.
    by destruct (JSString.isBlank hub).
  - split; [done|]. intros Hyes%Hext. done.
Qed.

(** X15: a selection in the file dialog looks at the first selected file
    and accepts it whatever its name is - there is no test of the extension
    on this path. It always opens the hub dialog. An answer that holds a
    character other than white space selects the file, stores the trimmed
    answer, clears the status and the statistics and leaves the input
    element as it is; a cancelled or blank answer changes no cell and empties
    the input element. With no file selected nothing happens. For a file
    whose name has the extension, dropping it and selecting it in the dialog
    lead to the same cells whatever the answer is, but for the dragging mark,
    which only the drop removes; a file whose name lacks the extension is
    selected by the dialog, whereas a drop of it leaves the file cell as it
    was. *)
Theorem handleFileChange_selects_any_name_with_a_hub
    (files : list File) (value : string) (c : Cells File) :
  match files with
  | [] => handleFileChange files value c = Finish (c, value)
  | selectedFile :: _ =>
      (exists k,
         handleFileChange files value c = Prompt "Please enter the Hub/Sub-hub:" k
         /\ k None = (c, "")
         /\ forall hub,
              k (Some hub)
              = if JSString.isBlank hub then (c, "")
                else ({| file := Some selectedFile; status := "";
                         statusType := idle; isDragging := isDragging c;
                         stats := None; progress := progress c;
                         hubName := JSString.trim hub |}, value))
      /\ (hasExcelExtension (name selectedFile) ->
          forall hub,
            answer (handleDrop name files c) hub
            = setIsDragging false (answer (handleFileChange files value c) hub).1)
      /\ (~ hasExcelExtension (name selectedFile) ->
          forall hub, JSString.isBlank hub = false ->
            file (answer (handleFileChange files value c) (Some hub)).1
            = Some selectedFile
            /\ file (answer (handleDrop name files c) (Some hub)) = file c)
  end.
Proof.
  destruct files as [|selectedFile files]; [done|].
  pose proof (hasExcelExtension_endsWith (name selectedFile)) as Hext.
  split_and!.
  - unfold handleFileChange. eexists. split_and!; [done..|].
    intros hub. cbv beta iota. rewrite hub_test.
    by destruct (JSString.isBlank hub).
  - intros Hyes%Hext hub. unfold handleDrop, handleFileChange. rewrite Hyes.
    destruct hub as [hub|]; [|done]. cbn [answer]. rewrite hub_test.
    by destruct (JSString.isBlank hub).
  - intros Hno hub Hblank. unfold handleDrop, handleFileChange.
    destruct (_ || _); [by destruct Hno; apply Hext|].
    cbn [answer]. by rewrite hub_test, Hblank.
Qed.

End HandlerFacts.

(** ** Sequences of actions *)

Section SessionFacts.
Context {File workbook : Type}.
Context (name : File -> string)
        (XLSX_read : File -> result workbook)
        (firstSheetName : workbook -> string)
        (sheet_to_json : workbook -> result (list Row))
        (XLSX_write : Workbook -> result unit)
        (generateAsync : Zip -> result unit).
Import FileSplit.

Local Abbreviation run :=
  (processExcel XLSX_read firstSheetName sheet_to_json XLSX_write generateAsync).
Local Abbreviation startProcessing :=
  (startProcessing XLSX_read firstSheetName sheet_to_json XLSX_write generateAsync).
Local Abbreviation step :=
  (step name XLSX_read firstSheetName sheet_to_json XLSX_write generateAsync).
Local Abbreviation session :=
  (session name XLSX_read firstSheetName sheet_to_json XLSX_write generateAsync).

(** What holds of the cells between two actions: a file is selected exactly
    when a hub name is stored, the hub name has no white space at either end,
    and statistics are kept only while a file is selected. *)
Local Abbreviation consistent c :=
  ((file c = None <-> hubName c = "")
   /\ JSString.trim (hubName c) = hubName c
   /\ (stats c <> None -> file c <> None)).

Lemma applyEvent_file (c : Cells File) t : file (foldl applyEvent c t) = file c.
Proof.
  revert c. induction t as [|e t IH]; intros c; simpl; [done|].
  rewrite IH. by destruct e.
Qed.

Lemma applyEvent_hubName (c : Cells File) t :
  hubName (foldl applyEvent c t) = hubName c.
Proof.
  revert c. induction t as [|e t IH]; intros c; simpl; [done|].
  rewrite IH. by destruct e.
Qed.

Lemma applyEvent_isDragging (c : Cells File) t :
  isDragging (foldl applyEvent c t) = isDragging c.
Proof.
  revert c. induction t as [|e t IH]; intros c; simpl; [done|].
  rewrite IH. by destruct e.
Qed.

(** A run downloads at most one archive, named by the hub name. *)
Lemma run_downloads file hubName :
  downloads (run (Some file) hubName) = []
  \/ exists zip, downloads (run (Some file) hubName) = [(hubName +:+ ".zip", zip)].
Proof.
  destruct (run_cases XLSX_read firstSheetName sheet_to_json XLSX_write
              generateAsync file hubName)
    as [(prefix & m & -> & Hq & _)
       |(wb & firstRow & rest & groupedData & _ & _ & _ & _ & _ & _ & ->)].
  - left. by apply failure_form_downloads.
  - right. eexists. apply success_form_downloads.
Qed.

Lemma nonblank_trim hub :
  JSString.isBlank hub = false -> JSString.trim hub <> "".
Proof. intros Hblank Ht%trim_empty. congruence. Qed.

Lemma select_consistent (c : Cells File) f hub :
  JSString.isBlank hub = false ->
  consistent (setStats None
                (setStatusType idle
                   (setStatus "" (setFile (Some f) (setHubName (JSString.trim hub) c))))).
Proof.
  intros Hblank. simpl. split_and!; [|apply trim_idem|done].
  split; [done|]. intros Ht. by destruct (nonblank_trim hub).
Qed.

Lemma step_consistent (c : Cells File) a : consistent c -> consistent (step c a).1.
Proof.
  intros (Hfile & Htrim & Hstats).
  destruct a as [| |files hub|files value hub| |]; cbn [FileSplit.step fst].
  - done.
  - done.
  - unfold handleDrop, answer. destruct files as [|droppedFile files]; [done|].
    destruct (_ || _); [|done]. destruct hub as [hub|]; [|done].
    rewrite hub_test. destruct (JSString.isBlank hub) eqn:Hblank; [done|].
    by apply (select_consistent (setIsDragging false c)).
  - unfold handleFileChange, answer.
    destruct files as [|selectedFile files]; [done|].
    destruct hub as [hub|]; [|done].
    rewrite hub_test. destruct (JSString.isBlank hub) eqn:Hblank; [done|].
    by apply select_consistent.
  - rewrite applyEvent_file, applyEvent_hubName.
    split_and!; [done..|]. intros Hs.
    destruct (file c) as [f|] eqn:Hf; [done|].
    unfold FileSplit.startProcessing in Hs. rewrite Hf in Hs. simpl in Hs. auto.
  - done.
Qed.

Lemma step_downloads (c : Cells File) a :
  consistent c ->
  Forall (fun download : string * Zip =>
            exists hub, download.1 = hub +:+ ".zip"
              /\ hub <> "" /\ JSString.trim hub = hub)
    (downloads (step c a).2).
Proof.
  intros (Hfile & Htrim & _). destruct a; simpl; try by constructor.
  unfold FileSplit.startProcessing. destruct (file c) as [f|] eqn:Hf; [|by constructor].
  destruct (run_downloads f (hubName c)) as [->|[zip ->]]; [by constructor|].
  repeat constructor. exists (hubName c). simpl. split_and!; [done| |done].
  intros Hhub. apply Hfile in Hhub. congruence.
Qed.

Lemma session_consistent (c : Cells File) actions :
  consistent c ->
  consistent (session c actions).1
  /\ Forall (fun download : string * Zip =>
               exists hub, download.1 = hub +:+ ".zip"
                 /\ hub <> "" /\ JSString.trim hub = hub)
       (downloads (session c actions).2).
Proof.
  revert c. induction actions as [|a actions IH]; intros c Hc; simpl.
  - split; [done|constructor].
  - pose proof (step_consistent c a Hc) as Hc'.
    pose proof (step_downloads c a Hc) as Hd.
    destruct (step c a) as [c' t]. simpl in *.
    destruct (IH c' Hc') as [Hc'' Hd'].
    destruct (session c' actions) as [c'' t']. simpl in *.
    split; [done|]. rewrite downloads_app. by apply Forall_app.
Qed.

(** X16: after any sequence of drops, selections, runs and resets on a
    freshly mounted component, a file is selected exactly when a hub name is
    stored, the stored hub name has no white space at either end, and
    statistics are kept only while a file is selected; so the upload area
    shows the hub line whenever it shows a file, and every archive that was
    handed to the browser is named by a hub name that is not empty and has no
    white space at either end, followed by .zip. *)
Theorem session_keeps_hub_and_file_together
    (size : File -> N) (actions : list action) :
  let c := (session initial actions).1 in
  let t := (session initial actions).2 in
  (file c = None <-> hubName c = "")
  /\ JSString.trim (hubName c) = hubName c
  /\ (stats c <> None -> file c <> None)
  /\ (forall f, file c = Some f ->
        uploadArea (render name size c)
        = Selected (name f) (toFixed2_of_1024th (size f)) (Some (hubName c)))
  /\ Forall (fun download : string * Zip =>
               exists hub, download.1 = hub +:+ ".zip"
                 /\ hub <> "" /\ JSString.trim hub = hub)
       (downloads t).
Proof.
  intros c t.
  assert (consistent (@initial File)) as Hinit by done.
  destruct (session_consistent initial actions Hinit)
    as [(Hfile & Htrim & Hstats) Hd].
  fold c in Hfile, Htrim, Hstats. fold t in Hd.
  split_and!; [done..| |done].
  intros f Hf. unfold render. rewrite Hf. cbn [uploadArea]. f_equal.
  assert (hubName c <> "") as Hhub.
  { intros Hh%Hfile. congruence. }
  apply String.eqb_neq in Hhub. simpl. by rewrite Hhub.
Qed.

End SessionFacts.

(** ** What is rendered after a run *)

Lemma messageText_nonempty m : messageText m <> "".
Proof. by destruct m. Qed.

Section ViewFacts.
Context {File workbook : Type}.
Context (name : File -> string) (size : File -> N)
        (XLSX_read : File -> result workbook)
        (firstSheetName : workbook -> string)
        (sheet_to_json : workbook -> result (list Row))
        (XLSX_write : Workbook -> result unit)
        (generateAsync : Zip -> result unit).
Import FileSplit.

Local Abbreviation run :=
  (processExcel XLSX_read firstSheetName sheet_to_json XLSX_write generateAsync).
Local Abbreviation startProcessing :=
  (startProcessing XLSX_read firstSheetName sheet_to_json XLSX_write generateAsync).
Local Abbreviation step :=
  (step name XLSX_read firstSheetName sheet_to_json XLSX_write generateAsync).
Local Abbreviation render := (render name size).
Local Abbreviation percentAt n := (fun i => SetProgress (Percent (progressPercent i n))).

Lemma applyEvent_quiet_stats (c : Cells File) t :
  Forall (fun e => quiet e) t -> stats (foldl applyEvent c t) = stats c.
Proof.
  intros Ht. revert c. induction Ht as [|e t He _ IH]; intros c; [done|].
  simpl. rewrite IH. by destruct e.
Qed.

(** The cells after a run that fails. *)
Lemma applyEvent_failure (c : Cells File) prefix m :
  Forall (fun e => quiet e) prefix ->
  foldl applyEvent c
    (prefix ++ [SetStatus m; SetStatusType error; SetProgress NoProgress])
  = {| file := file c; status := messageText m; statusType := error;
       isDragging := isDragging c; stats := stats c; progress := "";
       hubName := hubName c |}.
Proof.
  intros Hq. rewrite foldl_app. simpl.
  unfold setProgress, setStatusType, setStatus. simpl.
  by rewrite applyEvent_file, applyEvent_hubName, applyEvent_isDragging,
    applyEvent_quiet_stats.
Qed.

(** The cells after a run that succeeds. *)
Lemma applyEvent_success (c : Cells File) prefix hubName' delivered
    (groupedData : Groups) zip :
  foldl applyEvent c (prefix ++ successEvents hubName' delivered groupedData zip)
  = {| file := file c;
       status := messageText (SuccessGenerated (length (JSObject.keys groupedData)));
       statusType := success;
       isDragging := isDragging c;
       stats := Some {| totalRows := length delivered;
                        uniqueFiles := length (JSObject.keys groupedData);
                        fileNames := firstTen (JSObject.keys groupedData) |};
       progress := "100%";
       hubName := hubName c |}.
Proof.
  rewrite foldl_app. simpl.
  unfold setProgress, setStatusType, setStatus, setStats. simpl.
  by rewrite applyEvent_file, applyEvent_hubName, applyEvent_isDragging.
Qed.

(** X17: when a run started on a selected file is over, the progress bar is
    not rendered, both buttons are enabled again and the first one reads
    Start Processing, the upload area is as before, and the status box shows
    a text that is not empty in the style of success or of error. After a
    failure the statistics panel is the one rendered before the run - the
    statistics of an earlier run stay on the page; after a success a panel
    is rendered. *)
Theorem view_after_a_run (c : Cells File) (f : File) :
  file c = Some f ->
  let c' := (step c StartProcessing).1 in
  let v := render c' in
  progressBar v = None
  /\ actions v = Some {| disabled := false; startLabel := "Start Processing" |}
  /\ uploadArea v = uploadArea (render c)
  /\ clickOpensPicker v = false
  /\ (exists text, statusBox v = Some (text, statusType c') /\ text <> "")
  /\ (statusType c' = success \/ statusType c' = error)
  /\ (statusType c' = error -> statsPanel v = statsPanel (render c))
  /\ (statusType c' = success -> exists panel, statsPanel v = Some panel).
Proof.
  intros Hf c' v. unfold v, c'. cbn [FileSplit.step fst].
  unfold FileSplit.startProcessing. rewrite Hf.
  assert (forall m, truthy (VString (messageText m)) = true) as Htext.
  { intros m. simpl. apply negb_true_iff, String.eqb_neq, messageText_nonempty. }
  destruct (run_cases XLSX_read firstSheetName sheet_to_json XLSX_write
              generateAsync f (hubName c))
    as [(prefix & m & -> & Hq & _)
       |(wb & firstRow & rest & groupedData & _ & _ & _ & _ & _ & _ & ->)].
  - rewrite applyEvent_failure by done.
    unfold FileSplit.render. cbn -[truthy messageText]. rewrite Hf, Htext.
    split_and!; try done.
    + eexists. split; [done|apply messageText_nonempty].
    + by right.
  - rewrite !app_assoc, applyEvent_success.
    unfold FileSplit.render. cbn -[truthy messageText firstTen]. rewrite Hf, Htext.
    split_and!; try done.
    + eexists. split; [done|apply messageText_nonempty].
    + by left.
    + intros _. eexists. done.
Qed.

(** X18: after a successful run the statistics panel shows the number of
    filtered rows and the number of groups; the preview lists the first ten
    group keys in the enumeration order of the groups, each followed by
    .xlsx, and the line of further files is there exactly when there are more
    than ten groups, with the number of groups beyond ten - so the lines and
    that number together account for every group. *)
Theorem stats_panel_accounts_for_every_group
    (c : Cells File) (f : File) wb jsonData groupedData :
  file c = Some f ->
  XLSX_read f = Ok wb -> sheet_to_json wb = Ok jsonData ->
  groupByFleeName (deliveredData jsonData) = Ok groupedData ->
  succeeds (startProcessing c) ->
  let keys := JSObject.keys groupedData in
  exists items more,
    statsPanel (render (step c StartProcessing).1)
    = Some {| statTotalRows := length (deliveredData jsonData);
              statFilesGenerated := length keys;
              fileList := Some {| fileListItems := items; fileListMore := more |} |}
    /\ items = (fun fleeName => fleeName +:+ ".xlsx") <$> take 10 keys
    /\ more = (if (10 <? length keys)%nat then Some (length keys - 10) else None)
    /\ length items + match more with Some n => n | None => 0 end = length keys.
Proof.
  intros Hf Hread Hsheet Hgroup Hok keys.
  cbn [FileSplit.step fst].
  unfold FileSplit.startProcessing in *. rewrite Hf in *.
  destruct (succeeds_inv _ _ _ _ _ _ _ Hok)
    as (wb' & firstRow & rest & g & Hread' & Hsheet' & _ & Hne & Hgroup' & _ & Ht).
  assert (wb' = wb) as -> by congruence.
  assert (jsonData = firstRow :: rest) as -> by congruence.
  assert (g = groupedData) as -> by congruence.
  rewrite Ht, !app_assoc, applyEvent_success.
  pose proof (groups_nonempty _ _ Hgroup Hne) as Hpos. fold keys in Hpos.
  unfold FileSplit.render. cbn [statsPanel stats totalRows uniqueFiles fileNames].
  fold keys. unfold firstTen. rewrite length_take.
  replace (0 <? Nat.min 10 (length keys))%nat with true
    by (symmetry; apply Nat.ltb_lt; lia).
  eexists _, _. split_and!; [done..|].
  rewrite length_fmap, length_take.
  destruct (10 <? length keys)%nat eqn:Hten.
  - apply Nat.ltb_lt in Hten. lia.
  - apply Nat.ltb_ge in Hten. lia.
Qed.

(** X19: a line of the preview names an entry of the archive exactly when
    the key of its group holds none of the nine characters that are replaced
    in entry names; the preview shows the key as it is. *)
Theorem preview_names_an_entry_iff_key_is_legal
    (c : Cells File) (f : File) wb jsonData groupedData fleeName :
  file c = Some f ->
  XLSX_read f = Ok wb -> sheet_to_json wb = Ok jsonData ->
  groupByFleeName (deliveredData jsonData) = Ok groupedData ->
  succeeds (startProcessing c) ->
  fleeName ∈ JSObject.keys groupedData ->
  exists zip,
    downloads (startProcessing c) = [(hubName c +:+ ".zip", zip)]
    /\ (fleeName +:+ ".xlsx" ∈ JSObject.keys zip
        <-> JSString.containsAny illegalChars fleeName = false)
    /\ (fleeName +:+ ".xlsx" = entryName fleeName
        <-> JSString.containsAny illegalChars fleeName = false).
Proof.
  intros Hf Hread Hsheet Hgroup Hok Hkey.
  unfold FileSplit.startProcessing in *. rewrite Hf in *.
  destruct (succeeds_inv _ _ _ _ _ _ _ Hok)
    as (wb' & firstRow & rest & g & Hread' & Hsheet' & _ & Hne & Hgroup' & _ & Ht).
  assert (wb' = wb) as -> by congruence.
  assert (jsonData = firstRow :: rest) as -> by congruence.
  assert (g = groupedData) as -> by congruence.
  eexists. rewrite Ht, success_form_downloads. split; [done|].
  rewrite archive_keys. fold (JSObject.keys groupedData).
  pose proof (group_keys_trimmed _ _ _ Hgroup Hkey) as Htrim.
  assert (JSString.containsAny illegalChars fleeName = false ->
          entryName fleeName = fleeName +:+ ".xlsx") as Hlegal.
  { intros Hl. unfold entryName. by rewrite cleanName_id. }
  assert (forall k, fleeName +:+ ".xlsx" = entryName k ->
            JSString.containsAny illegalChars fleeName = false) as Hinv.
  { intros k Heq. pose proof (entryName_legal k) as Hk. rewrite <-Heq in Hk.
    rewrite containsAny_app in Hk. by apply orb_false_iff in Hk as [? _]. }
  split.
  - rewrite firstOccurrences_elem_of, list_elem_of_fmap. split.
    + intros (k & Heq & _). by eapply Hinv.
    + intros Hl. exists fleeName. by rewrite Hlegal.
  - split; [apply Hinv|]. intros Hl. by rewrite Hlegal.
Qed.

End ViewFacts.

(** ** Navigation *)

Section NavigationFacts.
Import App.

Lemma samePage_eq a b : samePage a b = true <-> a = b.
Proof. by destruct a, b. Qed.

Lemma find_unique_id (menu : list MenuItem) (item : MenuItem) :
  NoDup (id <$> menu) -> item ∈ menu ->
  List.find (fun item' => samePage (id item') (id item)) menu = Some item.
Proof.
  induction menu as [|first menu IH]; intros Hnd Hin; [by apply elem_of_nil in Hin|].
  csimpl in Hnd. apply NoDup_cons in Hnd as [Hfirst Hnd]. simpl.
  apply elem_of_cons in Hin as [->|Hin].
  - by rewrite (proj2 (samePage_eq _ _)).
  - destruct (samePage (id first) (id item)) eqn:Hsame; [|by apply IH].
    apply samePage_eq in Hsame. destruct Hfirst. rewrite Hsame.
    by apply list_elem_of_fmap_2.
Qed.

(** X20: in a menu whose items have distinct ids, the card of an item opens
    the page of that item: a page with the title of the item on which its
    component is mounted, or, for an item without component, the coming-soon
    page, whose title is the fixed text Other Tools whatever the title of the
    item is. Either page has a Back button that leads home, and the home
    page shows one card per item, in the order of the menu. *)
Theorem card_opens_the_page_of_its_item (menu : list MenuItem) (item : MenuItem) :
  NoDup (id <$> menu) -> item ∈ menu -> id item <> home ->
  (exists cards, renderContent menu home = HomePage cards
     /\ cardTitle <$> cards = title <$> menu
     /\ {| cardTitle := title item; cardDescription := description item;
           onClick := id item |} ∈ cards)
  /\ renderContent menu (handleNavigate (id item))
     = match component item with
       | Some Component => ToolPage (title item) home Component
       | None => ComingSoon "Other Tools" home
       end.
Proof.
  intros Hnd Hin Hhome. split.
  - eexists. split; [done|]. split.
    + rewrite <-list_fmap_compose. done.
    + apply list_elem_of_fmap. by exists item.
  - unfold handleNavigate, renderContent.
    rewrite (find_unique_id menu item Hnd Hin).
    destruct item as [p t d [C|]]; simpl in *; by destruct p.
Qed.

End NavigationFacts.

Lemma card_opens_the_page_of_its_item_witness :
  App.renderContent App.menuItems App.file_split
  = App.ToolPage "Excel File Splitter" App.home App.FileSplit.
Proof.
  assert (NoDup (App.id <$> App.menuItems)) as Hnd.
  { repeat constructor; intros Hin; repeat (apply elem_of_cons in Hin as [Hin|Hin];
      [discriminate Hin|]); by apply elem_of_nil in Hin. }
  assert ({| App.id := App.file_split; App.title := "Excel File Splitter";
             App.description := "Split Route Parcel Report";
             App.component := Some App.FileSplit |} ∈ App.menuItems) as Hin
    by apply list_elem_of_here.
  exact (proj2 (card_opens_the_page_of_its_item App.menuItems _ Hnd Hin
                  ltac:(discriminate))).
Defined.

(** ** The further properties on sample inputs *)

(** A drop of a text file, the selection of the report for the hub HUB and
    a run: the cells at the end and the archive handed to the browser. *)
Lemma sampleSession_run :
  forall c t,
    sampleSession
      [ FileSplit.DropFiles [notesFile] None;
        FileSplit.PickFiles [reportFile] "C:\fakepath\report.xlsx" (Some " HUB ");
        FileSplit.StartProcessing ] = (c, t) ->
    FileSplit.file c = Some reportFile
    /\ FileSplit.hubName c = "HUB"
    /\ FileSplit.status c
       = "Success! Generated 2 Excel files (DELIVERED only) and packaged as ZIP"
    /\ FileSplit.statusType c = success
    /\ FileSplit.progress c = "100%"
    /\ (downloads t).*1 = ["HUB.zip"].
Proof.
  intros c t Hrun. vm_compute in Hrun. injection Hrun as <- <-.
  split_and!; reflexivity.
Qed.

(** The same drop alone: the upload error, and no file. *)
Lemma sampleSession_refused :
  (sampleSession [FileSplit.DropFiles [notesFile] (Some "HUB")]).1
  = {| FileSplit.file := None;
       FileSplit.status := "Please upload Excel file (.xlsx or .xls)";
       FileSplit.statusType := error; FileSplit.isDragging := false;
       FileSplit.stats := None; FileSplit.progress := "";
       FileSplit.hubName := "" |}.
Proof. vm_compute. reflexivity. Qed.

(** An answer made of a NO-BREAK SPACE and an IDEOGRAPHIC SPACE selects
    nothing, on either path; around a name these characters are not stored. *)
Lemma sampleSession_blank_answer :
  let blank := JSString.fromCodePoint 0xA0 +:+ JSString.fromCodePoint 0x3000 in
  (sampleSession [FileSplit.DropFiles [reportFile] (Some blank)]).1
  = FileSplit.initial
  /\ (sampleSession
        [FileSplit.PickFiles [reportFile] "C:\fakepath\report.xlsx" (Some blank)]).1
     = FileSplit.initial
  /\ FileSplit.hubName
       (sampleSession
          [FileSplit.DropFiles [reportFile] (Some (blank +:+ "HUB" +:+ blank))]).1
     = "HUB".
Proof. split_and!; vm_compute; reflexivity. Qed.

(** The size shown for files of 0, 128, 1536 and 1048576 bytes. *)
Lemma toFixed2_of_1024th_samples :
  toFixed2_of_1024th 0 = "0.00" /\ toFixed2_of_1024th 128 = "0.13"
  /\ toFixed2_of_1024th 1536 = "1.50" /\ toFixed2_of_1024th 1048576 = "1024.00".
Proof. split_and!; vm_compute; reflexivity. Qed.

Lemma write_failure_stops_the_run_witness :
  failsWith
    (processExcel sampleRead sampleSheetName sampleRead rejectingWrite
       sampleGenerate (Some mixedSheet) "HUB")
    (ProcessingFailed (LibraryError "write failed"))
  /\ percents
       (processExcel sampleRead sampleSheetName sampleRead rejectingWrite
          sampleGenerate (Some mixedSheet) "HUB")
     = [10; 25; 40; 50; 60; 75]%Z.
Proof.
  destruct (write_failure_stops_the_run sampleRead sampleSheetName sampleRead
              rejectingWrite sampleGenerate mixedSheet "HUB" mixedSheet
              (sampleRow "CourierX" "Delivered")
              [sampleRow "Other" "DELIVERED"; sampleRow " CourierX " " delivered ";
               sampleRow "Late" "IN_TRANSIT"]
              (groupsInOrder (deliveredData mixedSheet))
              [("CourierX", [sampleRow "CourierX" "Delivered";
                             sampleRow " CourierX " " delivered "])]
              "Other" [sampleRow "Other" "DELIVERED"] []
              (LibraryError "write failed")
              eq_refl eq_refl eq_refl eq_refl eq_refl)
    as (Hfails & Hpercents & _).
  - repeat constructor.
  - reflexivity.
  - split; [exact Hfails|]. rewrite Hpercents. vm_compute. reflexivity.
Defined.

Lemma packaging_failure_stops_the_run_witness :
  failsWith
    (processExcel sampleRead sampleSheetName sampleRead sampleWrite
       rejectingGenerate (Some mixedSheet) "HUB")
    (ProcessingFailed (LibraryError "out of memory"))
  /\ downloads
       (processExcel sampleRead sampleSheetName sampleRead sampleWrite
          rejectingGenerate (Some mixedSheet) "HUB")
     = [].
Proof.
  destruct (packaging_failure_stops_the_run sampleRead sampleSheetName sampleRead
              sampleWrite rejectingGenerate mixedSheet "HUB" mixedSheet
              (sampleRow "CourierX" "Delivered")
              [sampleRow "Other" "DELIVERED"; sampleRow " CourierX " " delivered ";
               sampleRow "Late" "IN_TRANSIT"]
              (groupsInOrder (deliveredData mixedSheet))
              (LibraryError "out of memory")
              eq_refl eq_refl eq_refl)
    as (Hfails & _ & Hdownloads & _).
  - discriminate.
  - reflexivity.
  - repeat constructor.
  - reflexivity.
  - split; [exact Hfails|exact Hdownloads].
Defined.

Lemma statistics_bounds_witness :
  succeeds (sampleRun mixedSheet)
  /\ exists s, publishedStats (sampleRun mixedSheet) = [s]
       /\ uniqueFiles s <= totalRows s <= length mixedSheet.
Proof.
  assert (succeeds (sampleRun mixedSheet)) as Hok
    by (intros st; vm_compute; reflexivity).
  split; [exact Hok|].
  destruct (statistics_bounds sampleRead sampleSheetName sampleRead sampleWrite
              sampleGenerate mixedSheet "HUB" mixedSheet mixedSheet
              eq_refl eq_refl Hok)
    as (s & Hs & _ & Hfiles & Hrows & _).
  exists s. split; [exact Hs|]. split; [exact Hfiles|exact Hrows].
Defined.

Lemma archive_workbooks_witness :
  succeeds (sampleRun mixedSheet)
  /\ exists zip,
       downloads (sampleRun mixedSheet) = [("HUB.zip", zip)]
       /\ Forall (fun entry : string * Workbook =>
                    wbSheetName entry.2 = "Sheet1" /\ wbRows entry.2 <> [])
            (JSObject.entries zip).
Proof.
  assert (succeeds (sampleRun mixedSheet)) as Hok
    by (intros st; vm_compute; reflexivity).
  split; [exact Hok|].
  destruct (archive_workbooks sampleRead sampleSheetName sampleRead sampleWrite
              sampleGenerate mixedSheet "HUB" mixedSheet mixedSheet
              (groupsInOrder (deliveredData mixedSheet))
              eq_refl eq_refl eq_refl Hok)
    as (zip & Hdownloads & Hentries).
  exists zip. split; [exact Hdownloads|].
  eapply Forall_impl; [exact Hentries|].
  intros entry (Hsheet & _ & _ & (first & Hfirst & _)). split; [exact Hsheet|].
  intros Hnil. rewrite Hnil in Hfirst. discriminate Hfirst.
Defined.

Lemma legal_keys_one_entry_per_group_witness :
  succeeds (sampleRun mixedSheet)
  /\ exists zip,
       downloads (sampleRun mixedSheet) = [("HUB.zip", zip)]
       /\ JSObject.keys zip = ["CourierX.xlsx"; "Other.xlsx"].
Proof.
  assert (succeeds (sampleRun mixedSheet)) as Hok
    by (intros st; vm_compute; reflexivity).
  split; [exact Hok|].
  destruct (legal_keys_one_entry_per_group sampleRead sampleSheetName sampleRead
              sampleWrite sampleGenerate mixedSheet "HUB" mixedSheet mixedSheet
              (groupsInOrder (deliveredData mixedSheet))
              eq_refl eq_refl eq_refl Hok)
    as (zip & Hdownloads & Hkeys & _).
  - repeat constructor.
  - exists zip. split; [exact Hdownloads|]. rewrite Hkeys. reflexivity.
Defined.

Lemma view_after_a_run_witness :
  FileSplit.file selectedCells = Some reportFile
  /\ FileSplit.progressBar
       (FileSplit.render sampleName sampleSize
          (FileSplit.step sampleName sampleReadFile sampleSheetName sampleRead
             sampleWrite sampleGenerate selectedCells FileSplit.StartProcessing).1)
     = None.
Proof.
  split; [reflexivity|].
  exact (proj1 (view_after_a_run sampleName sampleSize sampleReadFile
                  sampleSheetName sampleRead sampleWrite sampleGenerate
                  selectedCells reportFile eq_refl)).
Defined.

Lemma stats_panel_accounts_for_every_group_witness :
  FileSplit.statsPanel
    (FileSplit.render sampleName sampleSize
       (FileSplit.step sampleName sampleReadFile sampleSheetName sampleRead
          sampleWrite sampleGenerate selectedCells FileSplit.StartProcessing).1)
  = Some {| FileSplit.statTotalRows := 3;
            FileSplit.statFilesGenerated := 2;
            FileSplit.fileList :=
              Some {| FileSplit.fileListItems := ["CourierX.xlsx"; "Other.xlsx"];
                      FileSplit.fileListMore := None |} |}.
Proof.
  assert (succeeds
            (FileSplit.startProcessing sampleReadFile sampleSheetName sampleRead
               sampleWrite sampleGenerate selectedCells)) as Hok
    by (intros st; vm_compute; reflexivity).
  destruct (stats_panel_accounts_for_every_group sampleName sampleSize
              sampleReadFile sampleSheetName sampleRead sampleWrite sampleGenerate
              selectedCells reportFile mixedSheet mixedSheet
              (groupsInOrder (deliveredData mixedSheet))
              eq_refl eq_refl eq_refl eq_refl Hok)
    as (items & more & Hpanel & -> & -> & _).
  rewrite Hpanel. reflexivity.
Defined.

Lemma preview_names_an_entry_iff_key_is_legal_witness :
  exists zip,
    downloads
      (FileSplit.startProcessing sampleReadFile sampleSheetName sampleRead
         sampleWrite sampleGenerate selectedCells)
    = [("HUB.zip", zip)]
    /\ "Other.xlsx" ∈ JSObject.keys zip.
Proof.
  assert (succeeds
            (FileSplit.startProcessing sampleReadFile sampleSheetName sampleRead
               sampleWrite sampleGenerate selectedCells)) as Hok
    by (intros st; vm_compute; reflexivity).
  destruct (preview_names_an_entry_iff_key_is_legal
              sampleReadFile sampleSheetName sampleRead sampleWrite sampleGenerate
              selectedCells reportFile mixedSheet mixedSheet
              (groupsInOrder (deliveredData mixedSheet)) "Other"
              eq_refl eq_refl eq_refl eq_refl Hok)
    as (zip & Hdownloads & Hin & _).
  - apply list_elem_of_further, list_elem_of_here.
  - exists zip. split; [exact Hdownloads|]. apply Hin. reflexivity.
Defined.
